(** * Sprite PNG plugin: asset selection, packing reconciliation and change detection

    A shallow embedding of the two plugin variants of the repository,
    [src/index.js] (the sheet replaces assets staged in the host build) and
    [src/plugin.js] (the sheet and the manifest are written as files), with
    the properties of the specification stated and settled over it.

    JavaScript values are modelled by inductive types, objects with ordered
    own properties by association lists, the plugin instance and the host by
    explicit state threaded through a state and exception monad, and what the
    plugin does to the outside world (packer calls, file writes, the host
    callback) by a log of events.  The packer answers after the handler
    that called it has returned: a handler returns the calls it made, and
    the answer of the packer is a step of its own.  The file system and the
    end of a write are steps of the world likewise. *)

From Stdlib Require Import String Ascii List ZArith Bool Arith Lia.
Import ListNotations.

Set Warnings "-register-all".

Local Open Scope string_scope.
Local Open Scope list_scope.

(** Concatenation of strings; [++] is kept for lists. *)
Infix "+++" := String.append (right associativity, at level 60).

(* ================================================================== *)
(** * Part I: definitions *)
(* ================================================================== *)

(** ** JavaScript strings, regular expressions and option values *)

Module JS.

(** [String.prototype.endsWith]. *)
Definition endsWith (s suffix : string) : bool :=
  let n := String.length s in
  let m := String.length suffix in
  (m <=? n)%nat && String.eqb (substring (n - m) m s) suffix.

(** [String.prototype.split] with a separator of one character: the pieces
    between the occurrences of the separator, never an empty array. *)
Fixpoint split (sep : ascii) (s : string) : list string :=
  match s with
  | EmptyString => [EmptyString]
  | String c s' =>
      if Ascii.eqb c sep then EmptyString :: split sep s'
      else match split sep s' with
           | [] => [String c EmptyString]
           | piece :: pieces => String c piece :: pieces
           end
  end.

(** [Array.prototype.join]. *)
Fixpoint join (sep : string) (parts : list string) : string :=
  match parts with
  | [] => EmptyString
  | p :: rest =>
      match rest with
      | [] => p
      | _ :: _ => p +++ sep +++ join sep rest
      end
  end.

(** [Array.prototype.pop] on an array of strings, as read by a template
    literal: the last element, and the text of undefined on no element. *)
Definition pop (parts : list string) : string := last parts "undefined".

(** A [RegExp] object.  [matcher s i] is the pattern tried at position [i]
    of [s] only, giving the end of the match; [global], [sticky] and
    [lastIndex] are the properties that [test] reads and writes.
    [identity] tells the objects apart: two values of the same identity
    are one object seen twice, and what [test] writes to the one is read
    from the other. *)
Record RegExp : Type := mkRegExp {
  identity : nat;
  matcher : string -> nat -> option nat;
  global : bool;
  sticky : bool;
  lastIndex : nat
}.

Definition set_lastIndex (r : RegExp) (i : nat) : RegExp :=
  {| identity := identity r; matcher := matcher r; global := global r;
     sticky := sticky r; lastIndex := i |}.

(** The search of [RegExpBuiltinExec]: positions [i], [i+1], ... are tried
    in turn, [fuel] of them. *)
Fixpoint search (m : string -> nat -> option nat) (s : string)
         (i fuel : nat) : option nat :=
  match fuel with
  | O => None
  | S fuel' =>
      match m s i with
      | Some e => Some e
      | None => search m s (S i) fuel'
      end
  end.

(** [RegExp.prototype.test]: the answer and the object after the call.  A
    global or sticky pattern starts at its [lastIndex] and leaves the end
    of the match there (0 on failure); any other pattern starts at 0 and
    is left as it was. *)
Definition test (r : RegExp) (s : string) : bool * RegExp :=
  let stateful := global r || sticky r in
  let start := if stateful then lastIndex r else 0 in
  if (String.length s <? start)%nat then
    (false, if stateful then set_lastIndex r 0 else r)
  else
    let found :=
      if sticky r then matcher r s start
      else search (matcher r) s start (String.length s - start + 1) in
    match found with
    | Some e => (true, if stateful then set_lastIndex r e else r)
    | None => (false, if stateful then set_lastIndex r 0 else r)
    end.

(** The pattern that is a literal text, as in [/icons/]. *)
Definition literal (pat : string) : string -> nat -> option nat :=
  fun s i =>
    if prefix pat (substring i (String.length s - i) s)
    then Some (i + String.length pat) else None.

(** The pattern of a literal text without a flag, freshly created. *)
Definition regexp (pat : string) : RegExp :=
  {| identity := 0; matcher := literal pat; global := false;
     sticky := false; lastIndex := 0 |}.

(** The same with the global flag. *)
Definition regexp_g (pat : string) : RegExp :=
  {| identity := 0; matcher := literal pat; global := true;
     sticky := false; lastIndex := 0 |}.

(** An object like another, but an object of its own. *)
Definition another (id : nat) (r : RegExp) : RegExp :=
  {| identity := id; matcher := matcher r; global := global r;
     sticky := sticky r; lastIndex := lastIndex r |}.

(** The values an option of the plugin can hold.  A pattern is held with
    its state; the items of an array that have the same identity are the
    same object. *)
Inductive value : Type :=
| VUndefined
| VNull
| VBool (b : bool)
| VNumber (n : Z)
| VString (s : string)
| VRegExp (r : RegExp)
| VArray (elems : list value)
| VObject
| VFunction.

(** The [typeof] operator. *)
Definition typeof (v : value) : string :=
  match v with
  | VUndefined => "undefined"
  | VNull => "object"
  | VBool _ => "boolean"
  | VNumber _ => "number"
  | VString _ => "string"
  | VRegExp _ => "object"
  | VArray _ => "object"
  | VObject => "object"
  | VFunction => "function"
  end.

(** [ToBoolean]. *)
Definition truthy (v : value) : bool :=
  match v with
  | VUndefined | VNull => false
  | VBool b => b
  | VNumber n => negb (n =? 0)%Z
  | VString s => negb (s =? "")
  | VRegExp _ | VArray _ | VObject | VFunction => true
  end.

(** [x === s] for a string [s]. *)
Definition strict_eq_string (v : value) (s : string) : bool :=
  match v with
  | VString t => t =? s
  | _ => false
  end.

(** [Array.prototype.includes] with a string argument. *)
Definition includes (elems : list value) (s : string) : bool :=
  existsb (fun v => strict_eq_string v s) elems.

End JS.

(** ** Node's [path] module, POSIX flavour *)

Module Path.

Definition slash : ascii := "/"%char.
Definition backslash : ascii := "\"%char.

Definition isAbsolute (p : string) : bool :=
  match p with
  | String c _ => Ascii.eqb c slash
  | EmptyString => false
  end.

Definition trailingSlash (p : string) : bool := JS.endsWith p "/".

(** [normalizeString]: dot segments resolved over the segments seen so far
    ([res], last segment first). *)
Fixpoint normalizeSegments (allowAboveRoot : bool) (segs res : list string)
  : list string :=
  match segs with
  | [] => rev res
  | seg :: more =>
      if (seg =? "") || (seg =? ".") then
        normalizeSegments allowAboveRoot more res
      else if seg =? ".." then
        match res with
        | [] =>
            normalizeSegments allowAboveRoot more
              (if allowAboveRoot then [".."] else [])
        | top :: below =>
            if top =? ".." then
              normalizeSegments allowAboveRoot more
                (if allowAboveRoot then ".." :: res else res)
            else normalizeSegments allowAboveRoot more below
        end
      else normalizeSegments allowAboveRoot more (seg :: res)
  end.

Definition normalizeString (p : string) (allowAboveRoot : bool) : string :=
  JS.join "/" (normalizeSegments allowAboveRoot (JS.split slash p) []).

(** [path.normalize]. *)
Definition normalize (p : string) : string :=
  if p =? "" then "."
  else
    let body := normalizeString p (negb (isAbsolute p)) in
    if body =? "" then
      if isAbsolute p then "/" else if trailingSlash p then "./" else "."
    else
      let body := if trailingSlash p then body +++ "/" else body in
      if isAbsolute p then "/" +++ body else body.

(** [path.join] of two arguments. *)
Definition join (a b : string) : string :=
  if a =? "" then (if b =? "" then "." else normalize b)
  else if b =? "" then normalize a
  else normalize (a +++ "/" +++ b).

(** [path.resolve(p)] in a process whose working directory is [cwd]. *)
Definition resolve (cwd p : string) : string :=
  let full := if isAbsolute p then p else cwd +++ "/" +++ p in
  let body := normalizeString full (negb (isAbsolute full)) in
  if isAbsolute full then "/" +++ body
  else if body =? "" then "." else body.

Fixpoint stripCommon (a b : list string) : list string * list string :=
  match a, b with
  | x :: a', y :: b' => if x =? y then stripCommon a' b' else (a, b)
  | _, _ => (a, b)
  end.

Definition segments (p : string) : list string :=
  filter (fun seg => negb (seg =? "")) (JS.split slash p).

(** [path.relative]. *)
Definition relative (cwd from to : string) : string :=
  if from =? to then ""
  else
    let from' := resolve cwd from in
    let to' := resolve cwd to in
    if from' =? to' then ""
    else
      let '(up, down) := stripCommon (segments from') (segments to') in
      JS.join "/" (repeat ".." (List.length up) ++ down).

(** The loop of [path.dirname]: the characters at the positions [i],
    [i-1], ..., 1, for the position of the slash that ends the directory
    part. *)
Fixpoint dirnameScan (chars : list ascii) (i : nat) (matchedSlash : bool)
  : option nat :=
  match chars with
  | [] => None
  | c :: before =>
      if Ascii.eqb c slash then
        if matchedSlash then dirnameScan before (i - 1) matchedSlash
        else Some i
      else dirnameScan before (i - 1) false
  end.

(** [path.dirname]. *)
Definition dirname (p : string) : string :=
  if p =? "" then "."
  else
    let chars := list_ascii_of_string p in
    match dirnameScan (rev (tl chars)) (String.length p - 1) true with
    | None => if isAbsolute p then "/" else "."
    | Some e =>
        if isAbsolute p && (e =? 1)%nat then "//" else substring 0 e p
    end.

(** The loop of [path.basename]: the characters at the positions [i],
    [i-1], ..., 0, for the start and the end of the last segment. *)
Fixpoint basenameScan (chars : list ascii) (i : nat) (matchedSlash : bool)
         (e : option nat) : nat * option nat :=
  match chars with
  | [] => (0, e)
  | c :: before =>
      if Ascii.eqb c slash then
        if matchedSlash then basenameScan before (i - 1) matchedSlash e
        else (i + 1, e)
      else
        match e with
        | None => basenameScan before (i - 1) false (Some (i + 1))
        | Some _ => basenameScan before (i - 1) matchedSlash e
        end
  end.

(** [path.basename]. *)
Definition basename (p : string) : string :=
  let chars := list_ascii_of_string p in
  match basenameScan (rev chars) (String.length p - 1) true None with
  | (_, None) => ""
  | (start, Some e) => substring start (e - start) p
  end.

(** The functions of [path] the plugins call, for one platform and one
    working directory.  Node has a POSIX and a Windows flavour of them. *)
Record api : Type := mkApi {
  api_sep : ascii;
  api_join : string -> string -> string;
  api_dirname : string -> string;
  api_basename : string -> string;
  api_relative : string -> string -> string
}.

(** The POSIX flavour, in a process whose working directory is [cwd]. *)
Definition posix_api (cwd : string) : api :=
  {| api_sep := slash; api_join := join; api_dirname := dirname;
     api_basename := basename; api_relative := relative cwd |}.

(** The same with another separator. *)
Definition with_sep (c : ascii) (p : api) : api :=
  {| api_sep := c; api_join := api_join p; api_dirname := api_dirname p;
     api_basename := api_basename p; api_relative := api_relative p |}.

End Path.

(** ** Failures, and the monad of the plugin's methods *)

(** What the plugin throws, with the data its messages carry, and what is
    thrown or raised in it by the host, the file system and the promises. *)
Inductive error : Type :=
| BadRules (option_name received : string)
    (* the rules are neither a RegExp nor an Array; [received] is typeof *)
| BadItem (idx : nat) (received : string)
    (* Item at idx must be RegExp but received typeof *)
| WatcherNotInitialed
| PackerFailure (reason : string)
| AssetMissing (file : string)
| WriteFailure (reason : string)
    (* what writeFileSync throws *)
| UnhandledRejection (id : nat).
    (* the rejection of write id, or of a promise it rejected, that no
       handler takes *)

Inductive result (A : Type) : Type :=
| Ok (a : A)
| Throw (e : error).
Arguments Ok {A} a.
Arguments Throw {A} e.

(** A method, or a step of the world, reads and writes the state [S] and
    returns or throws; what it did to the state before it threw stays
    done. *)
Definition M (S A : Type) : Type := S -> result A * S.

Definition ret {S A} (a : A) : M S A := fun s => (Ok a, s).

Definition throw {S A} (e : error) : M S A := fun s => (Throw e, s).

Definition bind {S A B} (m : M S A) (k : A -> M S B) : M S B :=
  fun s =>
    match m s with
    | (Ok a, s') => k a s'
    | (Throw e, s') => (Throw e, s')
    end.

Definition get {S} : M S S := fun s => (Ok s, s).

Definition modify {S} (f : S -> S) : M S unit := fun s => (Ok tt, f s).

Notation "x <- m ;; k" := (bind m (fun x => k))
  (at level 61, m at next level, right associativity).
Notation "m ;; k" := (bind m (fun _ => k))
  (at level 61, right associativity).

(** [Array.prototype.filter] with a predicate that can throw and write the
    state: the elements are visited in order, and a throw ends the visit. *)
Fixpoint filterM {S A} (p : A -> M S bool) (l : list A) : M S (list A) :=
  match l with
  | [] => ret []
  | a :: l' =>
      keep <- p a ;;
      kept <- filterM p l' ;;
      ret (if keep then a :: kept else kept)
  end.

(** [Array.prototype.forEach] likewise. *)
Fixpoint forEachM {S A} (f : A -> M S unit) (l : list A) : M S unit :=
  match l with
  | [] => ret tt
  | a :: l' => f a ;; forEachM f l'
  end.

(** ** Objects of coordinate metadata *)

Module Json.

(** The values coordinate metadata is made of.  An object is the list of
    its own properties in the order they were created; a key occurs once
    in a well-formed object ([wf] below). *)
Inductive json : Type :=
| JUndefined
| JNull
| JNumber (n : Z)
| JString (s : string)
| JObject (props : list (string * json)).

(** [obj[key]] read, for an object given by its own properties. *)
Fixpoint get_prop {A} (key : string) (props : list (string * A))
  : option A :=
  match props with
  | [] => None
  | (k, v) :: props' => if k =? key then Some v else get_prop key props'
  end.

(** [obj[key] = v]: an own property is overwritten where it is, a new one
    is added last. *)
Fixpoint set_prop (key : string) (v : json) (props : list (string * json))
  : list (string * json) :=
  match props with
  | [] => [(key, v)]
  | (k, w) :: props' =>
      if k =? key then (k, v) :: props'
      else (k, w) :: set_prop key v props'
  end.

(** [Object.keys]. *)
Definition keys {A} (props : list (string * A)) : list string :=
  map fst props.

(** Modelled from the spec: [utils/lodashIsEqual] is not among the
    sources.  Deep structural equality over the whole tree, independent of
    the order of the properties: two objects are equal when they have the
    same number of properties and every property of the first is a
    property of the second with an equal value. *)
Fixpoint isEqual (a b : json) {struct a} : bool :=
  match a, b with
  | JUndefined, JUndefined => true
  | JNull, JNull => true
  | JNumber n, JNumber m => (n =? m)%Z
  | JString s, JString t => s =? t
  | JObject ps, JObject qs =>
      (List.length ps =? List.length qs)%nat &&
      (fix every (ps : list (string * json)) : bool :=
         match ps with
         | [] => true
         | (k, v) :: ps' =>
             match get_prop k qs with
             | Some w => isEqual v w
             | None => false
             end && every ps'
         end) ps
  | _, _ => false
  end.

(** Modelled from the spec: [utils/lodashCloneDeep] is not among the
    sources.  A deep, independent copy: every object of the tree is built
    anew, property by property. *)
Fixpoint cloneDeep (a : json) : json :=
  match a with
  | JObject ps =>
      JObject
        ((fix copy (ps : list (string * json)) : list (string * json) :=
            match ps with
            | [] => []
            | (k, v) :: ps' => (k, cloneDeep v) :: copy ps'
            end) ps)
  | _ => a
  end.

(** Every object of the tree has each of its keys once.  Objects of the
    language are so by construction. *)
Fixpoint wf (a : json) : Prop :=
  match a with
  | JObject ps =>
      NoDup (keys ps) /\
      (fix each (ps : list (string * json)) : Prop :=
         match ps with
         | [] => True
         | (_, v) :: ps' => wf v /\ each ps'
         end) ps
  | _ => True
  end.

(** A placement rectangle, as the packer reports it. *)
Record Rect : Type := mkRect { x : Z; y : Z; width : Z; height : Z }.

(** The object the packer holds for a placement. *)
Definition rect_object (r : Rect) : json :=
  JObject [("x", JNumber (x r)); ("y", JNumber (y r));
           ("width", JNumber (width r)); ("height", JNumber (height r))].

(** What the packer calls back with: [coordinates], [properties.width],
    [properties.height] and [image]. *)
Record PackResult : Type := mkPackResult {
  coordinates : list (string * Rect);
  properties_width : Z;
  properties_height : Z;
  image : string
}.

End Json.

Import Json.

(** ** Calls of the packer *)

(** [Spritesmith.run] returns at once and calls back later, when the
    handler that called it has returned.  A call that has not been
    answered yet: the files it was given, and the function the packer
    calls with its error or its result. *)
Record call (S A : Type) : Type := mkCall {
  call_src : A;
  call_back : string + PackResult -> M S unit
}.
Arguments mkCall {S A} call_src call_back.
Arguments call_src {S A} c.
Arguments call_back {S A} c.

(** The packer answers the calls, in their order; [spritesmith] gives its
    error or its result for the files of a call.  What the function it
    calls throws is thrown to nobody: [Throw] is then an exception that
    the process does not catch. *)
Definition answer {S A} (spritesmith : A -> string + PackResult)
           (calls : list (call S A)) : M S unit :=
  forEachM (fun c => call_back c (spritesmith (call_src c))) calls.

(** A pack attempt: a handler runs and returns, and then the packer
    answers the calls the handler made. *)
Definition attempt {S A} (spritesmith : A -> string + PackResult)
           (handler : M S (list (call S A))) : M S unit :=
  calls <- handler ;;
  answer spritesmith calls.

(** ** The in-pipeline plugin, [src/index.js] *)

Module Index.

(** A [Vinyl] file handed to the packer. *)
Record Vinyl : Type := mkVinyl { vinyl_path : string; contents : string }.

(** What the plugin does to the world outside of it. *)
Inductive event : Type :=
| Packed (src : list Vinyl)                 (* Spritesmith.run *)
| WriteFileSync (file : string) (data : json)
    (* writeFileSync(file, JSON.stringify(data)) *)
| Callback.                                 (* the callback of the host *)

(** The plugin instance, the assets of the compilation it is applied to,
    and the events so far (latest last). *)
Record state : Type := mkState {
  _includes : JS.value;
  _outputDir : string;
  _coordinateMeta : json;
  assets : list (string * string);
  log : list event
}.

Definition set_includes (v : JS.value) (st : state) : state :=
  {| _includes := v; _outputDir := _outputDir st;
     _coordinateMeta := _coordinateMeta st; assets := assets st;
     log := log st |}.

Definition set_coordinateMeta (m : json) (st : state) : state :=
  {| _includes := _includes st; _outputDir := _outputDir st;
     _coordinateMeta := m; assets := assets st; log := log st |}.

Definition set_assets (a : list (string * string)) (st : state) : state :=
  {| _includes := _includes st; _outputDir := _outputDir st;
     _coordinateMeta := _coordinateMeta st; assets := a; log := log st |}.

Definition emit (e : event) : M state unit :=
  modify (fun st =>
    {| _includes := _includes st; _outputDir := _outputDir st;
       _coordinateMeta := _coordinateMeta st; assets := assets st;
       log := log st ++ [e] |}).

(** The state of a plugin just constructed, at the start of a compilation
    with the given assets. *)
Definition init (includes : JS.value) (outputDir : string)
           (a : list (string * string)) : state :=
  {| _includes := includes; _outputDir := outputDir;
     _coordinateMeta := JNull; assets := a; log := [] |}.

(** [compilation.updateAsset]: the source of an asset that exists is
    replaced where it is; webpack throws on an asset that does not. *)
Fixpoint replace (file src : string) (a : list (string * string))
  : list (string * string) :=
  match a with
  | [] => []
  | (k, v) :: a' =>
      if k =? file then (k, src) :: a' else (k, v) :: replace file src a'
  end.

Definition updateAsset (file src : string) : M state unit :=
  st <- get ;;
  match get_prop file (assets st) with
  | None => throw (AssetMissing file)
  | Some _ => modify (set_assets (replace file src (assets st)))
  end.

(** [compilation.deleteAsset]: the asset is removed, if there. *)
Definition deleteAsset (file : string) : M state unit :=
  modify (fun st =>
    set_assets (filter (fun kv => negb (fst kv =? file)) (assets st)) st).

(** [isPng]. *)
Definition isPng (filePath : string) : bool := JS.endsWith filePath ".png".

(** [inWhiteList]. *)
Definition inWhiteList (filePath : string) : M state bool :=
  st <- get ;;
  if negb (JS.truthy (_includes st)) then ret true
  else
    match _includes st with
    | JS.VRegExp r =>
        let '(found, r') := JS.test r filePath in
        modify (set_includes (JS.VRegExp r')) ;;
        ret (negb found)
    | JS.VArray elems => ret (negb (JS.includes elems filePath))
    | other => throw (BadRules "includes" (JS.typeof other))
    end.

(** [isPrevMetadata]. *)
Definition isPrevMetadata (newSource : json) : M state bool :=
  st <- get ;;
  let equal := isEqual (_coordinateMeta st) newSource in
  (if negb equal then modify (set_coordinateMeta (cloneDeep newSource))
   else ret tt) ;;
  ret equal.

(** [coordinateMeta[frames][key] = v]. *)
Definition set_frame (key : string) (v : json) (meta : list (string * json))
  : list (string * json) :=
  match get_prop "frames" meta with
  | Some (JObject frames) =>
      set_prop "frames" (JObject (set_prop key v frames)) meta
  | _ => meta
  end.

(** [coordinates[relativePath]]. *)
Definition coordinate (coords : list (string * Rect)) (key : string)
  : json :=
  match get_prop key coords with
  | Some r => rect_object r
  | None => JUndefined
  end.

(** The elements of an array with their indices, as [forEach] passes
    them. *)
Definition indexed {A} (l : list A) : list (nat * A) :=
  combine (seq 0 (List.length l)) l.

Section Handler.

(** The [path] module of the platform. *)
Variable path : Path.api.

(** [ShareStore.getDate(COORDINATE_PATH)]: the store and the constant
    are not among the sources; the path they give is a parameter. *)
Variable coordinatePath : string.

(** The file system: what [writeFileSync] throws for a file and its
    content, if it throws. *)
Variable writeFileSync : string -> json -> option string.

(** The coordinate mapping generated from a pack result (lines 98-104). *)
Definition coordinateMeta (res : PackResult) : json :=
  let meta := [] in
  let meta := set_prop "width" (JNumber (properties_width res)) meta in
  let meta := set_prop "height" (JNumber (properties_height res)) meta in
  let meta := set_prop "frames" (JObject []) meta in
  JObject
    (fold_left
       (fun meta relativePath =>
          set_frame (Path.api_basename path relativePath)
            (coordinate (coordinates res) relativePath) meta)
       (keys (coordinates res)) meta).

(** [createSpriteSheet]: the packer is called and the method returns;
    the function of lines 41-44 is what the packer calls later. *)
Definition createSpriteSheet (imagesData : list Vinyl)
           (callback : PackResult -> M state unit)
  : M state (list (call state (list Vinyl))) :=
  emit (Packed imagesData) ;;
  ret [mkCall imagesData
         (fun answered =>
            match answered with
            | inl err => throw (PackerFailure err)
            | inr result => callback result
            end)].

(** The call of [writeFileSync] on line 107. *)
Definition writeCoordinates (coordinateMeta : json) : M state unit :=
  emit (WriteFileSync coordinatePath coordinateMeta) ;;
  match writeFileSync coordinatePath coordinateMeta with
  | Some err => throw (WriteFailure err)
  | None => ret tt
  end.

(** The images picked among the assets (line 78). *)
Definition imagesPath : M state (list string) :=
  st <- get ;;
  filterM (fun filePath =>
             listed <- inWhiteList filePath ;;
             ret (listed && isPng filePath))
          (keys (assets st)).

(** The files handed to the packer (lines 81-84). *)
Definition imagesData (st : state) (imagesPath : list string) : list Vinyl :=
  map (fun assetPath =>
         {| vinyl_path := Path.api_join path (_outputDir st) assetPath;
            contents :=
              match get_prop assetPath (assets st) with
              | Some src => src
              | None => ""
              end |})
      imagesPath.

(** The handler tapped on [processAssets] (lines 77-114).  It returns
    the calls of the packer it made: with images, the one call whose
    answer runs lines 89-109; without, none, the host being called back
    at once. *)
Definition processAssets : M state (list (call state (list Vinyl))) :=
  imagesPath <- imagesPath ;;
  st <- get ;;
  let imagesData := imagesData st imagesPath in
  if (0 <? List.length imagesPath)%nat then
    createSpriteSheet imagesData (fun res =>
      updateAsset (nth 0 imagesPath "undefined") (image res) ;;
      forEachM (fun ip =>
                  if (0 <? fst ip)%nat then deleteAsset (snd ip)
                  else ret tt)
               (indexed imagesPath) ;;
      let coordinateMeta := coordinateMeta res in
      isPrev <- isPrevMetadata coordinateMeta ;;
      (if negb isPrev
       then writeCoordinates coordinateMeta
       else ret tt) ;;
      emit Callback)
  else
    emit Callback ;;
    ret [].

End Handler.

End Index.

(** ** The standalone plugin, [src/plugin.js] *)

Module Plugin.

(** What is written to a file: [JSON.stringify] of an object as utf8, or
    the image as binary. *)
Inductive data : Type :=
| Utf8 (stringified : json)
| Binary (image : string).

(** How a write ends. *)
Inductive outcome : Type := Fulfilled | Rejected.

(** What the plugin does to the world outside of it, and what the world
    tells it.  A write is known by the number it got when it started. *)
Inductive event : Type :=
| Packed (src : list string)                       (* Spritesmith.run *)
| WriteFile (id : nat) (file : string) (d : data)  (* a write starts *)
| Settled (id : nat) (o : outcome)                 (* a write ends *)
| Callback.                                        (* the callback of the host *)

(** The plugin instance; the promises [Promise.all(...).finally(callback)]
    that are pending, each by the writes it still waits for; the writes
    whose promise was given to a [Promise.all], which takes their
    rejection; the events so far (latest last). *)
Record state : Type := mkState {
  _outputDir : string;
  _excludes : JS.value;
  _entryPath : list string;
  spriteImagePath : string;
  manifestPath : string;
  writes : nat;
  pending : list (list nat);
  handled : list nat;
  log : list event
}.

Definition set_excludes (v : JS.value) (st : state) : state :=
  {| _outputDir := _outputDir st; _excludes := v;
     _entryPath := _entryPath st; spriteImagePath := spriteImagePath st;
     manifestPath := manifestPath st; writes := writes st;
     pending := pending st; handled := handled st; log := log st |}.

Definition set_writes (n : nat) (st : state) : state :=
  {| _outputDir := _outputDir st; _excludes := _excludes st;
     _entryPath := _entryPath st; spriteImagePath := spriteImagePath st;
     manifestPath := manifestPath st; writes := n;
     pending := pending st; handled := handled st; log := log st |}.

Definition set_pending (p : list (list nat)) (st : state) : state :=
  {| _outputDir := _outputDir st; _excludes := _excludes st;
     _entryPath := _entryPath st; spriteImagePath := spriteImagePath st;
     manifestPath := manifestPath st; writes := writes st;
     pending := p; handled := handled st; log := log st |}.

Definition set_handled (h : list nat) (st : state) : state :=
  {| _outputDir := _outputDir st; _excludes := _excludes st;
     _entryPath := _entryPath st; spriteImagePath := spriteImagePath st;
     manifestPath := manifestPath st; writes := writes st;
     pending := pending st; handled := h; log := log st |}.

Definition emit (e : event) : M state unit :=
  modify (fun st =>
    {| _outputDir := _outputDir st; _excludes := _excludes st;
       _entryPath := _entryPath st; spriteImagePath := spriteImagePath st;
       manifestPath := manifestPath st; writes := writes st;
       pending := pending st; handled := handled st;
       log := log st ++ [e] |}).

(** [#getEntry]. *)
Definition getEntry (entry : option (string + list string)) : list string :=
  match entry with
  | None => []
  | Some (inl one) => if one =? "" then [] else [one]
  | Some (inr several) => several
  end.

(** The state of a plugin just constructed (lines 37-44), [outputDir]
    already joined to the working directory by [#getOutputDir]. *)
Definition init (path : Path.api) (outputDir : string) (excludes : JS.value)
           (entry : option (string + list string)) : state :=
  {| _outputDir := outputDir; _excludes := excludes;
     _entryPath := getEntry entry;
     spriteImagePath := Path.api_join path outputDir "sprite.png";
     manifestPath := Path.api_join path outputDir "manifest.json";
     writes := 0; pending := []; handled := []; log := [] |}.

(** [#isPng]. *)
Definition isPng (filePath : string) : bool := JS.endsWith filePath ".png".

(** What a call of [test] on the object [r], which leaves it as [r'],
    does to an array: the call writes [lastIndex] when the pattern is global
    or sticky, and every item that is the object [r] has it written. *)
Definition tested (r r' : JS.RegExp) (items : list JS.value)
  : list JS.value :=
  if JS.global r || JS.sticky r then
    map (fun v =>
           match v with
           | JS.VRegExp q =>
               if (JS.identity q =? JS.identity r)%nat
               then JS.VRegExp (JS.set_lastIndex q (JS.lastIndex r'))
               else v
           | other => other
           end)
        items
  else items.

(** The loop of [#notExcludes] from index [idx] on (lines 80-84), with
    [steps] turns at most: the answer when the loop returns or throws,
    [Ok true] when it runs to its end, and the array after the calls of
    [test].  The item of a turn is read from the array as the turns before
    it left it. *)
Fixpoint testItems (posixPath : string) (steps idx : nat)
         (items : list JS.value) : result bool * list JS.value :=
  match steps with
  | O => (Ok true, items)
  | S steps' =>
      match nth_error items idx with
      | None => (Ok true, items)
      | Some it =>
          match it with
          | JS.VRegExp r =>
              let '(found, r') := JS.test r posixPath in
              let items' := tested r r' items in
              if found then (Ok false, items')
              else testItems posixPath steps' (S idx) items'
          | other => (Throw (BadItem idx (JS.typeof other)), items)
          end
      end
  end.

(** The object of a frame in the manifest (lines 98-103). *)
Definition frame_object (r : Rect) : json :=
  JObject [("x", JNumber (x r)); ("y", JNumber (y r));
           ("w", JNumber (width r)); ("h", JNumber (height r))].

(** The frame of [coordinates[filePath]]; a key of [coordinates] is never
    missing from it. *)
Definition frame (coords : list (string * Rect)) (filePath : string)
  : json :=
  match get_prop filePath coords with
  | Some r => frame_object r
  | None => JUndefined
  end.

(** What the end of write [id] does to one pending [Promise.all]: it is
    settled, and its [finally] runs, when the write was rejected or was the
    last it waited for ([None]); or it goes on waiting. *)
Definition settleOne (id : nat) (o : outcome) (waiting : list nat)
  : option (list nat) :=
  if existsb (Nat.eqb id) waiting then
    match o with
    | Rejected => None
    | Fulfilled =>
        match filter (fun w => negb (Nat.eqb id w)) waiting with
        | [] => None
        | still => Some still
        end
    end
  else Some waiting.

(** The same over all the pending promises: those that go on, and the
    number of callbacks to run. *)
Fixpoint settleAll (id : nat) (o : outcome) (ps : list (list nat))
  : list (list nat) * nat :=
  match ps with
  | [] => ([], 0)
  | waiting :: ps' =>
      let '(rest, n) := settleAll id o ps' in
      match settleOne id o waiting with
      | None => (rest, S n)
      | Some still => (still :: rest, n)
      end
  end.

(** The world ends write [id] with outcome [o]: the pending promises it
    settles run their [finally].  A rejection that no handler takes is
    raised to the process as an unhandled rejection, which by default ends
    it: the rejection of a write whose promise was given to no
    [Promise.all], and the rejection of the promise that [finally] returns
    for a [Promise.all] that the write rejected. *)
Definition settle (id : nat) (o : outcome) : M state unit :=
  emit (Settled id o) ;;
  st <- get ;;
  let '(rest, n) := settleAll id o (pending st) in
  modify (set_pending rest) ;;
  forEachM (fun _ => emit Callback) (seq 0 n) ;;
  match o with
  | Fulfilled => ret tt
  | Rejected =>
      if negb (existsb (Nat.eqb id) (handled st)) || (0 <? n)%nat
      then throw (UnhandledRejection id)
      else ret tt
  end.

Section Methods.

(** The [path] module of the platform. *)
Variable path : Path.api.

(** [#createSpriteSheet]: the packer is called and the method returns;
    the function of lines 63-66 is what the packer calls later. *)
Definition createSpriteSheet (imagesData : list string)
           (callback : PackResult -> M state unit)
  : M state (list (call state (list string))) :=
  emit (Packed imagesData) ;;
  ret [mkCall imagesData
         (fun answered =>
            match answered with
            | inl err => throw (PackerFailure err)
            | inr result => callback result
            end)].

(** [#convert2Posix]. *)
Definition convert2Posix (v : string) : string :=
  if negb (v =? "") then JS.join "/" (JS.split (Path.api_sep path) v)
  else "".

(** [#notExcludes]. *)
Definition notExcludes (filePath : string) : M state bool :=
  st <- get ;;
  if negb (JS.truthy (_excludes st)) then ret true
  else
    match _excludes st with
    | JS.VRegExp r =>
        let posixPath := convert2Posix filePath in
        let '(found, r') := JS.test r posixPath in
        modify (set_excludes (JS.VRegExp r')) ;;
        ret (negb found)
    | JS.VArray items =>
        let posixPath := convert2Posix filePath in
        let '(answer, items') :=
          testItems posixPath (List.length items) 0 items in
        modify (set_excludes (JS.VArray items')) ;;
        match answer with
        | Ok b => ret b
        | Throw e => throw e
        end
    | other => throw (BadRules "excludes" (JS.typeof other))
    end.

(** The name of a frame (line 97). *)
Definition fileName (filePath : string) : string :=
  JS.pop (JS.split (Path.api_sep path) (Path.api_dirname path filePath))
  +++ "_" +++ Path.api_basename path filePath.

(** The manifest generated from the coordinates of a pack result (lines
    95-104). *)
Definition metadata (coords : list (string * Rect)) : json :=
  JObject
    (fold_left
       (fun metadata filePath =>
          set_prop (fileName filePath) (frame coords filePath) metadata)
       (keys coords) []).

(** [writeFile]: the write starts, and its promise is known by its
    number. *)
Definition writeFile (file : string) (d : data) : M state nat :=
  st <- get ;;
  let id := writes st in
  modify (set_writes (S id)) ;;
  emit (WriteFile id file d) ;;
  ret id.

(** [Promise.all(promises).finally(callback)]. *)
Definition allFinally (promises : list nat) : M state unit :=
  modify (fun st =>
    set_handled (handled st ++ promises)
      (set_pending (pending st ++ [promises]) st)).

(** [#generateSpriteSheet]; [callback] tells whether one is given.  It
    returns the call of the packer it made, whose answer runs lines
    95-113. *)
Definition generateSpriteSheet (sources : list string) (callback : bool)
  : M state (list (call state (list string))) :=
  createSpriteSheet sources (fun res =>
    let metadata := metadata (coordinates res) in
    st <- get ;;
    if callback then
      m <- writeFile (manifestPath st) (Utf8 metadata) ;;
      i <- writeFile (spriteImagePath st) (Binary (image res)) ;;
      allFinally [m; i]
    else
      writeFile (manifestPath st) (Utf8 metadata) ;;
      writeFile (spriteImagePath st) (Binary (image res)) ;;
      ret tt).

(** The images picked among some files (lines 121 and 143). *)
Definition sourceImages (files : list string) : M state (list string) :=
  filterM (fun p => kept <- notExcludes p ;; ret (kept && isPng p)) files.

(** [Array.prototype.flatMap] with [sourceImages]. *)
Fixpoint flatSourceImages (folders : list (list string))
  : M state (list string) :=
  match folders with
  | [] => ret []
  | v :: folders' =>
      here <- sourceImages v ;;
      there <- flatSourceImages folders' ;;
      ret (here ++ there)
  end.

(** [#spriteProcess]; a watcher is given by what its [watched()] returns,
    the files by folder.  It returns the calls of the packer it made. *)
Definition spriteProcess (watcher : option (list (string * list string)))
  : M state (list (call state (list string))) :=
  match watcher with
  | None => throw WatcherNotInitialed
  | Some sourceImagesByFolder =>
      allSourceImages <- flatSourceImages (map snd sourceImagesByFolder) ;;
      if (0 <? List.length allSourceImages)%nat
      then generateSpriteSheet allSourceImages false
      else ret []
  end.

(** [#pathEqual]. *)
Definition pathEqual (path1 path2 : string) : bool :=
  Path.api_relative path path1 path2 =? "".

(** The handler tapped on [beforeRun] in production mode (lines 140-145);
    [scanned] is what the scanner returns for the entry.  It returns the
    calls of the packer it made. *)
Definition beforeRun (cwd : string) (scanned : list string)
  : M state (list (call state (list string))) :=
  allSourceImages <-
    sourceImages (map (fun v => Path.api_join path cwd v) scanned) ;;
  if (0 <? List.length allSourceImages)%nat
  then generateSpriteSheet allSourceImages true
  else ret [].

(** The condition of the handler of the watcher's events (lines 151-157). *)
Definition shouldProcess (event filePath : string) : M state bool :=
  if negb (event =? "renamed") then
    kept <- notExcludes filePath ;;
    st <- get ;;
    ret (kept
         && negb (pathEqual filePath (spriteImagePath st))
         && negb (pathEqual filePath (manifestPath st))
         && isPng filePath)
  else ret false.

(** The handler of the watcher's events (lines 150-160).  It returns the
    calls of the packer it made. *)
Definition onAll (gazeIns : option (list (string * list string)))
           (event filePath : string)
  : M state (list (call state (list string))) :=
  go <- shouldProcess event filePath ;;
  if go then spriteProcess gazeIns else ret [].

End Methods.

End Plugin.

(** ** Notions the statements use *)

(** Every occurrence of a character replaced by another. *)
Fixpoint replaceAll (from to : ascii) (s : string) : string :=
  match s with
  | EmptyString => EmptyString
  | String c s' =>
      String (if Ascii.eqb c from then to else c) (replaceAll from to s')
  end.

(** [it instanceof RegExp]. *)
Definition isRegExp (v : JS.value) : bool :=
  match v with
  | JS.VRegExp _ => true
  | _ => false
  end.

(** A pattern with neither the global nor the sticky flag, and rules whose
    patterns are all so. *)
Definition flagless (r : JS.RegExp) : bool :=
  negb (JS.global r || JS.sticky r).

Definition flaglessItem (v : JS.value) : bool :=
  match v with
  | JS.VRegExp r => flagless r
  | _ => true
  end.

Definition flaglessRules (v : JS.value) : bool :=
  match v with
  | JS.VArray items => forallb flaglessItem items
  | other => flaglessItem other
  end.

(** Whether a pattern, as it stands, says yes to a text. *)
Definition matches (r : JS.RegExp) (text : string) : bool :=
  fst (JS.test r text).

Definition itemMatches (text : string) (v : JS.value) : bool :=
  match v with
  | JS.VRegExp r => matches r text
  | _ => false
  end.

(** What a loop over some items answers when each item is tested as it
    stands: false at the first pattern that matches, a failure at the first
    item that is no pattern, true at the end; [idx] is the index of the
    first of the items. *)
Fixpoint firstAnswer (text : string) (idx : nat) (items : list JS.value)
  : result bool :=
  match items with
  | [] => Ok true
  | JS.VRegExp r :: rest =>
      if matches r text then Ok false else firstAnswer text (S idx) rest
  | other :: _ => Throw (BadItem idx (JS.typeof other))
  end.

(** A list in which no global or sticky pattern is seen twice: an item
    that is such a pattern is the same object as no other item. *)
Definition apart (items : list JS.value) : Prop :=
  forall i j r q,
    i <> j ->
    nth_error items i = Some (JS.VRegExp r) ->
    nth_error items j = Some (JS.VRegExp q) ->
    flagless r = false ->
    JS.identity q <> JS.identity r.

(** The assets with the listed files deleted. *)
Definition deleteAll (files : list string) (a : list (string * string))
  : list (string * string) :=
  fold_left (fun a file => filter (fun kv => negb (fst kv =? file)) a)
            files a.

(** Membership in a list of names. *)
Definition mem (file : string) (files : list string) : bool :=
  existsb (String.eqb file) files.

(** The metadata given to the calls of [writeFileSync] in a log of the
    in-pipeline plugin, and the number of the calls of the packer and of the
    callback in it. *)
Definition metadataWrites (l : list Index.event) : list json :=
  flat_map (fun e => match e with
                     | Index.WriteFileSync _ data => [data]
                     | _ => []
                     end) l.

Definition packerCalls (l : list Index.event) : nat :=
  List.length (filter (fun e => match e with
                                | Index.Packed _ => true
                                | _ => false
                                end) l).

Definition callbacks (l : list Index.event) : nat :=
  List.length (filter (fun e => match e with
                                | Index.Callback => true
                                | _ => false
                                end) l).

(** How lines 106-109 end, for the metadata held and the metadata of the
    pack: the write is not tried when the differ finds them equal, and
    throws what the file system makes it throw when it is tried. *)
Definition writeOutcome (writeFileSync : string -> json -> option string)
           (coordinatePath : string) (held meta : json) : result unit :=
  if isEqual held meta then Ok tt
  else
    match writeFileSync coordinatePath meta with
    | Some err => Throw (WriteFailure err)
    | None => Ok tt
    end.

(** A pack attempt of the in-pipeline plugin that finds images and whose
    packer succeeds with [res]. *)
Definition packs (path : Path.api)
           (spritesmith : list Index.Vinyl -> string + PackResult)
           (st : Index.state) (images : list string) (res : PackResult)
  : Prop :=
  exists st1,
    Index.imagesPath st = (Ok images, st1) /\
    images <> [] /\
    spritesmith (Index.imagesData path st1 images) = inr res.

(** The manifests whose write the standalone plugin started, in a log. *)
Definition manifestWrites (l : list Plugin.event) : list json :=
  flat_map (fun e => match e with
                     | Plugin.WriteFile _ _ (Plugin.Utf8 data) => [data]
                     | _ => []
                     end) l.

Definition pluginCallbacks (l : list Plugin.event) : nat :=
  List.length (filter (fun e => match e with
                                | Plugin.Callback => true
                                | _ => false
                                end) l).

(** Two states of the in-pipeline plugin that differ in the rules at
    most (a pattern of the rules may have moved its [lastIndex]). *)
Definition sameButIncludes (s s' : Index.state) : Prop :=
  Index._outputDir s' = Index._outputDir s /\
  Index._coordinateMeta s' = Index._coordinateMeta s /\
  Index.assets s' = Index.assets s /\
  Index.log s' = Index.log s.

(** Two states of the standalone plugin that differ in the rules at
    most. *)
Definition sameButExcludes (s s' : Plugin.state) : Prop :=
  Plugin._outputDir s' = Plugin._outputDir s /\
  Plugin._entryPath s' = Plugin._entryPath s /\
  Plugin.spriteImagePath s' = Plugin.spriteImagePath s /\
  Plugin.manifestPath s' = Plugin.manifestPath s /\
  Plugin.writes s' = Plugin.writes s /\
  Plugin.pending s' = Plugin.pending s /\
  Plugin.handled s' = Plugin.handled s /\
  Plugin.log s' = Plugin.log s.

(** ** Inputs the examples run on *)

(** The POSIX flavour of [path], in the working directory /w. *)
Definition exPath : Path.api := Path.posix_api "/w".

(** The same on a platform whose separator is the backslash. *)
Definition exBackslashPath : Path.api := Path.with_sep Path.backslash exPath.

(** Scenario 1 of the specification: two icons on a sheet of 18 by 10. *)
Definition exCoordinates : list (string * Rect) :=
  [("icons/a.png", mkRect 0 0 10 10); ("icons/b.png", mkRect 10 0 8 8)].

Definition exResult : PackResult :=
  {| coordinates := exCoordinates;
     properties_width := 18; properties_height := 10;
     image := "SHEET" |}.

Definition exPacker (sources : list string) : string + PackResult :=
  inr exResult.

Definition exIndexPacker (src : list Index.Vinyl) : string + PackResult :=
  inr exResult.

(** A file system that takes every write, and one that takes none. *)
Definition exDisk (file : string) (data : json) : option string := None.

Definition exReadOnlyDisk (file : string) (data : json) : option string :=
  Some "EROFS".

(** The metadata scenario 1 expects under the parent-qualified strategy. *)
Definition exExpectedMetadata : json :=
  JObject
    [("width", JNumber 18); ("height", JNumber 10);
     ("frames",
      JObject
        [("icons_a.png",
          JObject [("x", JNumber 0); ("y", JNumber 0);
                   ("w", JNumber 10); ("h", JNumber 10)]);
         ("icons_b.png",
          JObject [("x", JNumber 10); ("y", JNumber 0);
                   ("w", JNumber 8); ("h", JNumber 8)])])].

(** A standalone plugin just constructed, with the given rules. *)
Definition exPlugin (excludes : JS.value) : Plugin.state :=
  Plugin.init exPath "/w/out" excludes (Some (inl "src")).

(** What the watcher watches: two icons in one folder. *)
Definition exWatched : option (list (string * list string)) :=
  Some [("/w/src/icons/", ["/w/src/icons/a.png"; "/w/src/icons/b.png"])].

(** Scenario 2 of the specification: three images among the assets of a
    compilation, and an asset that is no image. *)
Definition exAssets : list (string * string) :=
  [("x.png", "X"); ("main.js", "JS"); ("y.png", "Y"); ("z.png", "Z")].

(** An in-pipeline plugin just constructed, at the start of a compilation
    with the given assets. *)
Definition exIndex (includes : JS.value) (a : list (string * string))
  : Index.state :=
  Index.init includes "/w/dist" a.

(** ** Notions the further properties use *)

(** [Array.isArray]. *)
Definition isArray (v : JS.value) : bool :=
  match v with
  | JS.VArray _ => true
  | _ => false
  end.

(** Rules that are there and are neither a pattern nor an array. *)
Definition wrongShape (v : JS.value) : bool :=
  JS.truthy v && negb (isRegExp v) && negb (isArray v).

(** Rules that are absent, a pattern, or an array of patterns. *)
Definition validRules (v : JS.value) : bool :=
  match v with
  | JS.VArray items => forallb isRegExp items
  | other => negb (JS.truthy other) || isRegExp other
  end.

(** A text without a slash. *)
Definition slashFree (s : string) : bool :=
  forallb (fun c => negb (Ascii.eqb c Path.slash)) (list_ascii_of_string s).

(** Whether the standalone filter lets a path through, from a given state
    of the plugin; a failure lets nothing through. *)
Definition passes (path : Path.api) (st : Plugin.state) (filePath : string)
  : bool :=
  match fst (Plugin.notExcludes path filePath st) with
  | Ok kept => kept
  | Throw _ => false
  end.

(** A packer that fails on whatever it is given. *)
Definition exFailingPacker (src : list Index.Vinyl) : string + PackResult :=
  inl "corrupt image".

(** Two images of the same base name in two folders. *)
Definition exCollision : PackResult :=
  {| coordinates :=
       [("one/x.png", mkRect 0 0 4 4); ("two/x.png", mkRect 4 0 2 2)];
     properties_width := 6; properties_height := 4;
     image := "SHEET" |}.

(* ================================================================== *)
(** * Part II: properties *)
(* ================================================================== *)

Example path_examples :
  Path.dirname "icons/a.png" = "icons" /\
  Path.basename "icons/a.png" = "a.png" /\
  Path.dirname "a.png" = "." /\
  Path.dirname "/a.png" = "/" /\
  Path.basename "/x/y//" = "y" /\
  Path.join "/out" "img/../a.png" = "/out/a.png" /\
  Path.resolve "/w" "./dist/sprite.png" = "/w/dist/sprite.png" /\
  Path.relative "/w" "/w/a/b" "/w/a/c/d" = "../c/d" /\
  JS.split Path.slash "/" = [""; ""] /\
  fst (JS.test (JS.regexp "a/b") "xa/b") = true.
Proof. repeat split; reflexivity. Qed.

(** ** The monad *)

Lemma bind_Ok {S A B} (m : M S A) (k : A -> M S B) s a s' :
  m s = (Ok a, s') -> bind m k s = k a s'.
Proof. intros E. unfold bind. now rewrite E. Qed.

Lemma bind_Throw {S A B} (m : M S A) (k : A -> M S B) s e s' :
  m s = (Throw e, s') -> bind m k s = (Throw e, s').
Proof. intros E. unfold bind. now rewrite E. Qed.

(** What [filterM] keeps is part of the list, without repetition if the
    list has none. *)
Lemma filterM_kept {S A} (p : A -> M S bool) (l : list A) :
  forall s kept s',
    filterM p l s = (Ok kept, s') ->
    incl kept l /\ (NoDup l -> NoDup kept).
Proof.
  induction l as [|a l IH]; simpl; intros s kept s' E.
  - inversion E; subst. split; [apply incl_refl | auto].
  - unfold bind in E.
    destruct (p a s) as [[keep|e] s1]; [|discriminate].
    destruct (filterM p l s1) as [[kept'|e] s2] eqn:F; [|discriminate].
    unfold ret in E. inversion E; subst; clear E.
    destruct (IH _ _ _ F) as [Hin Hnd].
    destruct keep.
    + split.
      * intros z [<-|Hz]; [now left | right; auto].
      * intros N. inversion N; subst. constructor; auto.
    + split; [intros z Hz; right; auto|].
      intros N. inversion N; subst. auto.
Qed.

(** A relation between states that every call of the predicate respects is
    respected by [filterM]. *)
Lemma filterM_rel {S A} (R : S -> S -> Prop) (p : A -> M S bool) :
  (forall s, R s s) ->
  (forall s1 s2 s3, R s1 s2 -> R s2 s3 -> R s1 s3) ->
  (forall a s, R s (snd (p a s))) ->
  forall l s, R s (snd (filterM p l s)).
Proof.
  intros Hrefl Htrans Hp.
  induction l as [|a l IH]; simpl; intros s; [apply Hrefl|].
  unfold bind. specialize (Hp a s).
  destruct (p a s) as [[keep|e] s1]; simpl in *; [|exact Hp].
  specialize (IH s1).
  destruct (filterM p l s1) as [[kept|e] s2]; simpl in *;
    eapply Htrans; eauto.
Qed.

(** ** Objects *)

(** Induction over the values, with the properties of an object at hand. *)
Lemma json_induction (P : json -> Prop) :
  P JUndefined -> P JNull -> (forall n, P (JNumber n)) ->
  (forall s, P (JString s)) ->
  (forall ps, Forall (fun kv => P (snd kv)) ps -> P (JObject ps)) ->
  forall a, P a.
Proof.
  intros Hu Hn Hnum Hstr Hobj.
  fix IH 1.
  intros [ | | n | s | ps];
    [exact Hu | exact Hn | apply Hnum | apply Hstr | ].
  apply Hobj.
  revert ps.
  fix IHps 1.
  intros [|[k v] ps]; constructor.
  - apply IH.
  - apply IHps.
Qed.

Lemma isEqual_object ps qs :
  isEqual (JObject ps) (JObject qs) =
  (List.length ps =? List.length qs)%nat &&
  forallb (fun kv => match get_prop (fst kv) qs with
                     | Some w => isEqual (snd kv) w
                     | None => false
                     end) ps.
Proof.
  simpl. f_equal.
  induction ps as [|[k v] ps IH]; simpl; [reflexivity|].
  now rewrite IH.
Qed.

Lemma cloneDeep_object ps :
  cloneDeep (JObject ps) =
  JObject (map (fun kv => (fst kv, cloneDeep (snd kv))) ps).
Proof.
  simpl. f_equal.
  induction ps as [|[k v] ps IH]; simpl; [reflexivity|].
  now rewrite IH.
Qed.

Lemma wf_object ps :
  wf (JObject ps) <-> NoDup (keys ps) /\ Forall (fun kv => wf (snd kv)) ps.
Proof.
  simpl.
  assert (E : (fix each (ps : list (string * json)) : Prop :=
                 match ps with
                 | [] => True
                 | (_, v) :: ps' => wf v /\ each ps'
                 end) ps <-> Forall (fun kv => wf (snd kv)) ps).
  { induction ps as [|[k v] ps IH]; simpl.
    - split; auto.
    - split.
      + intros [Hv Hps]. constructor; [exact Hv | now apply IH].
      + intros F. inversion F; subst. split; [assumption | now apply IH]. }
  tauto.
Qed.

(** The copy is the value itself: it shares nothing, and differs in
    nothing. *)
Lemma cloneDeep_same : forall a, cloneDeep a = a.
Proof.
  induction a as [ | | n | s | ps IH] using json_induction;
    try reflexivity.
  rewrite cloneDeep_object. f_equal.
  induction IH as [|[k v] ps Hv _ IHps]; simpl; [reflexivity|].
  simpl in Hv. now rewrite Hv, IHps.
Qed.

Lemma get_prop_In {A} key (props : list (string * A)) v :
  get_prop key props = Some v -> In (key, v) props.
Proof.
  induction props as [|[k w] props IH]; simpl; [discriminate|].
  destruct (String.eqb_spec k key) as [->|N].
  - intros E. inversion E. now left.
  - intros E. right. auto.
Qed.

Lemma get_prop_NoDup {A} key (props : list (string * A)) v :
  NoDup (keys props) -> In (key, v) props -> get_prop key props = Some v.
Proof.
  induction props as [|[k w] props IH]; simpl; [contradiction|].
  intros N [E|Hin]; inversion N; subst.
  - inversion E; subst. now rewrite String.eqb_refl.
  - destruct (String.eqb_spec k key) as [->|_]; [|auto].
    exfalso. apply H1. unfold keys. apply (in_map fst _ _ Hin).
Qed.

Lemma get_prop_key {A} key (props : list (string * A)) :
  In key (keys props) <-> get_prop key props <> None.
Proof.
  induction props as [|[k w] props IH]; simpl.
  - split; [contradiction | congruence].
  - destruct (String.eqb_spec k key) as [->|N].
    + split; [congruence | now left].
    + split.
      * intros [E|Hin]; [contradiction | now apply IH].
      * intros G. right. now apply IH.
Qed.

(** The equality of the differ is reflexive on objects of the language. *)
Lemma isEqual_refl : forall a, wf a -> isEqual a a = true.
Proof.
  induction a as [ | | n | s | ps IH] using json_induction;
    intros W; try reflexivity.
  - apply Z.eqb_refl.
  - apply String.eqb_refl.
  - rewrite isEqual_object, Nat.eqb_refl. simpl.
    apply wf_object in W. destruct W as [N W].
    apply forallb_forall. intros [k v] Hin. simpl.
    rewrite (get_prop_NoDup _ _ _ N Hin).
    rewrite Forall_forall in IH, W.
    apply (IH _ Hin), (W _ Hin).
Qed.

(** It is transitive. *)
Lemma isEqual_trans :
  forall a b c, isEqual a b = true -> isEqual b c = true ->
                isEqual a c = true.
Proof.
  induction a as [ | | n | s | ps IH] using json_induction;
    intros [ | | m | t | qs] [ | | l | u | rs]; try discriminate; auto.
  - simpl. rewrite !Z.eqb_eq. congruence.
  - simpl. rewrite !String.eqb_eq. congruence.
  - rewrite !isEqual_object, !andb_true_iff, !Nat.eqb_eq, !forallb_forall.
    intros [L1 F1] [L2 F2]. split; [congruence|].
    intros [k v] Hin. simpl.
    specialize (F1 _ Hin). simpl in F1.
    destruct (get_prop k qs) as [w|] eqn:G; [|discriminate].
    specialize (F2 _ (get_prop_In _ _ _ G)). simpl in F2.
    destruct (get_prop k rs) as [z|]; [|discriminate].
    rewrite Forall_forall in IH.
    apply (IH _ Hin w z); assumption.
Qed.

(** ** The in-pipeline plugin *)

Lemma inWhiteList_frame filePath s :
  sameButIncludes s (snd (Index.inWhiteList filePath s)).
Proof.
  unfold Index.inWhiteList, bind, get, ret, modify, throw, sameButIncludes.
  destruct (JS.truthy (Index._includes s)); simpl; [|tauto].
  destruct (Index._includes s); simpl; try tauto.
  destruct (JS.test r filePath); simpl. tauto.
Qed.

Lemma imagesPath_frame s :
  sameButIncludes s (snd (Index.imagesPath s)).
Proof.
  unfold Index.imagesPath, bind, get.
  apply (filterM_rel sameButIncludes).
  - unfold sameButIncludes; tauto.
  - unfold sameButIncludes. intros s1 s2 s3 (A & B & C & D) (A' & B' & C' & D').
    repeat split; congruence.
  - intros a s0. unfold bind.
    pose proof (inWhiteList_frame a s0) as F.
    destruct (Index.inWhiteList a s0) as [[b|e] s1]; exact F.
Qed.

Lemma imagesPath_kept s images s1 :
  Index.imagesPath s = (Ok images, s1) ->
  incl images (keys (Index.assets s)) /\
  (NoDup (keys (Index.assets s)) -> NoDup images).
Proof.
  unfold Index.imagesPath, bind, get. apply filterM_kept.
Qed.

Lemma forEach_delete rest :
  forall k st,
    0 < k ->
    forEachM (fun ip : nat * string =>
                if (0 <? fst ip)%nat then Index.deleteAsset (snd ip)
                else ret tt)
             (combine (seq k (List.length rest)) rest) st =
    (Ok tt, Index.set_assets (deleteAll rest (Index.assets st)) st).
Proof.
  induction rest as [|p rest IH]; intros k st Hk.
  - destruct st; reflexivity.
  - simpl. unfold bind.
    destruct (Nat.ltb_spec 0 k) as [_|]; [|lia].
    unfold Index.deleteAsset, modify at 1.
    rewrite IH by lia. destruct st; reflexivity.
Qed.

Lemma forEach_indexed first rest st :
  forEachM (fun ip : nat * string =>
              if (0 <? fst ip)%nat then Index.deleteAsset (snd ip)
              else ret tt)
           (Index.indexed (first :: rest)) st =
  (Ok tt, Index.set_assets (deleteAll rest (Index.assets st)) st).
Proof.
  unfold Index.indexed. simpl. unfold bind, ret.
  apply forEach_delete. lia.
Qed.

Lemma updateAsset_run file src old st :
  get_prop file (Index.assets st) = Some old ->
  Index.updateAsset file src st =
  (Ok tt,
   Index.set_assets (Index.replace file src (Index.assets st)) st).
Proof.
  intros G. unfold Index.updateAsset, bind, get. now rewrite G.
Qed.

Lemma isPrevMetadata_run newSource st :
  Index.isPrevMetadata newSource st =
  (Ok (isEqual (Index._coordinateMeta st) newSource),
   if isEqual (Index._coordinateMeta st) newSource then st
   else Index.set_coordinateMeta (cloneDeep newSource) st).
Proof.
  unfold Index.isPrevMetadata, bind, get, ret, modify.
  now destruct (isEqual (Index._coordinateMeta st) newSource).
Qed.

Ltac step E := erewrite bind_Ok by (apply E); cbv beta.

Lemma writeCoordinates_run coordinatePath writeFileSync meta st :
  Index.writeCoordinates coordinatePath writeFileSync meta st =
  (match writeFileSync coordinatePath meta with
   | Some err => Throw (WriteFailure err)
   | None => Ok tt
   end,
   snd (Index.emit (Index.WriteFileSync coordinatePath meta) st)).
Proof.
  unfold Index.writeCoordinates, bind, Index.emit, modify, throw, ret.
  cbn [snd]. now destruct (writeFileSync coordinatePath meta).
Qed.

(** What the handler does when it finds images: it calls the packer and
    returns, and nothing else has happened.  The function the packer calls
    later throws the error of the packer; given a result, from the state
    the plugin and the compilation are in by then, it puts the sheet at the
    first image, deletes the other images, keeps the metadata and writes it
    when it differs from the metadata held, and calls the host back if the
    write did not throw. *)
Lemma processAssets_calls path coordinatePath writeFileSync st first rest st1 :
  Index.imagesPath st = (Ok (first :: rest), st1) ->
  exists c,
    Index.processAssets path coordinatePath writeFileSync st =
    (Ok [c],
     snd (Index.emit
            (Index.Packed (Index.imagesData path st1 (first :: rest))) st1)) /\
    call_src c = Index.imagesData path st1 (first :: rest) /\
    (forall err s, call_back c (inl err) s = (Throw (PackerFailure err), s)) /\
    (forall res s old,
        get_prop first (Index.assets s) = Some old ->
        let meta := Index.coordinateMeta path res in
        let same := isEqual (Index._coordinateMeta s) meta in
        let outcome :=
          writeOutcome writeFileSync coordinatePath
                       (Index._coordinateMeta s) meta in
        call_back c (inr res) s =
        (outcome,
         {| Index._includes := Index._includes s;
            Index._outputDir := Index._outputDir s;
            Index._coordinateMeta :=
              if same then Index._coordinateMeta s else cloneDeep meta;
            Index.assets :=
              deleteAll rest
                (Index.replace first (image res) (Index.assets s));
            Index.log :=
              Index.log s
              ++ (if same then []
                  else [Index.WriteFileSync coordinatePath meta])
              ++ (match outcome with
                  | Ok _ => [Index.Callback]
                  | Throw _ => []
                  end) |})).
Proof.
  intros Himg. eexists. split; [|split; [|split]].
  - unfold Index.processAssets.
    step Himg. erewrite (bind_Ok get) by reflexivity. cbv beta.
    change (0 <? List.length (first :: rest))%nat with true. cbv iota.
    unfold Index.createSpriteSheet.
    erewrite (bind_Ok (Index.emit _)) by reflexivity. reflexivity.
  - reflexivity.
  - reflexivity.
  - intros res s old G meta same outcome. cbn [call_back nth].
    erewrite bind_Ok by (apply (updateAsset_run _ _ old); exact G).
    cbv beta.
    erewrite bind_Ok by apply forEach_indexed. cbv beta.
    erewrite bind_Ok by apply isPrevMetadata_run. cbv beta.
    cbn [Index._coordinateMeta Index.set_assets].
    subst outcome. unfold writeOutcome. fold meta. fold same.
    destruct same; cbn [negb].
    + unfold Index.emit, bind, ret, modify. cbn. reflexivity.
    + unfold bind. rewrite writeCoordinates_run.
      destruct (writeFileSync coordinatePath meta) as [err|];
        unfold Index.emit, modify; cbn; rewrite <- ?app_assoc;
        reflexivity.
Qed.

(** What a pack attempt that finds images and whose packer succeeds does to
    the state: the sheet is put at the first image, the other images are
    deleted, the metadata is kept and written when it differs from the
    metadata held, and the host is called back if the write did not
    throw. *)
Lemma processAssets_packs
      path spritesmith coordinatePath writeFileSync st images res :
  packs path spritesmith st images res ->
  exists first rest st1,
    images = first :: rest /\
    Index.imagesPath st = (Ok images, st1) /\
    let meta := Index.coordinateMeta path res in
    let same := isEqual (Index._coordinateMeta st) meta in
    let outcome :=
      writeOutcome writeFileSync coordinatePath
                   (Index._coordinateMeta st) meta in
    attempt spritesmith
      (Index.processAssets path coordinatePath writeFileSync) st =
    (outcome,
     {| Index._includes := Index._includes st1;
        Index._outputDir := Index._outputDir st;
        Index._coordinateMeta :=
          if same then Index._coordinateMeta st else cloneDeep meta;
        Index.assets :=
          deleteAll rest
            (Index.replace first (image res) (Index.assets st));
        Index.log :=
          Index.log st
          ++ [Index.Packed (Index.imagesData path st1 images)]
          ++ (if same then []
              else [Index.WriteFileSync coordinatePath meta])
          ++ (match outcome with
              | Ok _ => [Index.Callback]
              | Throw _ => []
              end) |}).
Proof.
  intros (st1 & Himg & Hne & Hpack).
  destruct images as [|first rest]; [congruence|].
  exists first, rest, st1. split; [reflexivity|]. split; [exact Himg|].
  intros meta same outcome.
  pose proof (imagesPath_frame st) as F. rewrite Himg in F. simpl in F.
  destruct F as (Fo & Fm & Fa & Fl).
  destruct (imagesPath_kept _ _ _ Himg) as [Hin _].
  destruct (get_prop first (Index.assets st1)) as [old|] eqn:G.
  2:{ exfalso. revert G. apply get_prop_key. rewrite Fa. apply Hin.
      now left. }
  destruct (processAssets_calls path coordinatePath writeFileSync
                                _ _ _ _ Himg)
    as (c & Hrun & Hsrc & _ & Hback).
  unfold attempt. step Hrun.
  unfold answer. cbn [forEachM]. rewrite Hsrc, Hpack.
  unfold bind at 1.
  rewrite (Hback res _ old) by exact G.
  cbn [Index.emit modify snd Index._coordinateMeta Index._includes
       Index._outputDir Index.assets Index.log].
  rewrite Fm, Fo, Fa, Fl. fold meta. fold same. fold outcome.
  destruct outcome as [[]|e]; unfold ret; rewrite <- ?app_assoc;
    reflexivity.
Qed.

Lemma processAssets_no_images path coordinatePath writeFileSync st st1 :
  Index.imagesPath st = (Ok [], st1) ->
  Index.processAssets path coordinatePath writeFileSync st =
  (Ok [], snd (Index.emit Index.Callback st1)).
Proof.
  intros Himg. unfold Index.processAssets.
  step Himg. erewrite (bind_Ok get) by reflexivity. reflexivity.
Qed.

Lemma attempt_none {S A} (spritesmith : A -> string + PackResult)
      (handler : M S (list (call S A))) s s' :
  handler s = (Ok [], s') -> attempt spritesmith handler s = (Ok tt, s').
Proof. intros E. unfold attempt. now rewrite (bind_Ok _ _ _ _ _ E). Qed.

Lemma attempt_throws {S A} (spritesmith : A -> string + PackResult)
      (handler : M S (list (call S A))) s e s' :
  handler s = (Throw e, s') ->
  attempt spritesmith handler s = (Throw e, s').
Proof. intros E. unfold attempt. now apply bind_Throw. Qed.

(** With no image among the assets the in-pipeline plugin calls the host
    back and does nothing else. *)
Lemma processAssets_no_images_log path coordinatePath writeFileSync st st1 :
  Index.imagesPath st = (Ok [], st1) ->
  let run := Index.processAssets path coordinatePath writeFileSync st in
  fst run = Ok [] /\
  Index.log (snd run) = Index.log st ++ [Index.Callback] /\
  Index.assets (snd run) = Index.assets st /\
  Index._coordinateMeta (snd run) = Index._coordinateMeta st.
Proof.
  intros Himg run. subst run.
  rewrite (processAssets_no_images _ _ _ _ _ Himg).
  pose proof (imagesPath_frame st) as F. rewrite Himg in F.
  destruct F as (Fo & Fm & Fa & Fl). simpl in *.
  rewrite Fl, Fa, Fm. auto.
Qed.

Lemma metadataWrites_app l1 l2 :
  metadataWrites (l1 ++ l2) = metadataWrites l1 ++ metadataWrites l2.
Proof. apply flat_map_app. Qed.

(** C2, as amended.  In the in-pipeline plugin, a pack attempt that finds
    images and whose packer succeeds calls the write of the metadata exactly
    when the differ finds it different from the metadata held, and ends well
    unless that write throws; and whatever the assets of the next attempt,
    if its metadata is equal for the differ to the metadata of this one, the
    next attempt writes nothing. *)
Theorem metadata_written_iff_changed
        path spritesmith coordinatePath writeFileSync st images res :
  packs path spritesmith st images res ->
  let meta := Index.coordinateMeta path res in
  let run :=
    attempt spritesmith
      (Index.processAssets path coordinatePath writeFileSync) st in
  fst run =
  writeOutcome writeFileSync coordinatePath (Index._coordinateMeta st) meta /\
  (exists events,
      Index.log (snd run) = Index.log st ++ events /\
      metadataWrites events =
      if isEqual (Index._coordinateMeta st) meta then [] else [meta]) /\
  forall assets2 images2 res2,
    let st2 := Index.set_assets assets2 (snd run) in
    let run2 :=
      attempt spritesmith
        (Index.processAssets path coordinatePath writeFileSync) st2 in
    packs path spritesmith st2 images2 res2 ->
    isEqual meta (Index.coordinateMeta path res2) = true ->
    fst run2 = Ok tt /\
    exists events2,
      Index.log (snd run2) = Index.log st2 ++ events2 /\
      metadataWrites events2 = [].
Proof.
  intros P meta run.
  destruct (processAssets_packs _ _ coordinatePath writeFileSync _ _ _ P)
    as (first & rest & st1 & -> & Himg & E).
  cbv zeta in E. fold meta in E. subst run. rewrite E.
  cbn [fst snd Index.log].
  split; [reflexivity|]. split.
  - eexists. split; [reflexivity|].
    rewrite !metadataWrites_app.
    destruct (isEqual (Index._coordinateMeta st) meta);
      destruct (writeOutcome _ _ _ _); reflexivity.
  - intros assets2 images2 res2 P2 Heq.
    destruct (processAssets_packs _ _ coordinatePath writeFileSync _ _ _ P2)
      as (first2 & rest2 & st3 & -> & Himg2 & E2).
    cbv zeta in E2. rewrite E2.
    cbn [fst snd Index.log Index.set_assets Index._coordinateMeta].
    assert (Held : isEqual
                     (if isEqual (Index._coordinateMeta st) meta
                      then Index._coordinateMeta st else cloneDeep meta)
                     (Index.coordinateMeta path res2) = true).
    { destruct (isEqual (Index._coordinateMeta st) meta) eqn:Same.
      - eapply isEqual_trans; eassumption.
      - now rewrite cloneDeep_same. }
    unfold writeOutcome. rewrite !Held.
    split; [reflexivity|].
    eexists. split; [reflexivity|]. reflexivity.
Qed.

(** C7.  Spec-modelled equality and copy.  Two calls of the differ in a row
    with the same metadata: the second answers unchanged and leaves the
    state as the first left it, whatever the first answered; and when the
    first answered changed, it left a copy of the metadata in the state. *)
Theorem isPrevMetadata_twice meta st :
  wf meta ->
  let first := Index.isPrevMetadata meta st in
  let second := Index.isPrevMetadata meta (snd first) in
  fst second = Ok true /\
  snd second = snd first /\
  (fst first = Ok false ->
   Index._coordinateMeta (snd first) = cloneDeep meta).
Proof.
  intros W first second. subst first second.
  rewrite !isPrevMetadata_run.
  destruct (isEqual (Index._coordinateMeta st) meta) eqn:Same; simpl.
  - rewrite Same. simpl. repeat split. discriminate.
  - rewrite cloneDeep_same, (isEqual_refl _ W). simpl. auto.
Qed.

(** ** Reconciliation of the assets *)

Lemma keys_replace file src a :
  keys (Index.replace file src a) = keys a.
Proof.
  induction a as [|[k v] a IH]; simpl; [reflexivity|].
  destruct (k =? file); simpl; [reflexivity | now rewrite IH].
Qed.

Lemma get_prop_replace file src a other :
  get_prop other (Index.replace file src a) =
  if other =? file
  then match get_prop file a with
       | Some _ => Some src
       | None => None
       end
  else get_prop other a.
Proof.
  induction a as [|[k v] a IH]; simpl.
  - now destruct (other =? file).
  - destruct (k =? file) eqn:Kf; simpl.
    + apply String.eqb_eq in Kf. subst k.
      rewrite (String.eqb_sym file other).
      now destruct (other =? file).
    + rewrite IH.
      destruct (k =? other) eqn:Ko; [|reflexivity].
      apply String.eqb_eq in Ko. subst k. now rewrite Kf.
Qed.

Lemma get_prop_filter file (a : list (string * string)) other :
  get_prop other (filter (fun kv => negb (fst kv =? file)) a) =
  if other =? file then None else get_prop other a.
Proof.
  induction a as [|[k v] a IH]; simpl.
  - now destruct (other =? file).
  - destruct (k =? file) eqn:Kf; simpl.
    + apply String.eqb_eq in Kf. subst k.
      rewrite IH, (String.eqb_sym file other).
      now destruct (other =? file).
    + rewrite IH.
      destruct (k =? other) eqn:Ko; [|reflexivity].
      apply String.eqb_eq in Ko. subst k. now rewrite Kf.
Qed.

Lemma get_prop_deleteAll files :
  forall a other,
    get_prop other (deleteAll files a) =
    if mem other files then None else get_prop other a.
Proof.
  unfold deleteAll.
  induction files as [|file files IH]; intros a other; simpl;
    [reflexivity|].
  rewrite IH, get_prop_filter.
  destruct (other =? file); simpl; [|reflexivity].
  now destruct (mem other files).
Qed.

Lemma keys_deleteAll files :
  forall a,
    keys (deleteAll files a) =
    filter (fun file => negb (mem file files)) (keys a).
Proof.
  unfold deleteAll.
  induction files as [|file files IH]; intros a; simpl.
  - induction a as [|[k v] a IHa]; simpl; [reflexivity|].
    now rewrite <- IHa.
  - rewrite IH. clear IH.
    induction a as [|[k v] a IHa]; simpl; [reflexivity|].
    destruct (k =? file); simpl; [exact IHa|].
    destruct (mem k files); simpl; [exact IHa|].
    now rewrite IHa.
Qed.

Lemma mem_In file files : mem file files = true <-> In file files.
Proof.
  unfold mem. rewrite existsb_exists. split.
  - intros (z & Hz & E). apply String.eqb_eq in E. now subst.
  - intros H. exists file. split; [exact H | apply String.eqb_refl].
Qed.

Lemma mem_cons file z files :
  mem file (z :: files) = (file =? z) || mem file files.
Proof. reflexivity. Qed.

Lemma filter_only (file : string) (l : list string) :
  NoDup l -> In file l -> filter (fun z => z =? file) l = [file].
Proof.
  induction l as [|z l IH]; simpl; [contradiction|].
  intros N Hin. inversion N; subst.
  destruct (String.eqb_spec z file) as [->|Nz].
  - f_equal.
    clear IH N Hin H2.
    induction l as [|w l IHl]; simpl; [reflexivity|].
    destruct (String.eqb_spec w file) as [->|_].
    + exfalso. apply H1. now left.
    + apply IHl. intros H. apply H1. now right.
  - destruct Hin as [->|Hin]; [contradiction|]. now apply IH.
Qed.

(** C4.  In the in-pipeline plugin, after a pack attempt that found the
    images [first :: rest], in the order the assets list them, and whose
    packer succeeded: the asset of the first image holds the sheet, the
    assets of all the other images are gone, one name only of the images is
    left among the assets, and no other asset was touched; the attempt ends
    well unless the write of the metadata throws, which comes after and
    leaves the assets so. *)
Theorem reconciliation_leaves_one_slot
        path spritesmith coordinatePath writeFileSync st first rest res :
  NoDup (keys (Index.assets st)) ->
  packs path spritesmith st (first :: rest) res ->
  let run :=
    attempt spritesmith
      (Index.processAssets path coordinatePath writeFileSync) st in
  let after := Index.assets (snd run) in
  fst run =
  writeOutcome writeFileSync coordinatePath (Index._coordinateMeta st)
               (Index.coordinateMeta path res) /\
  get_prop first after = Some (image res) /\
  (forall other, In other rest -> get_prop other after = None) /\
  filter (fun file => mem file (first :: rest)) (keys after) = [first] /\
  (forall file,
      mem file (first :: rest) = false ->
      get_prop file after = get_prop file (Index.assets st)).
Proof.
  intros N P run after.
  destruct (processAssets_packs _ _ coordinatePath writeFileSync _ _ _ P)
    as (first' & rest' & st1 & Eimg & Himg & E).
  inversion Eimg; subst first' rest'; clear Eimg.
  cbv zeta in E. subst after run. rewrite E.
  cbn [fst snd Index.assets].
  destruct (imagesPath_kept _ _ _ Himg) as [Hin Hnd].
  specialize (Hnd N). inversion Hnd as [|? ? Hfirst Hrest]; subst.
  assert (Hkey : In first (keys (Index.assets st)))
    by (apply Hin; now left).
  assert (Hmem : mem first rest = false).
  { destruct (mem first rest) eqn:Mem; [|reflexivity].
    apply mem_In in Mem. contradiction. }
  split; [reflexivity|]. split; [|split; [|split]].
  - rewrite get_prop_deleteAll, Hmem, get_prop_replace, String.eqb_refl.
    apply get_prop_key in Hkey.
    destruct (get_prop first (Index.assets st)); congruence.
  - intros other Hother.
    rewrite get_prop_deleteAll.
    apply mem_In in Hother. now rewrite Hother.
  - rewrite keys_deleteAll, keys_replace.
    rewrite <- (filter_only first (keys (Index.assets st)) N Hkey).
    clear - Hmem.
    induction (keys (Index.assets st)) as [|z l IH]; [reflexivity|].
    cbn [filter].
    destruct (z =? first) eqn:Zf.
    + apply String.eqb_eq in Zf. subst z.
      rewrite Hmem. cbn [negb filter].
      rewrite mem_cons, String.eqb_refl. cbn [orb]. now rewrite IH.
    + destruct (mem z rest) eqn:Mz; cbn [negb]; [exact IH|].
      cbn [filter]. rewrite mem_cons, Zf, Mz. cbn [orb]. exact IH.
  - intros file Hfile.
    rewrite mem_cons in Hfile.
    apply orb_false_iff in Hfile. destruct Hfile as [Hf Hr].
    rewrite get_prop_deleteAll, Hr.
    now rewrite get_prop_replace, Hf.
Qed.

(** ** The filter of the standalone plugin *)

Lemma sameButExcludes_refl s : sameButExcludes s s.
Proof. unfold sameButExcludes. tauto. Qed.

Lemma sameButExcludes_trans s1 s2 s3 :
  sameButExcludes s1 s2 -> sameButExcludes s2 s3 -> sameButExcludes s1 s3.
Proof.
  unfold sameButExcludes.
  intros (A & B & C & D & E & F & G & H)
         (A' & B' & C' & D' & E' & F' & G' & H').
  repeat split; congruence.
Qed.

Lemma notExcludes_frame path filePath s :
  sameButExcludes s (snd (Plugin.notExcludes path filePath s)).
Proof.
  unfold Plugin.notExcludes, bind, get, ret, modify, throw.
  destruct (JS.truthy (Plugin._excludes s)); simpl;
    [|apply sameButExcludes_refl].
  destruct (Plugin._excludes s); simpl; try apply sameButExcludes_refl.
  - destruct (JS.test r _); simpl. unfold sameButExcludes; simpl; tauto.
  - destruct (Plugin.testItems _ _ 0 elems) as [[b|e] items']; simpl;
      unfold sameButExcludes; simpl; tauto.
Qed.

Lemma sourceImages_frame path files s :
  sameButExcludes s (snd (Plugin.sourceImages path files s)).
Proof.
  unfold Plugin.sourceImages.
  apply (filterM_rel sameButExcludes).
  - apply sameButExcludes_refl.
  - apply sameButExcludes_trans.
  - intros a s0. unfold bind.
    pose proof (notExcludes_frame path a s0) as F.
    destruct (Plugin.notExcludes path a s0) as [[b|e] s1]; exact F.
Qed.

(** C1, where the code departs from it.  In production mode, when the scan
    gives no image that passes the filter, the handler of the standalone
    plugin returns without an event: the packer is not called and nothing is
    written, but the callback of the host is not called either, and no
    promise is left that would call it; no call of the packer is left
    either, so that nothing comes after the handler. *)
Theorem beforeRun_no_images_never_calls_back path cwd scanned st st1 :
  Plugin.sourceImages path
    (map (fun v => Path.api_join path cwd v) scanned) st = (Ok [], st1) ->
  let run := Plugin.beforeRun path cwd scanned st in
  fst run = Ok [] /\
  Plugin.log (snd run) = Plugin.log st /\
  pluginCallbacks (Plugin.log (snd run)) = pluginCallbacks (Plugin.log st) /\
  Plugin.pending (snd run) = Plugin.pending st /\
  forall spritesmith,
    attempt spritesmith (Plugin.beforeRun path cwd scanned) st =
    (Ok tt, snd run).
Proof.
  intros Himg run.
  assert (E : Plugin.beforeRun path cwd scanned st = (Ok [], st1)).
  { unfold Plugin.beforeRun. now rewrite (bind_Ok _ _ _ _ _ Himg). }
  subst run. rewrite E. cbn [fst snd].
  pose proof (sourceImages_frame path
                (map (fun v => Path.api_join path cwd v) scanned) st) as F.
  rewrite Himg in F. destruct F as (_ & _ & _ & _ & _ & Fp & _ & Fl).
  cbn [snd] in *. rewrite Fl, Fp.
  split; [reflexivity|]. split; [reflexivity|]. split; [reflexivity|].
  split; [reflexivity|].
  intros spritesmith. now apply attempt_none.
Qed.

(** C10.  A renamed event, and an event whose path is path-equal to the
    sprite image path or to the manifest path, never passes the condition of
    the handler of the watcher; the handler then starts no pack: it makes
    no call of the packer, adds no event, starts no write and leaves no
    promise. *)
Theorem onAll_ignores_outputs_and_renames
        path gazeIns event filePath st :
  event = "renamed" \/
  Plugin.pathEqual path filePath (Plugin.spriteImagePath st) = true \/
  Plugin.pathEqual path filePath (Plugin.manifestPath st) = true ->
  fst (Plugin.shouldProcess path event filePath st) <> Ok true /\
  let run := Plugin.onAll path gazeIns event filePath st in
  (forall calls, fst run = Ok calls -> calls = []) /\
  Plugin.log (snd run) = Plugin.log st /\
  Plugin.writes (snd run) = Plugin.writes st /\
  Plugin.pending (snd run) = Plugin.pending st.
Proof.
  intros H.
  assert (Hsp : exists answer st',
             Plugin.shouldProcess path event filePath st = (answer, st') /\
             answer <> Ok true /\ sameButExcludes st st').
  { unfold Plugin.shouldProcess.
    destruct (event =? "renamed") eqn:Ev; cbn [negb].
    - exists (Ok false), st. split; [reflexivity|].
      split; [discriminate | apply sameButExcludes_refl].
    - unfold bind.
      pose proof (notExcludes_frame path filePath st) as F.
      destruct (Plugin.notExcludes path filePath st) as [[kept|e] st'];
        cbn [snd] in F.
      + unfold get, ret. eexists _, st'. split; [reflexivity|].
        split; [|exact F].
        destruct F as (_ & _ & Fs & Fm & _).
        rewrite Fs, Fm.
        destruct H as [H|[H|H]].
        * apply String.eqb_neq in Ev. contradiction.
        * rewrite H. rewrite andb_false_r. discriminate.
        * rewrite H. rewrite andb_false_r. discriminate.
      + exists (Throw e), st'. split; [reflexivity|].
        split; [discriminate | exact F]. }
  destruct Hsp as (answer & st' & E & Hno & F).
  rewrite E. split; [exact Hno|].
  unfold Plugin.onAll, bind. rewrite E.
  destruct F as (_ & _ & _ & _ & Fw & Fp & _ & Fl).
  destruct answer as [[|]|e]; cbn [fst snd]; unfold ret; cbn [fst snd];
    try contradiction;
    (split; [intros calls Hc; congruence | auto]).
Qed.

(** *** Rules given as a list *)

Lemma skipn_nth {A} (l : list A) :
  forall i a, nth_error l i = Some a -> skipn i l = a :: skipn (S i) l.
Proof.
  induction l as [|x l IH]; intros [|i] a H; try discriminate.
  - now inversion H.
  - cbn [skipn]. now apply IH.
Qed.

Lemma skipn_agree {A} (l : list A) :
  forall l' k,
    List.length l = List.length l' ->
    (forall j, k <= j -> nth_error l j = nth_error l' j) ->
    skipn k l = skipn k l'.
Proof.
  induction l as [|x l IH]; intros [|y l'] k L H; try discriminate.
  - reflexivity.
  - destruct k as [|k].
    + cbn [skipn].
      pose proof (H 0 (Nat.le_refl 0)) as H0. cbn in H0.
      injection H0 as ->. f_equal.
      apply (IH l' 0); [now inversion L|].
      intros j _. apply (H (S j)). lia.
    + cbn [skipn]. apply IH; [now inversion L|].
      intros j Hj. apply (H (S j)). lia.
Qed.

(** A call of [test] leaves the length of the array, the kind of every
    item, and the identity and the flags of every pattern. *)
Lemma tested_length r r' items :
  List.length (Plugin.tested r r' items) = List.length items.
Proof.
  unfold Plugin.tested. destruct (JS.global r || JS.sticky r);
    [apply length_map | reflexivity].
Qed.

Lemma tested_nth r r' items j :
  nth_error (Plugin.tested r r' items) j =
  match nth_error items j with
  | Some (JS.VRegExp q) =>
      Some (JS.VRegExp
              (if (JS.global r || JS.sticky r)
                  && (JS.identity q =? JS.identity r)%nat
               then JS.set_lastIndex q (JS.lastIndex r')
               else q))
  | other => other
  end.
Proof.
  unfold Plugin.tested.
  destruct (JS.global r || JS.sticky r); cbn [andb].
  - rewrite nth_error_map.
    destruct (nth_error items j) as [[ | | | | |q| | | ]|]; cbn;
      try reflexivity.
    now destruct (JS.identity q =? JS.identity r)%nat.
  - now destruct (nth_error items j) as [[ | | | | |q| | | ]|].
Qed.

(** In a list with no global or sticky pattern seen twice, a call of
    [test] on an item leaves the other items as they were. *)
Lemma tested_other r r' items i j :
  apart items ->
  nth_error items i = Some (JS.VRegExp r) ->
  j <> i ->
  nth_error (Plugin.tested r r' items) j = nth_error items j.
Proof.
  intros A Hi Hj. rewrite tested_nth.
  destruct (nth_error items j) as [[ | | | | |q| | | ]|] eqn:Ej;
    try reflexivity.
  destruct (JS.global r || JS.sticky r) eqn:Fr; cbn [andb];
    [|reflexivity].
  destruct (Nat.eqb_spec (JS.identity q) (JS.identity r)) as [Eid|];
    [|reflexivity].
  exfalso. apply (A i j r q); auto.
  unfold flagless. now rewrite Fr.
Qed.

Lemma tested_apart r r' items : apart items -> apart (Plugin.tested r r' items).
Proof.
  intros A i j p q Hij Hi Hj Fp.
  rewrite tested_nth in Hi, Hj.
  destruct (nth_error items i) as [[ | | | | |p0| | | ]|] eqn:Ei;
    try discriminate.
  destruct (nth_error items j) as [[ | | | | |q0| | | ]|] eqn:Ej;
    try discriminate.
  injection Hi as <-. injection Hj as <-.
  assert (Hp : JS.identity
                 (if (JS.global r || JS.sticky r)
                     && (JS.identity p0 =? JS.identity r)%nat
                  then JS.set_lastIndex p0 (JS.lastIndex r') else p0) =
               JS.identity p0)
    by now destruct ((JS.global r || JS.sticky r)
                     && (JS.identity p0 =? JS.identity r)%nat).
  assert (Hq : JS.identity
                 (if (JS.global r || JS.sticky r)
                     && (JS.identity q0 =? JS.identity r)%nat
                  then JS.set_lastIndex q0 (JS.lastIndex r') else q0) =
               JS.identity q0)
    by now destruct ((JS.global r || JS.sticky r)
                     && (JS.identity q0 =? JS.identity r)%nat).
  rewrite Hp, Hq. apply (A i j p0 q0); auto.
  revert Fp. unfold flagless.
  now destruct ((JS.global r || JS.sticky r)
                && (JS.identity p0 =? JS.identity r)%nat).
Qed.

(** In a list with no global or sticky pattern seen twice, the loop
    answers what the items answer when each is tested as it stands. *)
Lemma testItems_apart posixPath steps :
  forall idx items,
    apart items ->
    List.length items <= idx + steps ->
    fst (Plugin.testItems posixPath steps idx items) =
    firstAnswer posixPath idx (skipn idx items).
Proof.
  induction steps as [|steps IH]; intros idx items A L.
  - cbn [Plugin.testItems fst].
    rewrite skipn_all2 by lia. reflexivity.
  - cbn [Plugin.testItems].
    destruct (nth_error items idx) as [it|] eqn:E.
    + rewrite (skipn_nth _ _ _ E).
      destruct it as [ | | | | |r| | | ]; try reflexivity.
      cbn [firstAnswer]. unfold matches.
      destruct (JS.test r posixPath) as [found r']. cbn [fst].
      destruct found; [reflexivity|].
      rewrite IH.
      * f_equal. apply skipn_agree; [apply tested_length|].
        intros j Hj. apply (tested_other r r' items idx j A E). lia.
      * now apply tested_apart.
      * rewrite tested_length. lia.
    + apply nth_error_None in E. rewrite skipn_all2 by lia. reflexivity.
Qed.

(** The items tested as they stand: a failure at the first item that is
    not a pattern, and false at the first pattern that matches, whichever
    comes first. *)
Lemma firstAnswer_prefix posixPath before :
  forall idx rest,
    (forall b, In b before ->
               isRegExp b = true /\ itemMatches posixPath b = false) ->
    firstAnswer posixPath idx (before ++ rest) =
    firstAnswer posixPath (idx + List.length before) rest.
Proof.
  induction before as [|b before IH]; intros idx rest H.
  - simpl. now rewrite Nat.add_0_r.
  - destruct (H b (or_introl eq_refl)) as [Hre Hno].
    destruct b; try discriminate.
    simpl in Hno. cbn [app firstAnswer]. rewrite Hno.
    rewrite IH by (intros z Hz; apply H; now right).
    cbn [List.length]. now rewrite Nat.add_succ_r.
Qed.

Lemma firstAnswer_patterns posixPath items :
  forall idx,
    (forall it, In it items -> isRegExp it = true) ->
    firstAnswer posixPath idx items =
    Ok (forallb (fun it => negb (itemMatches posixPath it)) items).
Proof.
  induction items as [|it items IH]; intros idx H; [reflexivity|].
  pose proof (H it (or_introl eq_refl)) as Hre.
  destruct it; try discriminate.
  cbn [firstAnswer forallb itemMatches].
  destruct (matches r posixPath); cbn [negb andb]; [reflexivity|].
  apply IH. intros z Hz. apply H. now right.
Qed.

Lemma notExcludes_array path filePath st items :
  Plugin._excludes st = JS.VArray items ->
  fst (Plugin.notExcludes path filePath st) =
  fst (Plugin.testItems (Plugin.convert2Posix path filePath)
                        (List.length items) 0 items).
Proof.
  intros E. unfold Plugin.notExcludes, bind, get. rewrite E.
  cbn [JS.truthy negb].
  destruct (Plugin.testItems _ _ 0 items) as [[b|e] items'];
    reflexivity.
Qed.

(** C3, as amended.  With rules given as a list in which no global or
    sticky pattern is listed twice, the filter of the standalone plugin
    goes through the items in order: at the first item that is not a
    pattern, if no pattern before it matches the path, it fails with the
    index of the item and its typeof; at the first pattern that matches, if
    every item before it is a pattern, the path does not qualify; and when
    every item is a pattern, the path qualifies exactly when no pattern
    matches it.  The filter of the in-pipeline plugin reads a list as the
    list of the paths to leave out, and never fails on it. *)
Theorem notExcludes_list path filePath st items ist elems :
  Plugin._excludes st = JS.VArray items ->
  Index._includes ist = JS.VArray elems ->
  apart items ->
  let posixPath := Plugin.convert2Posix path filePath in
  let answer := fst (Plugin.notExcludes path filePath st) in
  (forall before it after,
      items = before ++ it :: after ->
      isRegExp it = false ->
      (forall b, In b before ->
                 isRegExp b = true /\ itemMatches posixPath b = false) ->
      answer = Throw (BadItem (List.length before) (JS.typeof it))) /\
  (forall before it after,
      items = before ++ it :: after ->
      itemMatches posixPath it = true ->
      (forall b, In b before ->
                 isRegExp b = true /\ itemMatches posixPath b = false) ->
      answer = Ok false) /\
  ((forall it, In it items -> isRegExp it = true) ->
   answer = Ok (forallb (fun it => negb (itemMatches posixPath it)) items)) /\
  fst (Index.inWhiteList filePath ist) =
  Ok (negb (JS.includes elems filePath)).
Proof.
  intros E Ei A posixPath answer. subst answer.
  rewrite (notExcludes_array _ _ _ _ E). fold posixPath.
  rewrite (testItems_apart posixPath _ 0 items A) by lia.
  cbn [skipn].
  split; [|split; [|split]].
  - intros before it after -> Hre Hbefore.
    rewrite (firstAnswer_prefix _ _ _ _ Hbefore). cbn [Nat.add].
    destruct it; try discriminate; reflexivity.
  - intros before it after -> Hm Hbefore.
    rewrite (firstAnswer_prefix _ _ _ _ Hbefore).
    destruct it; try discriminate.
    cbn [firstAnswer]. simpl in Hm. now rewrite Hm.
  - apply firstAnswer_patterns.
  - unfold Index.inWhiteList, bind, get, ret. now rewrite Ei.
Qed.

(** *** Separators *)

Lemma split_not_nil sep s : JS.split sep s <> [].
Proof.
  destruct s as [|c s]; simpl; [discriminate|].
  destruct (Ascii.eqb c sep); [discriminate|].
  destruct (JS.split sep s); discriminate.
Qed.

(** Splitting at a character and joining with another replaces the one by
    the other. *)
Lemma join_split sep c s :
  JS.join (String c EmptyString) (JS.split sep s) = replaceAll sep c s.
Proof.
  induction s as [|a s IH]; [reflexivity|].
  cbn [JS.split replaceAll].
  destruct (Ascii.eqb a sep).
  - cbn [JS.join].
    destruct (JS.split sep s) as [|piece pieces] eqn:S.
    + now apply split_not_nil in S.
    + rewrite <- IH. reflexivity.
  - destruct (JS.split sep s) as [|piece pieces] eqn:S.
    + now apply split_not_nil in S.
    + rewrite <- IH. cbn [JS.join].
      destruct pieces; reflexivity.
Qed.

Lemma convert2Posix_replaceAll path v :
  Plugin.convert2Posix path v = replaceAll (Path.api_sep path) Path.slash v.
Proof.
  unfold Plugin.convert2Posix.
  destruct v as [|c v]; [reflexivity|].
  cbn [String.eqb negb]. apply join_split.
Qed.

Lemma replaceAll_back s :
  replaceAll Path.backslash Path.slash
             (replaceAll Path.slash Path.backslash s) =
  replaceAll Path.backslash Path.slash s.
Proof.
  induction s as [|c s IH]; [reflexivity|].
  cbn [replaceAll]. rewrite IH. f_equal.
  destruct (Ascii.eqb c Path.slash) eqn:E.
  - apply Ascii.eqb_eq in E. subst c. reflexivity.
  - reflexivity.
Qed.

(** C5, as amended.  On a platform whose separator is the backslash, the
    filter of the standalone plugin gives, from the same state, the same
    answer and the same state for a path written with slashes and for the
    same path written with backslashes, whatever the rules. *)
Theorem notExcludes_separators path filePath st :
  Path.api_sep path = Path.backslash ->
  Plugin.notExcludes path
    (replaceAll Path.slash Path.backslash filePath) st =
  Plugin.notExcludes path filePath st.
Proof.
  intros Hsep.
  assert (E : Plugin.convert2Posix path
                (replaceAll Path.slash Path.backslash filePath) =
              Plugin.convert2Posix path filePath).
  { rewrite !convert2Posix_replaceAll, Hsep. apply replaceAll_back. }
  unfold Plugin.notExcludes. now rewrite E.
Qed.

(** *** Patterns without state *)

Lemma test_flagless r text :
  flagless r = true -> snd (JS.test r text) = r.
Proof.
  unfold flagless, JS.test. intros F.
  apply negb_true_iff in F. rewrite F.
  apply orb_false_iff in F. destruct F as [_ Fs]. rewrite Fs.
  cbn [Nat.ltb Nat.leb].
  destruct (JS.search _ _ _ _); reflexivity.
Qed.

Lemma testItems_flagless posixPath steps :
  forall idx items,
    forallb flaglessItem items = true ->
    snd (Plugin.testItems posixPath steps idx items) = items.
Proof.
  induction steps as [|steps IH]; intros idx items F; [reflexivity|].
  cbn [Plugin.testItems].
  destruct (nth_error items idx) as [it|] eqn:E; [|reflexivity].
  destruct it as [ | | | | |r| | | ]; try reflexivity.
  assert (Fr : flagless r = true).
  { rewrite forallb_forall in F.
    apply (F (JS.VRegExp r)). eapply nth_error_In; exact E. }
  pose proof (test_flagless r posixPath Fr) as T.
  destruct (JS.test r posixPath) as [found r']. cbn [snd] in T. subst r'.
  assert (Same : Plugin.tested r r items = items).
  { unfold Plugin.tested. unfold flagless in Fr.
    apply negb_true_iff in Fr. now rewrite Fr. }
  rewrite Same.
  destruct found; [reflexivity|]. now apply IH.
Qed.

Lemma notExcludes_flagless path filePath st :
  flaglessRules (Plugin._excludes st) = true ->
  snd (Plugin.notExcludes path filePath st) = st.
Proof.
  intros F. unfold Plugin.notExcludes, bind, get, ret, modify, throw.
  destruct (JS.truthy (Plugin._excludes st)); [|reflexivity].
  destruct (Plugin._excludes st) eqn:E; try reflexivity.
  - pose proof (test_flagless r (Plugin.convert2Posix path filePath) F)
      as T.
    destruct (JS.test r _) as [found r']. cbn [snd] in *. subst r'.
    rewrite <- E. now destruct st.
  - pose proof (testItems_flagless (Plugin.convert2Posix path filePath)
                                   (List.length elems) 0 elems F) as T.
    destruct (Plugin.testItems _ _ 0 elems) as [[b|e] items'];
      cbn [snd] in *; subst items'; rewrite <- E; now destruct st.
Qed.

Lemma inWhiteList_flagless filePath ist :
  flaglessRules (Index._includes ist) = true ->
  snd (Index.inWhiteList filePath ist) = ist.
Proof.
  intros F. unfold Index.inWhiteList, bind, get, ret, modify, throw.
  destruct (JS.truthy (Index._includes ist)); [|reflexivity].
  destruct (Index._includes ist) eqn:E; try reflexivity.
  pose proof (test_flagless r filePath F) as T.
  destruct (JS.test r _) as [found r']. cbn [snd] in *. subst r'.
  rewrite <- E. now destruct ist.
Qed.

(** C9, as amended.  When no pattern of the rules has the global or the
    sticky flag, an evaluation of the filter leaves the plugin as it was,
    so that an evaluation after it, on the same path, gives the same
    answer; this for the filter of the standalone plugin and for the filter
    of the in-pipeline plugin, and whether the answer is a boolean or a
    failure. *)
Theorem qualifies_repeatable path filePath st ist :
  (flaglessRules (Plugin._excludes st) = true ->
   let first := Plugin.notExcludes path filePath st in
   snd first = st /\
   Plugin.notExcludes path filePath (snd first) = first) /\
  (flaglessRules (Index._includes ist) = true ->
   let first := Index.inWhiteList filePath ist in
   snd first = ist /\
   Index.inWhiteList filePath (snd first) = first).
Proof.
  split; intros F first; subst first.
  - rewrite (notExcludes_flagless _ _ _ F). auto.
  - rewrite (inWhiteList_flagless _ _ F). auto.
Qed.

(** ** The manifest of the standalone plugin *)

Lemma get_prop_set_prop key key' v props :
  get_prop key (set_prop key' v props) =
  if key =? key' then Some v else get_prop key props.
Proof.
  induction props as [|[k w] props IH]; simpl.
  - rewrite (String.eqb_sym key' key). reflexivity.
  - destruct (k =? key') eqn:Kk; simpl.
    + apply String.eqb_eq in Kk. subst k.
      rewrite (String.eqb_sym key' key).
      now destruct (key =? key').
    + rewrite IH.
      destruct (k =? key) eqn:Ko; [|reflexivity].
      apply String.eqb_eq in Ko. subst k. now rewrite Kk.
Qed.

Section Manifest.

Variable path : Path.api.
Variable coords : list (string * Rect).

Let addFrame (metadata : list (string * json)) (filePath : string) :=
  set_prop (Plugin.fileName path filePath) (Plugin.frame coords filePath)
           metadata.

Lemma manifest_other files :
  forall acc key,
    (forall filePath, In filePath files ->
                      Plugin.fileName path filePath <> key) ->
    get_prop key (fold_left addFrame files acc) = get_prop key acc.
Proof.
  induction files as [|f files IH]; intros acc key H; [reflexivity|].
  cbn [fold_left]. rewrite IH by (intros z Hz; apply H; now right).
  unfold addFrame. rewrite get_prop_set_prop.
  destruct (key =? Plugin.fileName path f) eqn:E; [|reflexivity].
  apply String.eqb_eq in E. exfalso. apply (H f); [now left | auto].
Qed.

Lemma manifest_last before filePath after acc :
  (forall other, In other after ->
                 Plugin.fileName path other <> Plugin.fileName path filePath) ->
  get_prop (Plugin.fileName path filePath)
           (fold_left addFrame (before ++ filePath :: after) acc) =
  Some (Plugin.frame coords filePath).
Proof.
  intros H. rewrite fold_left_app. cbn [fold_left].
  rewrite manifest_other by exact H.
  unfold addFrame at 1. rewrite get_prop_set_prop.
  now rewrite String.eqb_refl.
Qed.

Lemma manifest_named files :
  forall acc key,
    get_prop key (fold_left addFrame files acc) <> None ->
    get_prop key acc <> None \/
    exists filePath,
      In filePath files /\ key = Plugin.fileName path filePath.
Proof.
  induction files as [|f files IH]; intros acc key H; [now left|].
  cbn [fold_left] in H. destruct (IH _ _ H) as [G|(z & Hz & E)].
  - unfold addFrame in G. rewrite get_prop_set_prop in G.
    destruct (key =? Plugin.fileName path f) eqn:E.
    + apply String.eqb_eq in E. right. exists f. split; [now left | exact E].
    + now left.
  - right. exists z. split; [now right | exact E].
Qed.

End Manifest.

Lemma underscore_inside a b :
  In "_"%char (list_ascii_of_string (a +++ "_" +++ b)).
Proof.
  induction a as [|c a IH]; simpl; [now left | now right].
Qed.

Lemma fileName_not_width path filePath :
  Plugin.fileName path filePath <> "width" /\
  Plugin.fileName path filePath <> "height".
Proof.
  unfold Plugin.fileName.
  split; intros E;
    pose proof (underscore_inside
                  (JS.pop (JS.split (Path.api_sep path)
                                    (Path.api_dirname path filePath)))
                  (Path.api_basename path filePath)) as U;
    rewrite E in U; simpl in U;
    repeat (destruct U as [U|U]; [discriminate|]); exact U.
Qed.

(** C6, as amended.  The manifest of the standalone plugin is one object
    whose members are the frames: the frame of a placement is found under
    the name made of the last directory of its path, an underscore and its
    base name, with the fields x, y, w and h of the placement, unless a
    later placement has the same name; there is no other member, and in
    particular none for the width or the height of the sheet. *)
Theorem manifest_frames path coords :
  NoDup (keys coords) ->
  exists frames,
    Plugin.metadata path coords = JObject frames /\
    (forall before filePath r after,
        coords = before ++ (filePath, r) :: after ->
        (forall other, In other (keys after) ->
                       Plugin.fileName path other <>
                       Plugin.fileName path filePath) ->
        get_prop (Plugin.fileName path filePath) frames =
        Some (Plugin.frame_object r)) /\
    (forall key,
        get_prop key frames <> None ->
        exists filePath,
          In filePath (keys coords) /\
          key = Plugin.fileName path filePath) /\
    get_prop "width" frames = None /\
    get_prop "height" frames = None.
Proof.
  intros N. eexists. split; [reflexivity|].
  assert (Named : forall key,
             get_prop key
               (fold_left
                  (fun metadata filePath =>
                     set_prop (Plugin.fileName path filePath)
                              (Plugin.frame coords filePath) metadata)
                  (keys coords) []) <> None ->
             exists filePath,
               In filePath (keys coords) /\
               key = Plugin.fileName path filePath).
  { intros key H.
    destruct (manifest_named path coords _ _ _ H) as [G|G];
      [now simpl in G | exact G]. }
  split; [|split; [exact Named|]].
  - intros before filePath r after E Hlater.
    assert (Hk : keys coords = keys before ++ filePath :: keys after).
    { rewrite E. unfold keys. now rewrite map_app. }
    rewrite Hk at 1.
    rewrite (manifest_last path coords _ _ _ _ Hlater).
    unfold Plugin.frame.
    rewrite (get_prop_NoDup filePath coords r N); [reflexivity|].
    rewrite E. apply in_or_app. right. now left.
  - split.
    + destruct (get_prop "width" _) eqn:G; [|reflexivity].
      destruct (Named "width") as (f & _ & E); [congruence|].
      symmetry in E. now apply fileName_not_width in E.
    + destruct (get_prop "height" _) eqn:G; [|reflexivity].
      destruct (Named "height") as (f & _ & E); [congruence|].
      symmetry in E. now apply fileName_not_width in E.
Qed.

(** ** The writes of the standalone plugin *)

Lemma eqb_succ n : Nat.eqb n (S n) = false.
Proof. apply Nat.eqb_neq. lia. Qed.

Lemma eqb_succ' n : Nat.eqb (S n) n = false.
Proof. apply Nat.eqb_neq. lia. Qed.

(** What [#generateSpriteSheet] does: it calls the packer and returns, and
    nothing else has happened.  The function the packer calls later throws
    the error of the packer; given a result, it starts the write of the
    manifest and the write of the sheet, and with a callback gives the two
    to a [Promise.all]. *)
Lemma generateSpriteSheet_calls path sources callback st :
  exists c,
    Plugin.generateSpriteSheet path sources callback st =
    (Ok [c], snd (Plugin.emit (Plugin.Packed sources) st)) /\
    call_src c = sources /\
    (forall err s, call_back c (inl err) s = (Throw (PackerFailure err), s)) /\
    (forall res s,
        call_back c (inr res) s =
        (Ok tt,
         {| Plugin._outputDir := Plugin._outputDir s;
            Plugin._excludes := Plugin._excludes s;
            Plugin._entryPath := Plugin._entryPath s;
            Plugin.spriteImagePath := Plugin.spriteImagePath s;
            Plugin.manifestPath := Plugin.manifestPath s;
            Plugin.writes := S (S (Plugin.writes s));
            Plugin.pending :=
              if callback
              then Plugin.pending s
                   ++ [[Plugin.writes s; S (Plugin.writes s)]]
              else Plugin.pending s;
            Plugin.handled :=
              if callback
              then Plugin.handled s
                   ++ [Plugin.writes s; S (Plugin.writes s)]
              else Plugin.handled s;
            Plugin.log :=
              Plugin.log s
              ++ [Plugin.WriteFile (Plugin.writes s) (Plugin.manifestPath s)
                    (Plugin.Utf8 (Plugin.metadata path (coordinates res)));
                  Plugin.WriteFile (S (Plugin.writes s))
                    (Plugin.spriteImagePath s)
                    (Plugin.Binary (image res))] |})).
Proof.
  eexists. split; [|split; [|split]].
  - unfold Plugin.generateSpriteSheet, Plugin.createSpriteSheet.
    erewrite (bind_Ok (Plugin.emit _)) by reflexivity. reflexivity.
  - reflexivity.
  - reflexivity.
  - intros res s. cbn [call_back].
    destruct s, callback; cbn.
    + unfold Plugin.set_pending, Plugin.set_handled. cbn.
      now rewrite <- !app_assoc.
    + now rewrite <- !app_assoc.
Qed.

(** A pack of the standalone plugin whose packer succeeds. *)
Lemma generateSpriteSheet_run path spritesmith sources res callback st :
  spritesmith sources = inr res ->
  attempt spritesmith (Plugin.generateSpriteSheet path sources callback) st =
  (Ok tt,
   {| Plugin._outputDir := Plugin._outputDir st;
      Plugin._excludes := Plugin._excludes st;
      Plugin._entryPath := Plugin._entryPath st;
      Plugin.spriteImagePath := Plugin.spriteImagePath st;
      Plugin.manifestPath := Plugin.manifestPath st;
      Plugin.writes := S (S (Plugin.writes st));
      Plugin.pending :=
        if callback
        then Plugin.pending st
             ++ [[Plugin.writes st; S (Plugin.writes st)]]
        else Plugin.pending st;
      Plugin.handled :=
        if callback
        then Plugin.handled st ++ [Plugin.writes st; S (Plugin.writes st)]
        else Plugin.handled st;
      Plugin.log :=
        Plugin.log st
        ++ [Plugin.Packed sources;
            Plugin.WriteFile (Plugin.writes st) (Plugin.manifestPath st)
              (Plugin.Utf8 (Plugin.metadata path (coordinates res)));
            Plugin.WriteFile (S (Plugin.writes st))
              (Plugin.spriteImagePath st)
              (Plugin.Binary (image res))] |}).
Proof.
  intros Hpack.
  destruct (generateSpriteSheet_calls path sources callback st)
    as (c & Hrun & Hsrc & _ & Hback).
  unfold attempt. rewrite (bind_Ok _ _ _ _ _ Hrun).
  unfold answer. cbn [forEachM]. rewrite Hsrc, Hpack.
  unfold bind. rewrite Hback. unfold ret.
  cbn [Plugin.emit modify snd Plugin._outputDir Plugin._excludes
       Plugin._entryPath Plugin.spriteImagePath Plugin.manifestPath
       Plugin.writes Plugin.pending Plugin.handled Plugin.log].
  now rewrite <- !app_assoc.
Qed.

(** A pack of the standalone plugin whose packer fails: the failure is
    thrown when the packer answers, and nothing was started. *)
Lemma generateSpriteSheet_fails path spritesmith sources err callback st :
  spritesmith sources = inl err ->
  attempt spritesmith (Plugin.generateSpriteSheet path sources callback) st =
  (Throw (PackerFailure err), snd (Plugin.emit (Plugin.Packed sources) st)).
Proof.
  intros Hpack.
  destruct (generateSpriteSheet_calls path sources callback st)
    as (c & Hrun & Hsrc & Hfail & _).
  unfold attempt. rewrite (bind_Ok _ _ _ _ _ Hrun).
  unfold answer. cbn [forEachM]. rewrite Hsrc, Hpack.
  unfold bind. now rewrite Hfail.
Qed.

Lemma callbacks_run n :
  forall k st,
    forEachM (fun _ : nat => Plugin.emit Plugin.Callback) (seq k n) st =
    (Ok tt,
     {| Plugin._outputDir := Plugin._outputDir st;
        Plugin._excludes := Plugin._excludes st;
        Plugin._entryPath := Plugin._entryPath st;
        Plugin.spriteImagePath := Plugin.spriteImagePath st;
        Plugin.manifestPath := Plugin.manifestPath st;
        Plugin.writes := Plugin.writes st;
        Plugin.pending := Plugin.pending st;
        Plugin.handled := Plugin.handled st;
        Plugin.log := Plugin.log st ++ repeat Plugin.Callback n |}).
Proof.
  induction n as [|n IH]; intros k st.
  - cbn. rewrite app_nil_r. now destruct st.
  - cbn [seq forEachM]. unfold bind.
    unfold Plugin.emit at 1, modify at 1.
    rewrite IH. cbn. now rewrite <- app_assoc.
Qed.

(** What the end of a write does. *)
Lemma settle_run id o st :
  Plugin.settle id o st =
  (match o with
   | Plugin.Fulfilled => Ok tt
   | Plugin.Rejected =>
       if negb (existsb (Nat.eqb id) (Plugin.handled st))
          || (0 <? snd (Plugin.settleAll id o (Plugin.pending st)))%nat
       then Throw (UnhandledRejection id)
       else Ok tt
   end,
   {| Plugin._outputDir := Plugin._outputDir st;
      Plugin._excludes := Plugin._excludes st;
      Plugin._entryPath := Plugin._entryPath st;
      Plugin.spriteImagePath := Plugin.spriteImagePath st;
      Plugin.manifestPath := Plugin.manifestPath st;
      Plugin.writes := Plugin.writes st;
      Plugin.pending := fst (Plugin.settleAll id o (Plugin.pending st));
      Plugin.handled := Plugin.handled st;
      Plugin.log :=
        Plugin.log st
        ++ Plugin.Settled id o
           :: repeat Plugin.Callback
                (snd (Plugin.settleAll id o (Plugin.pending st))) |}).
Proof.
  unfold Plugin.settle.
  unfold bind at 1. unfold Plugin.emit at 1, modify at 1.
  unfold bind at 1. unfold get at 1. cbn [Plugin.pending Plugin.handled].
  destruct (Plugin.settleAll id o (Plugin.pending st)) as [rest n].
  unfold bind, modify. rewrite callbacks_run. cbn [fst snd].
  destruct o;
    [|destruct (negb (existsb (Nat.eqb id) (Plugin.handled st))
                || (0 <? n)%nat)];
    unfold ret, throw; cbn; now rewrite <- app_assoc.
Qed.

(** A promise on two writes, at the end of one of them and then of the
    other. *)
Lemma settleAll_pair a b first second o :
  a <> b ->
  (first = a /\ second = b) \/ (first = b /\ second = a) ->
  Plugin.settleAll first o [[a; b]] =
  match o with
  | Plugin.Rejected => ([], 1)
  | Plugin.Fulfilled => ([[second]], 0)
  end.
Proof.
  intros N H.
  assert (Eab : Nat.eqb a b = false) by now apply Nat.eqb_neq.
  assert (Eba : Nat.eqb b a = false)
    by (apply Nat.eqb_neq; congruence).
  unfold Plugin.settleAll, Plugin.settleOne.
  destruct H as [[-> ->]|[-> ->]]; cbn [existsb filter];
    rewrite ?Nat.eqb_refl, ?Eab, ?Eba; cbn; destruct o; reflexivity.
Qed.

Lemma settleAll_single id o :
  Plugin.settleAll id o [[id]] = ([], 1).
Proof.
  unfold Plugin.settleAll, Plugin.settleOne. cbn [existsb filter].
  rewrite Nat.eqb_refl. cbn. now destruct o.
Qed.

Lemma handled_after_all id a b (before : list nat) :
  id = a \/ id = b ->
  existsb (Nat.eqb id) (before ++ [a; b]) = true.
Proof.
  intros H. rewrite existsb_app. cbn [existsb].
  destruct H as [->| ->]; rewrite Nat.eqb_refl;
    now rewrite ?orb_true_r.
Qed.

(** C8, as amended.  With a callback, the standalone plugin starts the
    write of the manifest and the write of the sheet and waits; whichever
    write ends first, if it ends rejected the callback is called at once,
    before the other write has ended, and if it ends fulfilled the callback
    is called when the other write has ended, fulfilled or rejected; the
    callback is called once.  The rejection that made the callback run is
    taken by no handler and is raised to the process; the log goes on from
    there for a process that does not end on it.  Without a callback the
    two writes are started and nothing waits for them. *)
Theorem completion_after_writes path spritesmith sources res st :
  spritesmith sources = inr res ->
  Plugin.pending st = [] ->
  let m := Plugin.writes st in
  let i := S (Plugin.writes st) in
  let started :=
    Plugin.log st
    ++ [Plugin.Packed sources;
        Plugin.WriteFile m (Plugin.manifestPath st)
          (Plugin.Utf8 (Plugin.metadata path (coordinates res)));
        Plugin.WriteFile i (Plugin.spriteImagePath st)
          (Plugin.Binary (image res))] in
  (forall first second o1 o2,
      (first = m /\ second = i) \/ (first = i /\ second = m) ->
      let one :=
        (attempt spritesmith (Plugin.generateSpriteSheet path sources true) ;;
         Plugin.settle first o1) st in
      let run := Plugin.settle second o2 (snd one) in
      fst one =
      match o1 with
      | Plugin.Rejected => Throw (UnhandledRejection first)
      | Plugin.Fulfilled => Ok tt
      end /\
      fst run =
      match o1, o2 with
      | Plugin.Fulfilled, Plugin.Rejected => Throw (UnhandledRejection second)
      | _, _ => Ok tt
      end /\
      Plugin.pending (snd run) = [] /\
      Plugin.log (snd run) =
      started
      ++ Plugin.Settled first o1
         :: match o1 with
            | Plugin.Rejected =>
                [Plugin.Callback; Plugin.Settled second o2]
            | Plugin.Fulfilled =>
                [Plugin.Settled second o2; Plugin.Callback]
            end) /\
  (let run :=
     attempt spritesmith (Plugin.generateSpriteSheet path sources false) st in
   fst run = Ok tt /\
   Plugin.pending (snd run) = [] /\
   Plugin.log (snd run) = started).
Proof.
  intros Hpack Hpend m i started.
  assert (Nmi : m <> i) by (subst m i; lia).
  split.
  - intros first second o1 o2 Horder one run. subst run one.
    erewrite bind_Ok
      by (apply generateSpriteSheet_run; exact Hpack).
    cbv beta.
    rewrite !settle_run.
    cbn [fst snd Plugin.pending Plugin.handled Plugin.log].
    rewrite Hpend. cbn [app]. fold i. fold m.
    rewrite (settleAll_pair m i first second o1 Nmi Horder).
    assert (H1 : existsb (Nat.eqb first) (Plugin.handled st ++ [m; i]) = true)
      by (apply handled_after_all; tauto).
    assert (H2 : existsb (Nat.eqb second) (Plugin.handled st ++ [m; i]) = true)
      by (apply handled_after_all; tauto).
    rewrite H1, H2.
    subst started.
    destruct o1; cbn [fst snd].
    + rewrite settleAll_single. cbn [fst snd repeat].
      rewrite <- !app_assoc. cbn. destruct o2; auto.
    + cbn [Plugin.settleAll fst snd repeat].
      rewrite <- !app_assoc. cbn. destruct o2; auto.
  - rewrite (generateSpriteSheet_run _ _ _ _ _ _ Hpack).
    cbn. auto.
Qed.

(** ** The properties at work, and where they stop *)

(** The sibling of C1: with no image among the assets, the in-pipeline
    plugin calls the host back, once, and does nothing else. *)
Example processAssets_no_images_calls_back :
  let run :=
    Index.processAssets exPath "/w/coordinate.json" exDisk
      (exIndex JS.VUndefined [("main.js", "JS")]) in
  fst run = Ok [] /\ Index.log (snd run) = [Index.Callback].
Proof. split; reflexivity. Qed.

Lemma beforeRun_no_images_never_calls_back_witness :
  Plugin.sourceImages exPath
    (map (fun v => Path.api_join exPath "/w" v) ["src/readme.md"])
    (exPlugin JS.VUndefined) = (Ok [], exPlugin JS.VUndefined) /\
  let run :=
    Plugin.beforeRun exPath "/w" ["src/readme.md"]
      (exPlugin JS.VUndefined) in
  fst run = Ok [] /\
  Plugin.log (snd run) = [] /\
  pluginCallbacks (Plugin.log (snd run)) = 0 /\
  Plugin.pending (snd run) = [] /\
  attempt exPacker (Plugin.beforeRun exPath "/w" ["src/readme.md"])
    (exPlugin JS.VUndefined) = (Ok tt, exPlugin JS.VUndefined).
Proof.
  split; [reflexivity|].
  destruct (beforeRun_no_images_never_calls_back
              exPath "/w" ["src/readme.md"]
              (exPlugin JS.VUndefined) (exPlugin JS.VUndefined) eq_refl)
    as (Hok & Hlog & Hcalls & Hpending & Hafter).
  split; [exact Hok|]. split; [exact Hlog|]. split; [exact Hcalls|].
  split; [exact Hpending|]. exact (Hafter exPacker).
Defined.

(** C2 fails in the standalone plugin: two pack attempts in a row on the
    same images give the same manifest, and the second writes it again. *)
Lemma standalone_rewrites_equal_manifest :
  let manifest := Plugin.metadata exPath exCoordinates in
  let first :=
    snd (attempt exPacker (Plugin.spriteProcess exPath exWatched)
           (exPlugin JS.VUndefined)) in
  let second :=
    snd (attempt exPacker (Plugin.spriteProcess exPath exWatched) first) in
  isEqual manifest manifest = true /\
  manifestWrites (Plugin.log first) = [manifest] /\
  manifestWrites (Plugin.log second) = [manifest; manifest].
Proof. repeat split; reflexivity. Qed.

Lemma exAssets_packs :
  packs exPath exIndexPacker (exIndex JS.VUndefined exAssets)
        ["x.png"; "y.png"; "z.png"] exResult.
Proof.
  exists (exIndex JS.VUndefined exAssets).
  split; [reflexivity|]. split; [discriminate | reflexivity].
Defined.

Lemma metadata_written_iff_changed_witness :
  packs exPath exIndexPacker (exIndex JS.VUndefined exAssets)
        ["x.png"; "y.png"; "z.png"] exResult /\
  let meta := Index.coordinateMeta exPath exResult in
  let run :=
    attempt exIndexPacker
      (Index.processAssets exPath "/w/coordinate.json" exDisk)
      (exIndex JS.VUndefined exAssets) in
  fst run = Ok tt /\
  exists events,
    Index.log (snd run) = [] ++ events /\
    metadataWrites events = [meta].
Proof.
  split; [exact exAssets_packs|].
  destruct (metadata_written_iff_changed
              exPath exIndexPacker "/w/coordinate.json" exDisk
              (exIndex JS.VUndefined exAssets)
              ["x.png"; "y.png"; "z.png"] exResult exAssets_packs)
    as (Hok & Hwrite & _).
  split; [exact Hok | exact Hwrite].
Defined.

(** Two attempts of the in-pipeline plugin on the same images: the first
    writes the metadata, the second does not. *)
Example processAssets_twice :
  let run :=
    (attempt exIndexPacker
       (Index.processAssets exPath "/w/coordinate.json" exDisk) ;;
     modify (Index.set_assets exAssets) ;;
     attempt exIndexPacker
       (Index.processAssets exPath "/w/coordinate.json" exDisk))
      (exIndex JS.VUndefined exAssets) in
  fst run = Ok tt /\
  metadataWrites (Index.log (snd run)) =
  [Index.coordinateMeta exPath exResult] /\
  packerCalls (Index.log (snd run)) = 2 /\
  callbacks (Index.log (snd run)) = 2.
Proof. repeat split; reflexivity. Qed.

(** Scenario 2 of the specification. *)
Example reconciliation_scenario :
  Index.assets
    (snd (attempt exIndexPacker
            (Index.processAssets exPath "/w/coordinate.json" exDisk)
            (exIndex JS.VUndefined exAssets))) =
  [("x.png", "SHEET"); ("main.js", "JS")].
Proof. reflexivity. Qed.

(** The handler has returned, with the packer called and nothing else
    done, when the packer answers; and a write of the metadata that throws
    comes after the assets and the metadata held were changed, and keeps
    the host from being called back. *)
Example processAssets_in_two_steps :
  let st := exIndex JS.VUndefined exAssets in
  let handler := Index.processAssets exPath "/w/coordinate.json" in
  List.length
    (match fst (handler exReadOnlyDisk st) with
     | Ok calls => calls
     | Throw _ => []
     end) = 1 /\
  Index.assets (snd (handler exReadOnlyDisk st)) = exAssets /\
  callbacks (Index.log (snd (handler exReadOnlyDisk st))) = 0 /\
  packerCalls (Index.log (snd (handler exReadOnlyDisk st))) = 1 /\
  let run := attempt exIndexPacker (handler exReadOnlyDisk) st in
  fst run = Throw (WriteFailure "EROFS") /\
  Index.assets (snd run) = [("x.png", "SHEET"); ("main.js", "JS")] /\
  Index._coordinateMeta (snd run) = Index.coordinateMeta exPath exResult /\
  callbacks (Index.log (snd run)) = 0.
Proof. repeat split; reflexivity. Qed.

Lemma reconciliation_leaves_one_slot_witness :
  NoDup (keys (Index.assets (exIndex JS.VUndefined exAssets))) /\
  packs exPath exIndexPacker (exIndex JS.VUndefined exAssets)
        ["x.png"; "y.png"; "z.png"] exResult /\
  let after :=
    Index.assets
      (snd (attempt exIndexPacker
              (Index.processAssets exPath "/w/coordinate.json" exDisk)
              (exIndex JS.VUndefined exAssets))) in
  get_prop "x.png" after = Some "SHEET" /\
  get_prop "y.png" after = None /\
  get_prop "z.png" after = None /\
  filter (fun file => mem file ["x.png"; "y.png"; "z.png"]) (keys after) =
  ["x.png"].
Proof.
  assert (N : NoDup (keys (Index.assets (exIndex JS.VUndefined exAssets)))).
  { simpl.
    repeat (constructor; [simpl; intuition discriminate|]). constructor. }
  split; [exact N|]. split; [exact exAssets_packs|].
  destruct (reconciliation_leaves_one_slot
              exPath exIndexPacker "/w/coordinate.json" exDisk
              (exIndex JS.VUndefined exAssets)
              "x.png" ["y.png"; "z.png"] exResult N exAssets_packs)
    as (_ & Hfirst & Hrest & Hone & _).
  split; [exact Hfirst|].
  split; [apply Hrest; simpl; auto|].
  split; [apply Hrest; simpl; auto | exact Hone].
Defined.

Lemma isPrevMetadata_twice_witness :
  wf (Index.coordinateMeta exPath exResult) /\
  let first :=
    Index.isPrevMetadata (Index.coordinateMeta exPath exResult)
      (exIndex JS.VUndefined exAssets) in
  let second :=
    Index.isPrevMetadata (Index.coordinateMeta exPath exResult)
      (snd first) in
  fst first = Ok false /\ fst second = Ok true.
Proof.
  assert (W : wf (Index.coordinateMeta exPath exResult)).
  { cbv [Index.coordinateMeta exPath exResult exCoordinates coordinates
         properties_width properties_height keys map fst fold_left]. 
    simpl.
    repeat split;
      repeat (constructor; [simpl; intuition discriminate|]);
      constructor. }
  split; [exact W|].
  destruct (isPrevMetadata_twice
              (Index.coordinateMeta exPath exResult)
              (exIndex JS.VUndefined exAssets) W) as (Hsecond & _).
  split; [reflexivity | exact Hsecond].
Defined.

(** C3 fails on a list whose item that is no pattern comes after a pattern
    that matches: the standalone filter answers before it sees the item;
    and the in-pipeline filter takes any list without a failure. *)
Lemma list_with_bad_item_is_accepted :
  fst (Plugin.notExcludes exPath "/w/src/a.png"
         (exPlugin
            (JS.VArray [JS.VRegExp (JS.regexp "a.png"); JS.VNumber 5]))) =
  Ok false /\
  fst (Index.inWhiteList "a.png"
         (exIndex (JS.VArray [JS.VNumber 5]) exAssets)) = Ok true.
Proof. split; reflexivity. Qed.

(** One global pattern listed twice is one object: what the first test of
    the loop writes to it, the second test reads.  Here the pattern comes
    with a [lastIndex] beyond the end of the path: the first test fails and
    resets it, the second starts anew and matches.  Two objects alike,
    listed one after the other, would each fail. *)
Example pattern_listed_twice :
  let late := JS.set_lastIndex (JS.regexp_g "a") 5 in
  fst (Plugin.notExcludes exPath "a"
         (exPlugin (JS.VArray [JS.VRegExp late; JS.VRegExp late]))) =
  Ok false /\
  fst (Plugin.notExcludes exPath "a"
         (exPlugin
            (JS.VArray [JS.VRegExp late;
                        JS.VRegExp (JS.another 1 late)]))) =
  Ok true.
Proof. split; reflexivity. Qed.

Lemma exRules_apart :
  apart [JS.VRegExp (JS.regexp "a.png"); JS.VNumber 5].
Proof.
  intros i j r q Hij Hi Hj _.
  destruct i as [|[|[|i]]]; cbn in Hi; try discriminate.
  destruct j as [|[|[|j]]]; cbn in Hj; try discriminate.
  congruence.
Defined.

Lemma notExcludes_list_witness :
  let st :=
    exPlugin (JS.VArray [JS.VRegExp (JS.regexp "a.png"); JS.VNumber 5]) in
  let ist := exIndex (JS.VArray [JS.VString "/w/src/b.png"]) exAssets in
  Plugin._excludes st =
  JS.VArray [JS.VRegExp (JS.regexp "a.png"); JS.VNumber 5] /\
  Index._includes ist = JS.VArray [JS.VString "/w/src/b.png"] /\
  apart [JS.VRegExp (JS.regexp "a.png"); JS.VNumber 5] /\
  fst (Plugin.notExcludes exPath "/w/src/b.png" st) =
  Throw (BadItem 1 "number") /\
  fst (Index.inWhiteList "/w/src/b.png" ist) = Ok false.
Proof.
  intros st ist.
  destruct (notExcludes_list
              exPath "/w/src/b.png" st
              [JS.VRegExp (JS.regexp "a.png"); JS.VNumber 5]
              ist [JS.VString "/w/src/b.png"] eq_refl eq_refl exRules_apart)
    as (Hbad & _ & _ & Hindex).
  split; [reflexivity|]. split; [reflexivity|].
  split; [exact exRules_apart|].
  split; [|exact Hindex].
  apply (Hbad [JS.VRegExp (JS.regexp "a.png")] (JS.VNumber 5) []).
  - reflexivity.
  - reflexivity.
  - intros b [<-|[]]. split; reflexivity.
Defined.

(** C5 fails in the in-pipeline plugin, which tests the path as it is
    given. *)
Lemma inWhiteList_depends_on_separators :
  fst (Index.inWhiteList "a/b/c.png"
         (exIndex (JS.VRegExp (JS.regexp "a/b")) exAssets)) = Ok false /\
  fst (Index.inWhiteList "a\b\c.png"
         (exIndex (JS.VRegExp (JS.regexp "a/b")) exAssets)) = Ok true.
Proof. split; reflexivity. Qed.

Lemma notExcludes_separators_witness :
  Path.api_sep exBackslashPath = Path.backslash /\
  replaceAll Path.slash Path.backslash "a/b/c.png" = "a\b\c.png" /\
  Plugin.notExcludes exBackslashPath "a\b\c.png"
    (exPlugin (JS.VRegExp (JS.regexp "a/b"))) =
  Plugin.notExcludes exBackslashPath "a/b/c.png"
    (exPlugin (JS.VRegExp (JS.regexp "a/b"))) /\
  fst (Plugin.notExcludes exBackslashPath "a\b\c.png"
         (exPlugin (JS.VRegExp (JS.regexp "a/b")))) = Ok false.
Proof.
  split; [reflexivity|]. split; [reflexivity|].
  split; [|reflexivity].
  apply (notExcludes_separators exBackslashPath "a/b/c.png"
           (exPlugin (JS.VRegExp (JS.regexp "a/b"))) eq_refl).
Defined.

(** C6 fails on scenario 1: the manifest of the standalone plugin has the
    two frames as its members, and neither the width nor the height of the
    sheet; the metadata of the in-pipeline plugin has the width and the
    height, and names the frames by their base names. *)
Lemma scenario_1_metadata :
  Plugin.metadata exPath exCoordinates =
  JObject
    [("icons_a.png",
      JObject [("x", JNumber 0); ("y", JNumber 0);
               ("w", JNumber 10); ("h", JNumber 10)]);
     ("icons_b.png",
      JObject [("x", JNumber 10); ("y", JNumber 0);
               ("w", JNumber 8); ("h", JNumber 8)])] /\
  isEqual (Plugin.metadata exPath exCoordinates) exExpectedMetadata = false /\
  Index.coordinateMeta exPath exResult =
  JObject
    [("width", JNumber 18); ("height", JNumber 10);
     ("frames",
      JObject
        [("a.png",
          JObject [("x", JNumber 0); ("y", JNumber 0);
                   ("width", JNumber 10); ("height", JNumber 10)]);
         ("b.png",
          JObject [("x", JNumber 10); ("y", JNumber 0);
                   ("width", JNumber 8); ("height", JNumber 8)])])] /\
  isEqual (Index.coordinateMeta exPath exResult) exExpectedMetadata = false.
Proof. repeat split; reflexivity. Qed.

Lemma manifest_frames_witness :
  NoDup (keys exCoordinates) /\
  exists frames,
    Plugin.metadata exPath exCoordinates = JObject frames /\
    get_prop "icons_b.png" frames =
    Some (Plugin.frame_object (mkRect 10 0 8 8)) /\
    get_prop "width" frames = None /\
    get_prop "height" frames = None.
Proof.
  assert (N : NoDup (keys exCoordinates)).
  { simpl.
    repeat (constructor; [simpl; intuition discriminate|]). constructor. }
  split; [exact N|].
  destruct (manifest_frames exPath exCoordinates N)
    as (frames & E & Hframe & _ & Hw & Hh).
  exists frames. split; [exact E|]. split; [|split; assumption].
  apply (Hframe [("icons/a.png", mkRect 0 0 10 10)]
                "icons/b.png" (mkRect 10 0 8 8) []).
  - reflexivity.
  - intros other [].
Defined.

(** C8 fails when the write that ends first is rejected: the callback is
    called while the other write has not ended. *)
Lemma callback_before_second_write_ends :
  let one :=
    (attempt exPacker
       (Plugin.generateSpriteSheet exPath ["/w/src/a.png"] true) ;;
     Plugin.settle 0 Plugin.Rejected) (exPlugin JS.VUndefined) in
  Plugin.log (snd one) =
  [Plugin.Packed ["/w/src/a.png"];
   Plugin.WriteFile 0 "/w/out/manifest.json"
     (Plugin.Utf8 (Plugin.metadata exPath exCoordinates));
   Plugin.WriteFile 1 "/w/out/sprite.png" (Plugin.Binary "SHEET");
   Plugin.Settled 0 Plugin.Rejected;
   Plugin.Callback] /\
  Plugin.log (snd (Plugin.settle 1 Plugin.Fulfilled (snd one))) =
  [Plugin.Packed ["/w/src/a.png"];
   Plugin.WriteFile 0 "/w/out/manifest.json"
     (Plugin.Utf8 (Plugin.metadata exPath exCoordinates));
   Plugin.WriteFile 1 "/w/out/sprite.png" (Plugin.Binary "SHEET");
   Plugin.Settled 0 Plugin.Rejected;
   Plugin.Callback;
   Plugin.Settled 1 Plugin.Fulfilled].
Proof. split; reflexivity. Qed.

Lemma completion_after_writes_witness :
  exPacker ["/w/src/a.png"] = inr exResult /\
  Plugin.pending (exPlugin JS.VUndefined) = [] /\
  Plugin.log
    (snd (Plugin.settle 0 Plugin.Rejected
            (snd ((attempt exPacker
                     (Plugin.generateSpriteSheet exPath ["/w/src/a.png"]
                                                 true) ;;
                   Plugin.settle 1 Plugin.Fulfilled)
                    (exPlugin JS.VUndefined))))) =
  [Plugin.Packed ["/w/src/a.png"];
   Plugin.WriteFile 0 "/w/out/manifest.json"
     (Plugin.Utf8 (Plugin.metadata exPath exCoordinates));
   Plugin.WriteFile 1 "/w/out/sprite.png" (Plugin.Binary "SHEET");
   Plugin.Settled 1 Plugin.Fulfilled;
   Plugin.Settled 0 Plugin.Rejected;
   Plugin.Callback].
Proof.
  split; [reflexivity|]. split; [reflexivity|].
  destruct (completion_after_writes
              exPath exPacker ["/w/src/a.png"] exResult
              (exPlugin JS.VUndefined) eq_refl eq_refl) as (Hwait & _).
  destruct (Hwait 1 0 Plugin.Fulfilled Plugin.Rejected
                  (or_intror (conj eq_refl eq_refl)))
    as (_ & _ & _ & Hlog).
  exact Hlog.
Defined.

(** C9 fails for a pattern with the global flag: the first evaluation
    leaves the end of its match in the pattern, and the second evaluation,
    on the same path, starts from there. *)
Lemma global_pattern_answers_differ :
  let st := exPlugin (JS.VRegExp (JS.regexp_g "icons")) in
  let first := Plugin.notExcludes exPath "/w/src/icons/a.png" st in
  let second := Plugin.notExcludes exPath "/w/src/icons/a.png" (snd first) in
  fst first = Ok false /\ fst second = Ok true.
Proof. split; reflexivity. Qed.

Lemma qualifies_repeatable_witness :
  let st := exPlugin (JS.VRegExp (JS.regexp "icons")) in
  let ist := exIndex (JS.VRegExp (JS.regexp "icons")) exAssets in
  flaglessRules (Plugin._excludes st) = true /\
  flaglessRules (Index._includes ist) = true /\
  fst (Plugin.notExcludes exPath "/w/src/icons/a.png"
         (snd (Plugin.notExcludes exPath "/w/src/icons/a.png" st))) =
  Ok false /\
  fst (Index.inWhiteList "icons/a.png"
         (snd (Index.inWhiteList "icons/a.png" ist))) = Ok false.
Proof.
  intros st ist.
  destruct (qualifies_repeatable exPath "/w/src/icons/a.png" st ist)
    as (Hplugin & _).
  destruct (qualifies_repeatable exPath "icons/a.png" st ist)
    as (_ & Hindex).
  destruct (Hplugin eq_refl) as (_ & Hp).
  destruct (Hindex eq_refl) as (_ & Hi).
  split; [reflexivity|]. split; [reflexivity|].
  split.
  - rewrite Hp. reflexivity.
  - rewrite Hi. reflexivity.
Defined.

(** In the POSIX flavour, two paths that resolve to the same path are
    path-equal. *)
Lemma pathEqual_resolve cwd path1 path2 :
  Path.resolve cwd path1 = Path.resolve cwd path2 ->
  Plugin.pathEqual (Path.posix_api cwd) path1 path2 = true.
Proof.
  intros E. unfold Plugin.pathEqual. cbn [Path.api_relative Path.posix_api].
  unfold Path.relative. rewrite E, String.eqb_refl.
  now destruct (path1 =? path2).
Qed.

Lemma onAll_ignores_outputs_and_renames_witness :
  let st := exPlugin JS.VUndefined in
  Plugin.pathEqual exPath "out/../out/sprite.png"
                   (Plugin.spriteImagePath st) = true /\
  fst (Plugin.shouldProcess exPath "changed" "out/../out/sprite.png" st)
  <> Ok true /\
  Plugin.log
    (snd (Plugin.onAll exPath exWatched
            "changed" "out/../out/sprite.png" st)) = [].
Proof.
  intros st.
  destruct (onAll_ignores_outputs_and_renames
              exPath exWatched "changed" "out/../out/sprite.png" st
              (or_intror (or_introl eq_refl)))
    as (Hno & _ & Hlog & _).
  split; [reflexivity|]. split; [exact Hno | exact Hlog].
Defined.

(** An image that changes does start a pack. *)
Example onAll_packs_on_change :
  Plugin.log
    (snd (attempt exPacker
            (Plugin.onAll exPath exWatched "changed" "/w/src/icons/a.png")
            (exPlugin JS.VUndefined))) =
  [Plugin.Packed ["/w/src/icons/a.png"; "/w/src/icons/b.png"];
   Plugin.WriteFile 0 "/w/out/manifest.json"
     (Plugin.Utf8 (Plugin.metadata exPath exCoordinates));
   Plugin.WriteFile 1 "/w/out/sprite.png" (Plugin.Binary "SHEET")].
Proof. reflexivity. Qed.

(* ================================================================== *)
(** * Part III: further properties of the code *)
(* ================================================================== *)

(** ** Texts *)

Lemma length_append a b :
  String.length (a +++ b) = String.length a + String.length b.
Proof. induction a as [|c a IH]; simpl; [reflexivity | now rewrite IH]. Qed.

Lemma substring_all s : substring 0 (String.length s) s = s.
Proof. induction s as [|c s IH]; simpl; [reflexivity | now rewrite IH]. Qed.

Lemma substring_skip pre s m :
  substring (String.length pre) m (pre +++ s) = substring 0 m s.
Proof. induction pre as [|c pre IH]; simpl; [reflexivity | exact IH]. Qed.

Lemma substring_split s :
  forall k,
    k <= String.length s ->
    substring 0 k s +++ substring k (String.length s - k) s = s.
Proof.
  induction s as [|c s IH]; intros k Hk.
  - destruct k; reflexivity.
  - destruct k as [|k]; simpl.
    + now rewrite substring_all.
    + simpl in Hk. f_equal. apply IH. lia.
Qed.

Lemma length_substring s :
  forall k m,
    k + m <= String.length s -> String.length (substring k m s) = m.
Proof.
  induction s as [|c s IH]; intros k m H; simpl in H.
  - assert (k = 0) by lia. assert (m = 0) by lia. now subst.
  - destruct k as [|k]; simpl.
    + destruct m as [|m]; simpl; [reflexivity|].
      f_equal. apply IH. lia.
    + apply IH. lia.
Qed.

(** X1.  Both plugins take for an image exactly the paths that end with
    the four characters of the extension in lower case: some text followed
    by it, and nothing else. *)
Theorem isPng_iff filePath :
  (Index.isPng filePath = true <-> exists stem, filePath = stem +++ ".png") /\
  (Plugin.isPng filePath = true <-> exists stem, filePath = stem +++ ".png").
Proof.
  assert (Suffix : forall s suffix,
             JS.endsWith s suffix = true <->
             exists stem, s = stem +++ suffix).
  { intros s suffix.
    unfold JS.endsWith. rewrite andb_true_iff, Nat.leb_le, String.eqb_eq.
    split.
    - intros [Hle E].
      exists (substring 0 (String.length s - String.length suffix) s).
      rewrite <- (substring_split
                    s (String.length s - String.length suffix)) at 1
        by lia.
      f_equal.
      replace (String.length s - (String.length s - String.length suffix))
        with (String.length suffix) by lia.
      exact E.
    - intros [stem ->]. rewrite length_append. split; [lia|].
      replace (String.length stem + String.length suffix
               - String.length suffix) with (String.length stem) by lia.
      rewrite substring_skip. apply substring_all. }
  split; apply Suffix.
Qed.

(** ** Selection of the images *)

(** What [filterM] keeps passed the pure part of the predicate. *)
Lemma filterM_passed {S A} (q : A -> M S bool) (g : A -> bool) (l : list A) :
  forall s kept s',
    filterM (fun a => b <- q a ;; ret (b && g a)) l s = (Ok kept, s') ->
    forall a, In a kept -> g a = true.
Proof.
  induction l as [|x l IH]; simpl; intros s kept s' E a Ha.
  - inversion E; subst. contradiction.
  - unfold bind at 1 2 in E.
    destruct (q x s) as [[b|e] s1]; [|discriminate].
    unfold ret at 1 in E. unfold bind in E.
    destruct (filterM _ l s1) as [[kept'|e] s2] eqn:F; [|discriminate].
    unfold ret in E. inversion E; subst; clear E.
    destruct (b && g x) eqn:K.
    + destruct Ha as [<-|Ha].
      * now apply andb_true_iff in K.
      * eapply IH; eassumption.
    + eapply IH; eassumption.
Qed.

Lemma filterM_length {S A} (p : A -> M S bool) (l : list A) :
  forall s kept s',
    filterM p l s = (Ok kept, s') -> List.length kept <= List.length l.
Proof.
  induction l as [|x l IH]; simpl; intros s kept s' E.
  - inversion E; subst. simpl. lia.
  - unfold bind in E.
    destruct (p x s) as [[b|e] s1]; [|discriminate].
    destruct (filterM p l s1) as [[kept'|e] s2] eqn:F; [|discriminate].
    unfold ret in E. inversion E; subst; clear E.
    specialize (IH _ _ _ F). destruct b; simpl; lia.
Qed.

(** X2.  When the standalone plugin picks its source images among some
    files, every file it keeps is one of the files and ends with the
    extension, no file is kept twice if none was there twice, and the
    picking itself packs nothing, starts no write and calls nobody: only
    the rules of the plugin can come out changed. *)
Theorem sourceImages_picks_images path files st kept st' :
  Plugin.sourceImages path files st = (Ok kept, st') ->
  (forall p, In p kept -> In p files /\ Plugin.isPng p = true) /\
  (NoDup files -> NoDup kept) /\
  List.length kept <= List.length files /\
  Plugin.log st' = Plugin.log st /\
  Plugin.writes st' = Plugin.writes st /\
  Plugin.pending st' = Plugin.pending st.
Proof.
  intros E.
  pose proof (sourceImages_frame path files st) as F.
  rewrite E in F. destruct F as (_ & _ & _ & _ & Fw & Fp & _ & Fl).
  unfold Plugin.sourceImages in E.
  destruct (filterM_kept _ _ _ _ _ E) as [Hin Hnd].
  split; [|split; [exact Hnd|split; [|auto]]].
  - intros p Hp. split; [now apply Hin|].
    eapply (filterM_passed (Plugin.notExcludes path) Plugin.isPng);
      eassumption.
  - eapply filterM_length; eassumption.
Qed.

(** X3.  The same for the in-pipeline plugin: the images it picks are
    names of assets that end with the extension, each once, and the picking
    leaves the assets, the metadata held and the events as they were. *)
Theorem imagesPath_picks_images st images st' :
  Index.imagesPath st = (Ok images, st') ->
  NoDup (keys (Index.assets st)) ->
  (forall p, In p images ->
             get_prop p (Index.assets st) <> None /\
             Index.isPng p = true) /\
  NoDup images /\
  Index.assets st' = Index.assets st /\
  Index._coordinateMeta st' = Index._coordinateMeta st /\
  Index.log st' = Index.log st.
Proof.
  intros E N.
  pose proof (imagesPath_frame st) as F.
  rewrite E in F. destruct F as (_ & Fm & Fa & Fl).
  destruct (imagesPath_kept _ _ _ E) as [Hin Hnd].
  split; [|split; [auto|auto]].
  intros p Hp. split.
  - apply get_prop_key. now apply Hin.
  - unfold Index.imagesPath, bind, get in E.
    eapply (filterM_passed Index.inWhiteList Index.isPng); eassumption.
Qed.

(** *** Rules of the wrong shape *)

Lemma set_excludes_same st : Plugin.set_excludes (Plugin._excludes st) st = st.
Proof. now destruct st. Qed.

Lemma rules_shape_index filePath ist :
  (JS.truthy (Index._includes ist) = false ->
   Index.inWhiteList filePath ist = (Ok true, ist)) /\
  (wrongShape (Index._includes ist) = true ->
   Index.inWhiteList filePath ist =
   (Throw (BadRules "includes" (JS.typeof (Index._includes ist))), ist)).
Proof.
  unfold wrongShape, Index.inWhiteList, bind, get, ret, throw.
  split.
  - intros ->. reflexivity.
  - destruct (Index._includes ist); simpl; try discriminate;
      intros H; rewrite ?H; try reflexivity;
      apply andb_true_iff in H; destruct H as [H _];
      apply andb_true_iff in H; destruct H as [H _];
      now rewrite H.
Qed.

Lemma rules_shape_plugin path filePath st :
  (JS.truthy (Plugin._excludes st) = false ->
   Plugin.notExcludes path filePath st = (Ok true, st)) /\
  (wrongShape (Plugin._excludes st) = true ->
   Plugin.notExcludes path filePath st =
   (Throw (BadRules "excludes" (JS.typeof (Plugin._excludes st))), st)).
Proof.
  unfold wrongShape, Plugin.notExcludes, bind, get, ret, throw.
  split.
  - intros ->. reflexivity.
  - destruct (Plugin._excludes st); simpl; try discriminate;
      intros H; rewrite ?H; try reflexivity;
      apply andb_true_iff in H; destruct H as [H _];
      apply andb_true_iff in H; destruct H as [H _];
      now rewrite H.
Qed.

(** X4.  Rules that are falsy, be they undefined, null, false, zero or the
    empty text, let every path through without a failure; rules that are
    truthy and neither a pattern nor an array make every evaluation fail
    with the name of the option and the typeof of the rules.  This holds in
    either plugin, for every path, and leaves the plugin as it was. *)
Theorem rules_of_wrong_shape path filePath st ist :
  (JS.truthy (Plugin._excludes st) = false ->
   Plugin.notExcludes path filePath st = (Ok true, st)) /\
  (wrongShape (Plugin._excludes st) = true ->
   Plugin.notExcludes path filePath st =
   (Throw (BadRules "excludes" (JS.typeof (Plugin._excludes st))), st)) /\
  (JS.truthy (Index._includes ist) = false ->
   Index.inWhiteList filePath ist = (Ok true, ist)) /\
  (wrongShape (Index._includes ist) = true ->
   Index.inWhiteList filePath ist =
   (Throw (BadRules "includes" (JS.typeof (Index._includes ist))), ist)).
Proof.
  destruct (rules_shape_plugin path filePath st) as [A B].
  destruct (rules_shape_index filePath ist) as [C D].
  repeat split; assumption.
Qed.

Lemma rules_of_wrong_shape_witness :
  let st := exPlugin (JS.VString "icons") in
  let ist := exIndex (JS.VNumber 0) exAssets in
  wrongShape (Plugin._excludes st) = true /\
  JS.truthy (Index._includes ist) = false /\
  fst (Plugin.notExcludes exPath "/w/src/a.png" st) =
  Throw (BadRules "excludes" "string") /\
  fst (Index.inWhiteList "a.png" ist) = Ok true.
Proof.
  intros st ist.
  destruct (rules_of_wrong_shape exPath "/w/src/a.png" st ist)
    as (_ & Hwrong & _ & _).
  destruct (rules_of_wrong_shape exPath "a.png" st ist)
    as (_ & _ & Hfalsy & _).
  split; [reflexivity|]. split; [reflexivity|]. split.
  - rewrite (Hwrong eq_refl). reflexivity.
  - rewrite (Hfalsy eq_refl). reflexivity.
Defined.

(** X5.  In the in-pipeline plugin, rules given as a list leave a path out
    exactly when the path itself is an element of the list: a pattern in
    the list is never tested, so that a list of patterns leaves nothing
    out; and no list makes the evaluation fail or changes the plugin. *)
Theorem inWhiteList_list filePath ist elems :
  Index._includes ist = JS.VArray elems ->
  (exists listed, Index.inWhiteList filePath ist = (Ok listed, ist)) /\
  (fst (Index.inWhiteList filePath ist) = Ok false <->
   In (JS.VString filePath) elems) /\
  ((forall e, In e elems -> isRegExp e = true) ->
   fst (Index.inWhiteList filePath ist) = Ok true).
Proof.
  intros E. unfold Index.inWhiteList, bind, get, ret. rewrite E.
  cbn [JS.truthy negb fst].
  assert (Hin : JS.includes elems filePath = true <->
                In (JS.VString filePath) elems).
  { unfold JS.includes. rewrite existsb_exists. split.
    - intros (v & Hv & Hs). destruct v; try discriminate.
      simpl in Hs. apply String.eqb_eq in Hs. now subst.
    - intros H. exists (JS.VString filePath). split; [exact H|].
      apply String.eqb_refl. }
  split; [eauto|]. split.
  - rewrite <- Hin.
    destruct (JS.includes elems filePath); simpl; split;
      congruence.
  - intros Hre.
    destruct (JS.includes elems filePath); [|reflexivity].
    destruct Hin as [Hin _]. specialize (Hin eq_refl).
    apply Hre in Hin. discriminate.
Qed.

Lemma inWhiteList_list_witness :
  let ist :=
    exIndex (JS.VArray [JS.VRegExp (JS.regexp "x"); JS.VString "y.png"])
            exAssets in
  Index._includes ist =
  JS.VArray [JS.VRegExp (JS.regexp "x"); JS.VString "y.png"] /\
  fst (Index.inWhiteList "x.png" ist) <> Ok false /\
  fst (Index.inWhiteList "y.png" ist) = Ok false.
Proof.
  intros ist.
  destruct (inWhiteList_list "x.png" ist _ eq_refl) as (_ & Hx & _).
  destruct (inWhiteList_list "y.png" ist _ eq_refl) as (_ & Hy & _).
  split; [reflexivity|]. split.
  - intros H. apply Hx in H. simpl in H.
    destruct H as [H|[H|[]]]; discriminate.
  - apply Hy. simpl. auto.
Defined.

(** ** The handler of the in-pipeline plugin, case by case *)

Lemma processAssets_throws path coordinatePath writeFileSync st e st1 :
  Index.imagesPath st = (Throw e, st1) ->
  Index.processAssets path coordinatePath writeFileSync st = (Throw e, st1).
Proof. intros E. unfold Index.processAssets. now apply bind_Throw. Qed.

Lemma processAssets_packer_fails
      path spritesmith coordinatePath writeFileSync st images st1 err :
  Index.imagesPath st = (Ok images, st1) ->
  images <> [] ->
  spritesmith (Index.imagesData path st1 images) = inl err ->
  exists c,
    Index.processAssets path coordinatePath writeFileSync st =
    (Ok [c],
     snd (Index.emit (Index.Packed (Index.imagesData path st1 images)) st1)) /\
    attempt spritesmith
      (Index.processAssets path coordinatePath writeFileSync) st =
    (Throw (PackerFailure err),
     snd (Index.emit (Index.Packed (Index.imagesData path st1 images)) st1)).
Proof.
  intros Himg Hne Hpack.
  destruct images as [|first rest]; [congruence|].
  destruct (processAssets_calls path coordinatePath writeFileSync
                                _ _ _ _ Himg)
    as (c & Hrun & Hsrc & Hfail & _).
  exists c. split; [exact Hrun|].
  unfold attempt. step Hrun.
  unfold answer. cbn [forEachM]. rewrite Hsrc, Hpack.
  unfold bind. now rewrite Hfail.
Qed.

(** X6.  In a pack attempt the in-pipeline plugin calls the packer at most
    once and the host at most once.  The handler itself either makes no
    call of the packer and calls the host back, once, or calls the packer,
    once, and returns without calling the host back; the assets and the
    metadata held are as they were when it returns.  Over the whole
    attempt, the host is called back exactly when the attempt ends well,
    and then as the last thing of it; an attempt that ends with a failure,
    be it of the rules, of the packer or of the write of the metadata, has
    not called the host back. *)
Theorem processAssets_calls_back_once
        path spritesmith coordinatePath writeFileSync st :
  let handler := Index.processAssets path coordinatePath writeFileSync in
  let run := attempt spritesmith handler st in
  (exists returned,
      Index.log (snd (handler st)) = Index.log st ++ returned /\
      Index.assets (snd (handler st)) = Index.assets st /\
      Index._coordinateMeta (snd (handler st)) = Index._coordinateMeta st /\
      match fst (handler st) with
      | Ok calls =>
          List.length calls = packerCalls returned /\
          callbacks returned + packerCalls returned = 1
      | Throw _ => returned = []
      end) /\
  exists events,
    Index.log (snd run) = Index.log st ++ events /\
    packerCalls events <= 1 /\
    match fst run with
    | Ok _ =>
        exists before,
          events = before ++ [Index.Callback] /\ callbacks before = 0
    | Throw _ => callbacks events = 0
    end.
Proof.
  intros handler run. subst run handler.
  pose proof (imagesPath_frame st) as F.
  destruct (Index.imagesPath st) as [[images|e] st1] eqn:Himg;
    destruct F as (Fo & Fm & Fa & Fl); cbn [snd] in *.
  - destruct images as [|first rest].
    + pose proof (processAssets_no_images
                    path coordinatePath writeFileSync _ _ Himg) as E.
      rewrite (attempt_none _ _ _ _ E), E.
      cbn [fst snd Index.emit modify Index.log Index.assets
           Index._coordinateMeta].
      rewrite Fl, Fa, Fm. split.
      * exists [Index.Callback]. repeat split.
      * exists [Index.Callback].
        split; [reflexivity|]. split; [cbn; lia|].
        exists []. split; reflexivity.
    + destruct (spritesmith (Index.imagesData path st1 (first :: rest)))
        as [err|res] eqn:Hpack.
      * destruct (processAssets_packer_fails
                    _ _ coordinatePath writeFileSync _ _ _ _ Himg
                    ltac:(discriminate) Hpack) as (c & Hrun & E).
        rewrite E, Hrun.
        cbn [fst snd Index.emit modify Index.log Index.assets
             Index._coordinateMeta].
        rewrite Fl, Fa, Fm. split.
        -- eexists [_]. repeat split.
        -- eexists [_]. split; [reflexivity|]. cbn. split; lia.
      * assert (P : packs path spritesmith st (first :: rest) res).
        { exists st1. split; [exact Himg|].
          split; [discriminate | exact Hpack]. }
        destruct (processAssets_calls path coordinatePath writeFileSync
                                      _ _ _ _ Himg)
          as (c & Hrun & _).
        destruct (processAssets_packs _ _ coordinatePath writeFileSync
                                      _ _ _ P)
          as (first' & rest' & st1' & _ & Himg' & E).
        cbv zeta in E. rewrite E, Hrun.
        cbn [fst snd Index.emit modify Index.log Index.assets
             Index._coordinateMeta].
        rewrite Fl, Fa, Fm. split.
        -- eexists [_]. repeat split.
        -- eexists. split; [reflexivity|].
           unfold writeOutcome.
           destruct (isEqual (Index._coordinateMeta st)
                             (Index.coordinateMeta path res)); cbn.
           ++ split; [lia|]. eexists [_]. split; reflexivity.
           ++ destruct (writeFileSync coordinatePath
                          (Index.coordinateMeta path res)); cbn.
              ** split; lia.
              ** split; [lia|]. eexists [_; _]. split; reflexivity.
  - pose proof (processAssets_throws
                  path coordinatePath writeFileSync _ _ _ Himg) as E.
    rewrite (attempt_throws _ _ _ _ _ E), E. cbn [fst snd].
    rewrite Fl, Fa, Fm. split.
    + exists []. rewrite app_nil_r. repeat split.
    + exists []. rewrite app_nil_r. cbn. repeat split; lia.
Qed.

(** X7.  When the packer fails, the handler of the in-pipeline plugin has
    returned when the failure comes: it returned well, with the packer
    called once and nothing else done.  The failure is thrown when the
    packer answers, to nobody; nothing is done then, so that the assets
    are all there, the metadata held is the one held before, and the host
    is never called back. *)
Theorem processAssets_packer_failure
        path spritesmith coordinatePath writeFileSync st images st1 err :
  Index.imagesPath st = (Ok images, st1) ->
  images <> [] ->
  spritesmith (Index.imagesData path st1 images) = inl err ->
  let handler := Index.processAssets path coordinatePath writeFileSync in
  let run := attempt spritesmith handler st in
  (exists c, fst (handler st) = Ok [c]) /\
  snd run = snd (handler st) /\
  fst run = Throw (PackerFailure err) /\
  Index.log (snd run) =
  Index.log st ++ [Index.Packed (Index.imagesData path st1 images)] /\
  callbacks (Index.log (snd run)) = callbacks (Index.log st) /\
  Index.assets (snd run) = Index.assets st /\
  Index._coordinateMeta (snd run) = Index._coordinateMeta st.
Proof.
  intros Himg Hne Hpack handler run. subst run handler.
  destruct (processAssets_packer_fails _ _ coordinatePath writeFileSync
                                       _ _ _ _ Himg Hne Hpack)
    as (c & Hrun & E).
  rewrite E, Hrun.
  pose proof (imagesPath_frame st) as F. rewrite Himg in F.
  destruct F as (Fo & Fm & Fa & Fl). cbn in *.
  rewrite Fl, Fa, Fm.
  split; [eauto|]. split; [reflexivity|]. split; [reflexivity|].
  split; [reflexivity|]. split; [|auto].
  unfold callbacks. rewrite filter_app, length_app. cbn. lia.
Qed.

(** X8.  Rules of the wrong shape are found out when the first asset is
    looked at, not before: with one asset at least the handler of the
    in-pipeline plugin throws the failure of the rules and does nothing,
    not even call the host back; with no asset at all it does not see the
    rules, and calls the host back. *)
Theorem processAssets_wrong_rules path coordinatePath writeFileSync st :
  wrongShape (Index._includes st) = true ->
  let handler := Index.processAssets path coordinatePath writeFileSync in
  (Index.assets st = [] ->
   handler st = (Ok [], snd (Index.emit Index.Callback st)) /\
   forall spritesmith,
     attempt spritesmith handler st = Index.emit Index.Callback st) /\
  (Index.assets st <> [] ->
   handler st =
   (Throw (BadRules "includes" (JS.typeof (Index._includes st))), st)).
Proof.
  intros W handler. subst handler. split.
  - intros E.
    assert (H : Index.processAssets path coordinatePath writeFileSync st =
                (Ok [], snd (Index.emit Index.Callback st))).
    { apply processAssets_no_images.
      unfold Index.imagesPath, bind, get. now rewrite E. }
    split; [exact H|].
    intros spritesmith. now rewrite (attempt_none _ _ _ _ H).
  - intros Hne. apply processAssets_throws.
    unfold Index.imagesPath, bind, get.
    destruct (Index.assets st) as [|[k v] a]; [congruence|].
    cbn [keys map fst filterM]. unfold bind.
    destruct (rules_shape_index k st) as [_ Hw].
    now rewrite (Hw W).
Qed.

(** X9.  After a pack attempt of the in-pipeline plugin that succeeds, the
    names of the assets are the names before it without the images other
    than the first, in the same order: the first image keeps its place, and
    there are as many assets less as there were other images. *)
Theorem processAssets_keeps_order
        path spritesmith coordinatePath writeFileSync st first rest res :
  NoDup (keys (Index.assets st)) ->
  packs path spritesmith st (first :: rest) res ->
  let after :=
    Index.assets
      (snd (attempt spritesmith
              (Index.processAssets path coordinatePath writeFileSync)
              st)) in
  keys after =
  filter (fun file => negb (mem file rest)) (keys (Index.assets st)) /\
  NoDup (keys after) /\
  List.length after + List.length rest = List.length (Index.assets st).
Proof.
  intros N P after.
  destruct (processAssets_packs _ _ coordinatePath writeFileSync _ _ _ P)
    as (first' & rest' & st1 & Eimg & Himg & E).
  inversion Eimg; subst first' rest'; clear Eimg.
  cbv zeta in E. subst after. rewrite E. cbn [snd Index.assets].
  assert (K : keys (deleteAll rest
                      (Index.replace first (image res) (Index.assets st))) =
              filter (fun file => negb (mem file rest))
                     (keys (Index.assets st)))
    by now rewrite keys_deleteAll, keys_replace.
  split; [exact K|]. split.
  - rewrite K. now apply NoDup_filter.
  - destruct (imagesPath_kept _ _ _ Himg) as [Hin Hnd].
    specialize (Hnd N). inversion Hnd as [|? ? _ Hrest]; subst.
    assert (Hsub : incl rest (keys (Index.assets st)))
      by (intros z Hz; apply Hin; now right).
    rewrite <- (length_map fst), <- (length_map fst (Index.assets st)).
    fold (keys (deleteAll rest
                  (Index.replace first (image res) (Index.assets st)))).
    fold (keys (Index.assets st)). rewrite K.
    clear - N Hrest Hsub.
    revert rest Hrest Hsub.
    induction (keys (Index.assets st)) as [|z l IH]; intros rest Hrest Hsub.
    + destruct rest as [|r rest]; [reflexivity|].
      exfalso. apply (Hsub r). now left.
    + inversion N as [|? ? Hz Hl]; subst. cbn [filter List.length].
      destruct (mem z rest) eqn:Mz; cbn [negb List.length].
      * apply mem_In in Mz.
        destruct (in_split _ _ Mz) as (r1 & r2 & ->).
        assert (Hrest' : NoDup (r1 ++ r2))
          by (eapply NoDup_remove_1; exact Hrest).
        assert (Hnot : ~ In z (r1 ++ r2))
          by (eapply NoDup_remove_2; exact Hrest).
        assert (Hsub' : incl (r1 ++ r2) l).
        { intros w Hw.
          assert (Hw' : In w (r1 ++ z :: r2)).
          { apply in_app_or in Hw. apply in_or_app.
            destruct Hw; [now left | right; now right]. }
          destruct (Hsub w Hw') as [<-|Hl']; [contradiction | exact Hl']. }
        specialize (IH Hl (r1 ++ r2) Hrest' Hsub').
        assert (Efilter :
                  filter (fun file => negb (mem file (r1 ++ z :: r2))) l =
                  filter (fun file => negb (mem file (r1 ++ r2))) l).
        { apply filter_ext_in. intros w Hw. f_equal.
          unfold mem. rewrite !existsb_app. cbn [existsb].
          destruct (w =? z) eqn:Wz; [|reflexivity].
          apply String.eqb_eq in Wz. subst w. contradiction. }
        rewrite Efilter, length_app in *. cbn [List.length]. lia.
      * assert (Hsub' : incl rest l).
        { intros w Hw. destruct (Hsub w Hw) as [<-|Hl']; [|exact Hl'].
          apply mem_In in Hw. congruence. }
        rewrite <- (IH Hl rest Hrest Hsub'). reflexivity.
Qed.

(** ** The metadata of the in-pipeline plugin *)

(** An object filled key by key, the key and the value being read off the
    name of a file. *)
Section Filling.

Variable key : string -> string.
Variable value : string -> json.

Let fill (props : list (string * json)) (file : string) :=
  set_prop (key file) (value file) props.

Lemma filling_other files :
  forall acc k,
    (forall file, In file files -> key file <> k) ->
    get_prop k (fold_left fill files acc) = get_prop k acc.
Proof.
  induction files as [|f files IH]; intros acc k H; [reflexivity|].
  cbn [fold_left]. rewrite IH by (intros z Hz; apply H; now right).
  unfold fill. rewrite get_prop_set_prop.
  destruct (k =? key f) eqn:E; [|reflexivity].
  apply String.eqb_eq in E. exfalso. apply (H f); [now left | auto].
Qed.

Lemma filling_last before file after acc :
  (forall other, In other after -> key other <> key file) ->
  get_prop (key file) (fold_left fill (before ++ file :: after) acc) =
  Some (value file).
Proof.
  intros H. rewrite fold_left_app. cbn [fold_left].
  rewrite filling_other by exact H.
  unfold fill at 1. rewrite get_prop_set_prop.
  now rewrite String.eqb_refl.
Qed.

Lemma filling_named files :
  forall acc k,
    get_prop k (fold_left fill files acc) <> None ->
    get_prop k acc <> None \/
    exists file, In file files /\ k = key file.
Proof.
  induction files as [|f files IH]; intros acc k H; [now left|].
  cbn [fold_left] in H. destruct (IH _ _ H) as [G|(z & Hz & E)].
  - unfold fill in G. rewrite get_prop_set_prop in G.
    destruct (k =? key f) eqn:E.
    + apply String.eqb_eq in E. right. exists f. split; [now left | exact E].
    + now left.
  - right. exists z. split; [now right | exact E].
Qed.

Lemma set_prop_keys k v props :
  NoDup (keys props) -> NoDup (keys (set_prop k v props)).
Proof.
  induction props as [|[k' w] props IH]; intros N.
  - simpl. constructor; [intros [] | constructor].
  - inversion N as [|? ? Hk Hn]; subst. cbn [set_prop].
    destruct (k' =? k) eqn:E; cbn [keys map fst].
    + exact N.
    + constructor; [|now apply IH].
      intros Hin. apply get_prop_key in Hin.
      rewrite get_prop_set_prop in Hin.
      rewrite E in Hin. apply Hk. now apply get_prop_key.
Qed.

Lemma set_prop_length k v props :
  List.length (set_prop k v props) <= S (List.length props).
Proof.
  induction props as [|[k' w] props IH]; simpl; [lia|].
  destruct (k' =? k); simpl; lia.
Qed.

Lemma set_prop_values (P : json -> Prop) k v props :
  P v -> Forall (fun kv => P (snd kv)) props ->
  Forall (fun kv => P (snd kv)) (set_prop k v props).
Proof.
  intros Hv. induction 1 as [|[k' w] props Hw Hps IH]; simpl.
  - constructor; [exact Hv | constructor].
  - destruct (k' =? k); constructor; auto.
Qed.

Lemma filling_keys files :
  forall acc, NoDup (keys acc) -> NoDup (keys (fold_left fill files acc)).
Proof.
  induction files as [|f files IH]; intros acc N; [exact N|].
  cbn [fold_left]. apply IH. now apply set_prop_keys.
Qed.

Lemma filling_length files :
  forall acc,
    List.length (fold_left fill files acc)
    <= List.length files + List.length acc.
Proof.
  induction files as [|f files IH]; intros acc; [simpl; lia|].
  cbn [fold_left List.length]. specialize (IH (fill acc f)).
  pose proof (set_prop_length (key f) (value f) acc). unfold fill in *. lia.
Qed.

Lemma filling_values (P : json -> Prop) files :
  (forall file, P (value file)) ->
  forall acc,
    Forall (fun kv => P (snd kv)) acc ->
    Forall (fun kv => P (snd kv)) (fold_left fill files acc).
Proof.
  intros Hv. induction files as [|f files IH]; intros acc H; [exact H|].
  cbn [fold_left]. apply IH. now apply set_prop_values.
Qed.

End Filling.

(** The loop of lines 102-104 fills the frames and leaves the width and
    the height where they are. *)
Lemma set_frames_loop path coords w h files :
  forall frames,
    fold_left
      (fun meta relativePath =>
         Index.set_frame (Path.api_basename path relativePath)
                         (Index.coordinate coords relativePath) meta)
      files [("width", w); ("height", h); ("frames", JObject frames)] =
    [("width", w); ("height", h);
     ("frames",
      JObject
        (fold_left
           (fun frames relativePath =>
              set_prop (Path.api_basename path relativePath)
                       (Index.coordinate coords relativePath) frames)
           files frames))].
Proof.
  induction files as [|f files IH]; intros frames; [reflexivity|].
  cbn [fold_left]. rewrite <- IH. reflexivity.
Qed.

Lemma coordinateMeta_frames path res :
  Index.coordinateMeta path res =
  JObject
    [("width", JNumber (properties_width res));
     ("height", JNumber (properties_height res));
     ("frames",
      JObject
        (fold_left
           (fun frames relativePath =>
              set_prop (Path.api_basename path relativePath)
                       (Index.coordinate (coordinates res) relativePath)
                       frames)
           (keys (coordinates res)) []))].
Proof.
  unfold Index.coordinateMeta. f_equal.
  apply (set_frames_loop path (coordinates res)).
Qed.

Lemma rect_object_wf r : wf (rect_object r).
Proof.
  unfold rect_object. apply wf_object. split.
  - cbn. repeat (constructor; [simpl; intuition discriminate|]).
    constructor.
  - repeat constructor.
Qed.

(** The metadata is an object of the language. *)
Lemma coordinateMeta_wf path res : wf (Index.coordinateMeta path res).
Proof.
  rewrite coordinateMeta_frames. apply wf_object. split.
  - cbn. repeat (constructor; [simpl; intuition discriminate|]).
    constructor.
  - constructor; [exact I|]. constructor; [exact I|].
    constructor; [|constructor]. cbn [snd].
    apply wf_object. split.
    + apply filling_keys. constructor.
    + apply filling_values; [|constructor].
      intros file. unfold Index.coordinate.
      destruct (get_prop file (coordinates res));
        [apply rect_object_wf | exact I].
Qed.

(** X10.  The metadata of the in-pipeline plugin is an object with the
    width and the height the packer reports and with the frames.  A frame
    is named by the base name of the path of its placement and holds the
    rectangle of the placement as the packer gave it, unless a later
    placement has the same base name, whose rectangle then takes its place;
    every frame is the frame of a placement, no name occurs twice, and
    there are at most as many frames as placements. *)
Theorem coordinateMeta_shape path res :
  exists frames,
    Index.coordinateMeta path res =
    JObject [("width", JNumber (properties_width res));
             ("height", JNumber (properties_height res));
             ("frames", JObject frames)] /\
    NoDup (keys frames) /\
    List.length frames <= List.length (coordinates res) /\
    (forall key,
        get_prop key frames <> None ->
        exists relativePath,
          In relativePath (keys (coordinates res)) /\
          key = Path.api_basename path relativePath) /\
    (NoDup (keys (coordinates res)) ->
     forall before relativePath r after,
       coordinates res = before ++ (relativePath, r) :: after ->
       (forall other, In other (keys after) ->
                      Path.api_basename path other <>
                      Path.api_basename path relativePath) ->
       get_prop (Path.api_basename path relativePath) frames =
       Some (rect_object r)).
Proof.
  eexists. split; [apply coordinateMeta_frames|].
  split; [apply filling_keys; constructor|].
  split.
  { pose proof (filling_length
                  (Path.api_basename path)
                  (Index.coordinate (coordinates res))
                  (keys (coordinates res)) []) as L.
    unfold keys in L at 2. rewrite length_map in L. simpl in L.
    rewrite Nat.add_0_r in L. exact L. }
  split.
  - intros key H.
    destruct (filling_named _ _ _ _ _ H) as [G|G];
      [now simpl in G | exact G].
  - intros N before relativePath r after E Hlater.
    assert (Hk : keys (coordinates res) =
                 keys before ++ relativePath :: keys after).
    { rewrite E. unfold keys. now rewrite map_app. }
    rewrite Hk at 1.
    rewrite (filling_last (Path.api_basename path)
                          (Index.coordinate (coordinates res))
                          _ _ _ _ Hlater).
    unfold Index.coordinate.
    rewrite (get_prop_NoDup relativePath (coordinates res) r N);
      [reflexivity|].
    rewrite E. apply in_or_app. right. now left.
Qed.

(** X11.  The first pack attempt of an in-pipeline plugin that succeeds
    always writes the metadata: a plugin just constructed holds no
    metadata, and no metadata is equal to none.  The attempt calls the
    packer, writes, and calls the host back unless the write throws; the
    metadata is held from then on in either case. *)
Theorem first_pack_writes
        path spritesmith coordinatePath writeFileSync st images res :
  Index._coordinateMeta st = JNull ->
  packs path spritesmith st images res ->
  let meta := Index.coordinateMeta path res in
  let run :=
    attempt spritesmith
      (Index.processAssets path coordinatePath writeFileSync) st in
  exists data,
    Index.log (snd run) =
    Index.log st
    ++ [Index.Packed data; Index.WriteFileSync coordinatePath meta]
    ++ match writeFileSync coordinatePath meta with
       | None => [Index.Callback]
       | Some _ => []
       end /\
    fst run =
    match writeFileSync coordinatePath meta with
    | None => Ok tt
    | Some err => Throw (WriteFailure err)
    end /\
    Index._coordinateMeta (snd run) = meta.
Proof.
  intros Hnull P meta run.
  destruct (processAssets_packs _ _ coordinatePath writeFileSync _ _ _ P)
    as (first & rest & st1 & -> & Himg & E).
  assert (Hdiff : isEqual JNull (Index.coordinateMeta path res) = false)
    by (rewrite coordinateMeta_frames; reflexivity).
  cbv zeta in E. unfold writeOutcome in E.
  rewrite Hnull, Hdiff in E. subst run. rewrite E.
  cbn [fst snd Index.log Index._coordinateMeta]. fold meta.
  eexists. split; [|split; [|apply cloneDeep_same]].
  - destruct (writeFileSync coordinatePath meta); reflexivity.
  - destruct (writeFileSync coordinatePath meta); reflexivity.
Qed.

(** X12.  When the packer gives a pack attempt of the in-pipeline plugin
    the result it gave the attempt before, the attempt writes no metadata,
    whatever the metadata held before the two attempts and whatever the
    assets of the second. *)
Theorem repeated_pack_writes_nothing
        path spritesmith coordinatePath writeFileSync
        st images res assets2 images2 :
  packs path spritesmith st images res ->
  let st2 :=
    Index.set_assets assets2
      (snd (attempt spritesmith
              (Index.processAssets path coordinatePath writeFileSync)
              st)) in
  packs path spritesmith st2 images2 res ->
  let run2 :=
    attempt spritesmith
      (Index.processAssets path coordinatePath writeFileSync) st2 in
  exists data,
    fst run2 = Ok tt /\
    Index.log (snd run2) =
    Index.log st2 ++ [Index.Packed data; Index.Callback] /\
    Index._coordinateMeta (snd run2) = Index._coordinateMeta st2.
Proof.
  intros P st2 P2 run2.
  destruct (processAssets_packs _ _ coordinatePath writeFileSync _ _ _ P)
    as (first & rest & st1 & -> & Himg & E).
  destruct (processAssets_packs _ _ coordinatePath writeFileSync _ _ _ P2)
    as (first2 & rest2 & st3 & -> & Himg2 & E2).
  cbv zeta in E, E2. subst run2. rewrite E2.
  assert (Held : isEqual (Index._coordinateMeta st2)
                         (Index.coordinateMeta path res) = true).
  { subst st2. rewrite E.
    cbn [snd Index.set_assets Index._coordinateMeta].
    destruct (isEqual (Index._coordinateMeta st)
                      (Index.coordinateMeta path res)) eqn:Same.
    - exact Same.
    - rewrite cloneDeep_same. apply isEqual_refl, coordinateMeta_wf. }
  unfold writeOutcome. rewrite !Held.
  cbn [fst snd Index.log Index._coordinateMeta].
  eexists. repeat split.
Qed.

(** ** The standalone plugin, further *)

Lemma filterM_app {S A} (p : A -> M S bool) (l1 l2 : list A) :
  forall s,
    filterM p (l1 ++ l2) s =
    (kept1 <- filterM p l1 ;;
     kept2 <- filterM p l2 ;;
     ret (kept1 ++ kept2)) s.
Proof.
  induction l1 as [|a l1 IH]; intros s.
  - cbn [app filterM]. unfold bind, ret.
    destruct (filterM p l2 s) as [[kept|e] s']; reflexivity.
  - cbn [app filterM]. unfold bind at 1 3 4.
    destruct (p a s) as [[keep|e] s1]; [|reflexivity].
    unfold bind at 1. rewrite IH. unfold bind, ret.
    destruct (filterM p l1 s1) as [[kept1|e] s2]; [|reflexivity].
    destruct (filterM p l2 s2) as [[kept2|e] s3]; [|reflexivity].
    now destruct keep.
Qed.

(** X13.  In watch mode the folders of the watcher do not matter: picking
    the images folder by folder and putting them together gives what
    picking them in the files of all the folders, one after the other,
    gives, be it a list of images or a failure, with the same plugin after
    it. *)
Theorem flatSourceImages_concat path folders :
  forall st,
    Plugin.flatSourceImages path folders st =
    Plugin.sourceImages path (concat folders) st.
Proof.
  induction folders as [|v folders IH]; intros st; [reflexivity|].
  cbn [Plugin.flatSourceImages concat].
  unfold Plugin.sourceImages at 2. rewrite filterM_app.
  fold (Plugin.sourceImages path v).
  unfold bind.
  destruct (Plugin.sourceImages path v st) as [[here|e] s1]; [|reflexivity].
  rewrite IH. reflexivity.
Qed.

Lemma tested_patterns r r' items :
  forallb isRegExp (Plugin.tested r r' items) = forallb isRegExp items.
Proof.
  unfold Plugin.tested. destruct (JS.global r || JS.sticky r);
    [|reflexivity].
  induction items as [|it items IH]; [reflexivity|].
  cbn [map forallb]. rewrite IH. f_equal.
  destruct it as [ | | | | |q| | | ]; try reflexivity.
  now destruct (JS.identity q =? JS.identity r)%nat.
Qed.

(** On a list of patterns the loop does not fail. *)
Lemma testItems_valid posixPath steps :
  forall idx items,
    forallb isRegExp items = true ->
    exists kept, fst (Plugin.testItems posixPath steps idx items) = Ok kept.
Proof.
  induction steps as [|steps IH]; intros idx items V;
    [eexists; reflexivity|].
  cbn [Plugin.testItems].
  destruct (nth_error items idx) as [it|] eqn:E; [|eexists; reflexivity].
  assert (Hre : isRegExp it = true).
  { rewrite forallb_forall in V. apply V.
    eapply nth_error_In; exact E. }
  destruct it as [ | | | | |r| | | ]; try discriminate.
  destruct (JS.test r posixPath) as [found r'].
  destruct found; [eexists; reflexivity|].
  apply IH. now rewrite tested_patterns.
Qed.

Lemma notExcludes_valid path filePath st :
  validRules (Plugin._excludes st) = true ->
  exists kept, fst (Plugin.notExcludes path filePath st) = Ok kept.
Proof.
  intros V.
  destruct (JS.truthy (Plugin._excludes st)) eqn:T.
  - destruct (Plugin._excludes st) as [ | | b | n | s | r | items | | ] eqn:E;
      try discriminate;
      try (cbn in V, T; try rewrite T in V; cbn in V; discriminate).
    + unfold Plugin.notExcludes, bind, get, ret, modify. rewrite E.
      cbn [JS.truthy negb].
      destruct (JS.test r _) as [found r']. cbn. eexists; reflexivity.
    + rewrite (notExcludes_array _ _ _ _ E).
      apply testItems_valid. exact V.
  - destruct (rules_shape_plugin path filePath st) as [H _].
    rewrite (H T). eexists; reflexivity.
Qed.

Lemma sourceImages_filter path files st :
  validRules (Plugin._excludes st) = true ->
  flaglessRules (Plugin._excludes st) = true ->
  Plugin.sourceImages path files st =
  (Ok (filter (fun p => passes path st p && Plugin.isPng p) files), st).
Proof.
  intros V F. unfold Plugin.sourceImages.
  induction files as [|p files IH]; [reflexivity|].
  cbn [filterM filter].
  destruct (notExcludes_valid path p st V) as [kept Hk].
  pose proof (notExcludes_flagless path p st F) as Hs.
  assert (Hp : (kept <- Plugin.notExcludes path p ;;
                ret (kept && Plugin.isPng p)) st =
               (Ok (passes path st p && Plugin.isPng p), st)).
  { unfold bind, ret, passes. rewrite Hk.
    destruct (Plugin.notExcludes path p st) as [answer s1].
    cbn [fst snd] in Hk, Hs. now subst answer s1. }
  erewrite bind_Ok by exact Hp. cbv beta.
  erewrite bind_Ok by exact IH. cbv beta. unfold ret.
  now destruct (passes path st p && Plugin.isPng p).
Qed.

(** X14.  When the rules are absent, a pattern or an array of patterns,
    and no pattern has the global or the sticky flag, the standalone plugin
    picks its images as a plain filter does: each file is kept or not on
    its own, in the order of the files, a file is kept when the rules let
    it through and it ends with the extension, and the plugin comes out as
    it was. *)
Theorem sourceImages_is_a_filter path files st :
  validRules (Plugin._excludes st) = true ->
  flaglessRules (Plugin._excludes st) = true ->
  Plugin.sourceImages path files st =
  (Ok (filter (fun p => passes path st p && Plugin.isPng p) files), st).
Proof.
  intros V F. unfold Plugin.sourceImages.
  induction files as [|p files IH]; [reflexivity|].
  cbn [filterM filter].
  destruct (notExcludes_valid path p st V) as [kept Hk].
  pose proof (notExcludes_flagless path p st F) as Hs.
  assert (Hp : (kept <- Plugin.notExcludes path p ;;
                ret (kept && Plugin.isPng p)) st =
               (Ok (passes path st p && Plugin.isPng p), st)).
  { unfold bind, ret, passes. rewrite Hk.
    destruct (Plugin.notExcludes path p st) as [answer s1].
    cbn [fst snd] in Hk, Hs. now subst answer s1. }
  erewrite bind_Ok by exact Hp. cbv beta.
  erewrite bind_Ok by exact IH. cbv beta. unfold ret.
  now destruct (passes path st p && Plugin.isPng p).
Qed.

Lemma sourceImages_is_a_filter_witness :
  let st := exPlugin (JS.VArray [JS.VRegExp (JS.regexp "b.png")]) in
  validRules (Plugin._excludes st) = true /\
  flaglessRules (Plugin._excludes st) = true /\
  Plugin.sourceImages exPath
    ["/w/src/a.png"; "/w/src/b.png"; "/w/src/c.txt"; "/w/src/d.png"] st =
  (Ok ["/w/src/a.png"; "/w/src/d.png"], st).
Proof.
  intros st. split; [reflexivity|]. split; [reflexivity|].
  rewrite (sourceImages_is_a_filter exPath _ st eq_refl eq_refl).
  reflexivity.
Defined.

Lemma attempt_step {S A B} (spritesmith : A -> string + PackResult)
      (m : M S B) (k : B -> M S (list (call S A))) s b s' :
  m s = (Ok b, s') ->
  attempt spritesmith (bind m k) s = attempt spritesmith (k b) s'.
Proof. intros E. unfold attempt, bind. now rewrite E. Qed.

(** X15.  In production mode, when the scan gives images, the handler
    calls the packer and returns: when it returns it has started no write,
    left no promise and not called the host back.  When the packer answers
    with a failure, the failure is thrown to nobody and nothing is done, so
    that no write is started, no promise is left and the host is never
    called back; when it answers with a result, the write of the manifest
    and then the write of the sheet are started, and one promise waits for
    these two writes. *)
Theorem beforeRun_with_images path spritesmith cwd scanned st images st1 :
  Plugin.sourceImages path
    (map (fun v => Path.api_join path cwd v) scanned) st =
  (Ok images, st1) ->
  images <> [] ->
  let handler := Plugin.beforeRun path cwd scanned in
  let run := attempt spritesmith handler st in
  (exists c, fst (handler st) = Ok [c] /\ call_src c = images) /\
  Plugin.log (snd (handler st)) = Plugin.log st ++ [Plugin.Packed images] /\
  Plugin.writes (snd (handler st)) = Plugin.writes st /\
  Plugin.pending (snd (handler st)) = Plugin.pending st /\
  match spritesmith images with
  | inl err =>
      fst run = Throw (PackerFailure err) /\
      snd run = snd (handler st)
  | inr res =>
      fst run = Ok tt /\
      Plugin.log (snd run) =
      Plugin.log st
      ++ [Plugin.Packed images;
          Plugin.WriteFile (Plugin.writes st) (Plugin.manifestPath st)
            (Plugin.Utf8 (Plugin.metadata path (coordinates res)));
          Plugin.WriteFile (S (Plugin.writes st)) (Plugin.spriteImagePath st)
            (Plugin.Binary (image res))] /\
      Plugin.writes (snd run) = S (S (Plugin.writes st)) /\
      Plugin.pending (snd run) =
      Plugin.pending st ++ [[Plugin.writes st; S (Plugin.writes st)]]
  end.
Proof.
  intros Himg Hne handler run. subst run handler.
  pose proof (sourceImages_frame
                path (map (fun v => Path.api_join path cwd v) scanned) st)
    as F.
  rewrite Himg in F. cbn [snd] in F.
  destruct F as (_ & _ & Fs & Fm & Fw & Fp & Fh & Fl).
  destruct images as [|first rest]; [congruence|].
  destruct (generateSpriteSheet_calls path (first :: rest) true st1)
    as (c & Hrun & Hsrc & _).
  assert (E : Plugin.beforeRun path cwd scanned st =
              (Ok [c],
               snd (Plugin.emit (Plugin.Packed (first :: rest)) st1))).
  { unfold Plugin.beforeRun. rewrite (bind_Ok _ _ _ _ _ Himg).
    exact Hrun. }
  assert (Ea : attempt spritesmith (Plugin.beforeRun path cwd scanned) st =
               attempt spritesmith
                 (Plugin.generateSpriteSheet path (first :: rest) true) st1).
  { unfold Plugin.beforeRun. now rewrite (attempt_step _ _ _ _ _ _ Himg). }
  rewrite E, Ea. cbn [fst snd].
  split; [eauto|].
  split; [cbn; now rewrite Fl|]. split; [cbn; exact Fw|].
  split; [cbn; exact Fp|].
  destruct (spritesmith (first :: rest)) as [err|res] eqn:Hpack.
  - rewrite (generateSpriteSheet_fails _ _ _ _ _ _ Hpack).
    split; reflexivity.
  - rewrite (generateSpriteSheet_run _ _ _ _ _ _ Hpack).
    cbn. rewrite Fl, Fw, Fp, Fs, Fm. auto.
Qed.

Lemma beforeRun_with_images_witness :
  Plugin.sourceImages exPath
    (map (fun v => Path.api_join exPath "/w" v) ["src/a.png"; "src/r.md"])
    (exPlugin JS.VUndefined) =
  (Ok ["/w/src/a.png"], exPlugin JS.VUndefined) /\
  ["/w/src/a.png"] <> [] /\
  Plugin.pending
    (snd (Plugin.beforeRun exPath "/w" ["src/a.png"; "src/r.md"]
            (exPlugin JS.VUndefined))) = [] /\
  Plugin.pending
    (snd (attempt exPacker
            (Plugin.beforeRun exPath "/w" ["src/a.png"; "src/r.md"])
            (exPlugin JS.VUndefined))) = [[0; 1]].
Proof.
  split; [reflexivity|]. split; [discriminate|].
  pose proof (beforeRun_with_images
                exPath exPacker "/w" ["src/a.png"; "src/r.md"]
                (exPlugin JS.VUndefined) ["/w/src/a.png"]
                (exPlugin JS.VUndefined) eq_refl ltac:(discriminate)) as H.
  cbv zeta in H. cbn [exPacker] in H.
  destruct H as (_ & _ & _ & Hp & _ & _ & _ & H).
  split; [exact Hp | exact H].
Defined.

Lemma shouldProcess_run path event filePath st :
  Plugin.shouldProcess path event filePath st =
  if event =? "renamed" then (Ok false, st)
  else
    match Plugin.notExcludes path filePath st with
    | (Ok kept, st') =>
        (Ok (kept
             && negb (Plugin.pathEqual path filePath
                                       (Plugin.spriteImagePath st))
             && negb (Plugin.pathEqual path filePath
                                       (Plugin.manifestPath st))
             && Plugin.isPng filePath), st')
    | (Throw e, st') => (Throw e, st')
    end.
Proof.
  unfold Plugin.shouldProcess.
  destruct (event =? "renamed"); cbn [negb]; [reflexivity|].
  unfold bind.
  pose proof (notExcludes_frame path filePath st) as F.
  destruct (Plugin.notExcludes path filePath st) as [[kept|e] s1];
    [|reflexivity].
  destruct F as (_ & _ & Fs & Fm & _). cbn [snd] in Fs, Fm.
  unfold get, ret. now rewrite Fs, Fm.
Qed.

(** X16.  The handler of the watcher goes on to pack exactly when the event
    is not a renaming, the rules let the path through, the path is
    path-equal neither to the sprite image path nor to the manifest path,
    and the path ends with the extension.  It then does what
    [#spriteProcess] does from the plugin as the evaluation of the rules
    left it; on a renaming the rules are not even looked at. *)
Theorem shouldProcess_iff path gazeIns event filePath st :
  (fst (Plugin.shouldProcess path event filePath st) = Ok true <->
   event <> "renamed" /\
   fst (Plugin.notExcludes path filePath st) = Ok true /\
   Plugin.pathEqual path filePath (Plugin.spriteImagePath st) = false /\
   Plugin.pathEqual path filePath (Plugin.manifestPath st) = false /\
   Plugin.isPng filePath = true) /\
  (fst (Plugin.shouldProcess path event filePath st) = Ok true ->
   Plugin.onAll path gazeIns event filePath st =
   Plugin.spriteProcess path gazeIns
     (snd (Plugin.notExcludes path filePath st))) /\
  (event = "renamed" ->
   Plugin.onAll path gazeIns event filePath st = (Ok [], st)).
Proof.
  unfold Plugin.onAll, bind. rewrite shouldProcess_run.
  destruct (event =? "renamed") eqn:Ev.
  - apply String.eqb_eq in Ev. cbn [fst]. split; [|split].
    + split; [discriminate|]. intros (H & _). contradiction.
    + discriminate.
    + reflexivity.
  - apply String.eqb_neq in Ev.
    destruct (Plugin.notExcludes path filePath st) as [[kept|e] s1];
      cbn [fst snd].
    + split; [|split].
      * split.
        -- intros H. injection H as H'.
           apply andb_true_iff in H'. destruct H' as [H' Hp].
           apply andb_true_iff in H'. destruct H' as [H' Hm].
           apply andb_true_iff in H'. destruct H' as [Hk Hs].
           apply negb_true_iff in Hm, Hs. subst kept.
           split; [exact Ev|]. split; [reflexivity|]. auto.
        -- intros (_ & Hk & Hs & Hm & Hp). inversion Hk; subst.
           now rewrite Hs, Hm, Hp.
      * intros H. injection H as H'. now rewrite H'.
      * intros H. contradiction.
    + split; [|split].
      * split; [discriminate|]. intros (_ & H & _). discriminate.
      * discriminate.
      * intros H. contradiction.
Qed.

(** ** Promises and writes *)

Lemma settleAll_accounting id o ps :
  List.length (fst (Plugin.settleAll id o ps))
  + snd (Plugin.settleAll id o ps) = List.length ps.
Proof.
  induction ps as [|waiting ps IH]; [reflexivity|].
  cbn [Plugin.settleAll].
  destruct (Plugin.settleAll id o ps) as [rest n]. cbn [fst snd] in IH.
  destruct (Plugin.settleOne id o waiting); cbn [fst snd List.length]; lia.
Qed.

Lemma pluginCallbacks_app l1 l2 :
  pluginCallbacks (l1 ++ l2) = pluginCallbacks l1 + pluginCallbacks l2.
Proof. unfold pluginCallbacks. now rewrite filter_app, length_app. Qed.

Lemma pluginCallbacks_repeat n :
  pluginCallbacks (repeat Plugin.Callback n) = n.
Proof.
  induction n as [|n IH]; [reflexivity|].
  unfold pluginCallbacks in *. cbn. now rewrite IH.
Qed.

(** X17.  The end of a write settles some of the pending promises and
    calls the host back once for each promise it settles, never for a
    promise that stays pending and never twice: the calls of the host and
    the pending promises together are as many after it as before it.  It
    starts no write, and it raises nothing to the process unless the write
    ended rejected. *)
Theorem settle_accounting id o st :
  let run := Plugin.settle id o st in
  (fst run = Ok tt \/
   o = Plugin.Rejected /\ fst run = Throw (UnhandledRejection id)) /\
  pluginCallbacks (Plugin.log (snd run)) + List.length (Plugin.pending (snd run))
  = pluginCallbacks (Plugin.log st) + List.length (Plugin.pending st) /\
  List.length (Plugin.pending (snd run)) <= List.length (Plugin.pending st) /\
  Plugin.writes (snd run) = Plugin.writes st.
Proof.
  intros run. subst run. rewrite settle_run.
  cbn [fst snd Plugin.log Plugin.pending Plugin.writes].
  pose proof (settleAll_accounting id o (Plugin.pending st)) as A.
  split; [|split; [|split; [lia | reflexivity]]].
  - destruct o; [now left|].
    destruct (negb (existsb (Nat.eqb id) (Plugin.handled st))
              || (0 <? snd (Plugin.settleAll id Plugin.Rejected
                              (Plugin.pending st)))%nat);
      [right | left]; auto.
  - rewrite pluginCallbacks_app.
    change (Plugin.Settled id o :: repeat Plugin.Callback
              (snd (Plugin.settleAll id o (Plugin.pending st))))
      with ([Plugin.Settled id o] ++ repeat Plugin.Callback
              (snd (Plugin.settleAll id o (Plugin.pending st)))).
    rewrite pluginCallbacks_app, pluginCallbacks_repeat.
    cbn. lia.
Qed.

Lemma not_handled id (hs : list nat) :
  (forall h, In h hs -> h < id) -> existsb (Nat.eqb id) hs = false.
Proof.
  intros H. induction hs as [|h hs IH]; [reflexivity|].
  cbn [existsb]. rewrite IH by (intros z Hz; apply H; now right).
  specialize (H h (or_introl eq_refl)).
  destruct (Nat.eqb_spec id h); [lia | reflexivity].
Qed.

(** X18.  Without a callback, as in watch mode, the two writes are left to
    themselves: nothing waits for them and nothing takes their rejection.
    Whichever write ends first, a write that ends fulfilled changes
    nothing, and a write that ends rejected is raised to the process as an
    unhandled rejection, the second write as the first when the process
    goes on; the host is called by neither, and no promise is left. *)
Theorem writes_without_callback path spritesmith sources res st :
  spritesmith sources = inr res ->
  Plugin.pending st = [] ->
  (forall h, In h (Plugin.handled st) -> h < Plugin.writes st) ->
  let m := Plugin.writes st in
  let i := S (Plugin.writes st) in
  let started :=
    attempt spritesmith (Plugin.generateSpriteSheet path sources false) st in
  fst started = Ok tt /\
  Plugin.writes (snd started) = S (S (Plugin.writes st)) /\
  forall first second o1 o2,
    (first = m /\ second = i) \/ (first = i /\ second = m) ->
    let one := Plugin.settle first o1 (snd started) in
    let two := Plugin.settle second o2 (snd one) in
    fst one =
    match o1 with
    | Plugin.Rejected => Throw (UnhandledRejection first)
    | Plugin.Fulfilled => Ok tt
    end /\
    fst two =
    match o2 with
    | Plugin.Rejected => Throw (UnhandledRejection second)
    | Plugin.Fulfilled => Ok tt
    end /\
    Plugin.log (snd two) =
    Plugin.log (snd started)
    ++ [Plugin.Settled first o1; Plugin.Settled second o2] /\
    Plugin.pending (snd two) = [] /\
    pluginCallbacks (Plugin.log (snd two)) = pluginCallbacks (Plugin.log st).
Proof.
  intros Hpack Hp Hh m i started. subst started.
  rewrite (generateSpriteSheet_run _ _ _ _ _ _ Hpack).
  cbn [fst snd Plugin.writes].
  split; [reflexivity|]. split; [reflexivity|].
  intros first second o1 o2 Horder. cbv zeta.
  rewrite !settle_run.
  cbn [fst snd Plugin.pending Plugin.handled Plugin.log].
  rewrite Hp. cbn [Plugin.settleAll fst snd repeat Nat.ltb Nat.leb].
  assert (H1 : existsb (Nat.eqb first) (Plugin.handled st) = false).
  { apply not_handled. intros h Hin. specialize (Hh h Hin).
    subst m i. destruct Horder as [[-> _]|[-> _]]; lia. }
  assert (H2 : existsb (Nat.eqb second) (Plugin.handled st) = false).
  { apply not_handled. intros h Hin. specialize (Hh h Hin).
    subst m i. destruct Horder as [[_ ->]|[_ ->]]; lia. }
  rewrite H1, H2. cbn [negb orb].
  split; [now destruct o1|]. split; [now destruct o2|].
  split; [now rewrite <- !app_assoc|]. split; [reflexivity|].
  rewrite !pluginCallbacks_app. cbn. lia.
Qed.

Lemma writes_without_callback_witness :
  exPacker ["/w/src/a.png"] = inr exResult /\
  Plugin.pending (exPlugin JS.VUndefined) = [] /\
  let started :=
    attempt exPacker
      (Plugin.generateSpriteSheet exPath ["/w/src/a.png"] false)
      (exPlugin JS.VUndefined) in
  fst (Plugin.settle 1 Plugin.Rejected (snd started)) =
  Throw (UnhandledRejection 1) /\
  fst (Plugin.settle 0 Plugin.Fulfilled
         (snd (Plugin.settle 1 Plugin.Rejected (snd started)))) = Ok tt.
Proof.
  split; [reflexivity|]. split; [reflexivity|].
  destruct (writes_without_callback
              exPath exPacker ["/w/src/a.png"] exResult
              (exPlugin JS.VUndefined) eq_refl eq_refl)
    as (_ & _ & H).
  - intros h [].
  - destruct (H 1 0 Plugin.Rejected Plugin.Fulfilled
                (or_intror (conj eq_refl eq_refl)))
      as (H1 & H2 & _).
    split; [exact H1 | exact H2].
Defined.

(** ** Separators, further *)

Lemma length_replaceAll from to s :
  String.length (replaceAll from to s) = String.length s.
Proof. induction s as [|c s IH]; simpl; [reflexivity | now rewrite IH]. Qed.

Lemma replaceAll_twice from to s :
  replaceAll from to (replaceAll from to s) = replaceAll from to s.
Proof.
  induction s as [|c s IH]; [reflexivity|].
  cbn [replaceAll]. rewrite IH. f_equal.
  destruct (Ascii.eqb c from) eqn:E; [|now rewrite E].
  destruct (Ascii.eqb to from); reflexivity.
Qed.

Lemma replaceAll_same c s : replaceAll c c s = s.
Proof.
  induction s as [|a s IH]; [reflexivity|].
  cbn [replaceAll]. rewrite IH. f_equal.
  destruct (Ascii.eqb a c) eqn:E; [|reflexivity].
  apply Ascii.eqb_eq in E. now subst.
Qed.

Lemma replaceAll_gone from to s :
  from <> to ->
  ~ In from (list_ascii_of_string (replaceAll from to s)).
Proof.
  intros N. induction s as [|c s IH]; [intros []|].
  cbn [replaceAll list_ascii_of_string]. intros [H|H]; [|auto].
  destruct (Ascii.eqb c from) eqn:E.
  - congruence.
  - apply Ascii.eqb_neq in E. congruence.
Qed.

(** X19.  [#convert2Posix] keeps the length of a path and changes nothing
    in it but the separators of the platform, each of which becomes a
    slash.  Converting twice is converting once; where the separator is the
    slash the path comes out as it went in; where it is not, no separator
    of the platform is left, and a path of another style, whose backslashes
    are no separators on the platform, is not touched. *)
Theorem convert2Posix_properties path v :
  Plugin.convert2Posix path v =
  replaceAll (Path.api_sep path) Path.slash v /\
  String.length (Plugin.convert2Posix path v) = String.length v /\
  Plugin.convert2Posix path (Plugin.convert2Posix path v) =
  Plugin.convert2Posix path v /\
  (Path.api_sep path = Path.slash -> Plugin.convert2Posix path v = v) /\
  (Path.api_sep path <> Path.slash ->
   ~ In (Path.api_sep path)
        (list_ascii_of_string (Plugin.convert2Posix path v))).
Proof.
  rewrite !convert2Posix_replaceAll.
  split; [reflexivity|]. split; [apply length_replaceAll|].
  split; [apply replaceAll_twice|]. split.
  - intros ->. apply replaceAll_same.
  - apply replaceAll_gone.
Qed.

(** ** The names of the frames on POSIX paths *)

Lemma chars_append a b :
  list_ascii_of_string (a +++ b) =
  list_ascii_of_string a ++ list_ascii_of_string b.
Proof. induction a as [|c a IH]; simpl; [reflexivity | now rewrite IH]. Qed.

Lemma chars_length s :
  List.length (list_ascii_of_string s) = String.length s.
Proof. induction s as [|c s IH]; simpl; [reflexivity | now rewrite IH]. Qed.

Lemma append_assoc a b c : (a +++ b) +++ c = a +++ b +++ c.
Proof. induction a as [|x a IH]; simpl; [reflexivity | now rewrite IH]. Qed.

Lemma substring_prefix a b : substring 0 (String.length a) (a +++ b) = a.
Proof. induction a as [|c a IH]; simpl; [now destruct b | now rewrite IH]. Qed.

Lemma split_slashFree s :
  slashFree s = true -> JS.split Path.slash s = [s].
Proof.
  unfold slashFree. induction s as [|c s IH]; [reflexivity|].
  cbn [list_ascii_of_string forallb JS.split]. intros H.
  apply andb_true_iff in H. destruct H as [Hc Hs].
  apply negb_true_iff in Hc. rewrite Hc, (IH Hs). reflexivity.
Qed.

(** The last piece of a path that ends with a slash and a text without a
    slash is that text. *)
Lemma split_last before s :
  slashFree s = true ->
  exists pieces,
    JS.split Path.slash (before +++ "/" +++ s) = pieces ++ [s] /\
    pieces <> [].
Proof.
  intros Hs. induction before as [|c before IH].
  - exists [""]. split; [|discriminate].
    cbn. now rewrite (split_slashFree s Hs).
  - destruct IH as (pieces & E & Hne).
    change ((String c before) +++ "/" +++ s)
      with (String c (before +++ "/" +++ s)).
    cbn [JS.split]. rewrite E.
    destruct (Ascii.eqb c Path.slash).
    + exists ("" :: pieces). split; [reflexivity | discriminate].
    + destruct pieces as [|piece pieces]; [congruence|].
      exists (String c piece :: pieces). split; [reflexivity | discriminate].
Qed.

Lemma slashFree_rev s :
  slashFree s = true ->
  forallb (fun c => negb (Ascii.eqb c Path.slash))
          (rev (list_ascii_of_string s)) = true.
Proof.
  unfold slashFree. rewrite !forallb_forall.
  intros H c Hc. apply H. now apply in_rev.
Qed.

Lemma dirnameScan_name name :
  forallb (fun c => negb (Ascii.eqb c Path.slash)) name = true ->
  forall before i,
    Path.dirnameScan (name ++ Path.slash :: before) i false =
    Some (i - List.length name).
Proof.
  induction name as [|c name IH]; intros H before i.
  - cbn. now rewrite Nat.sub_0_r.
  - cbn [forallb] in H. apply andb_true_iff in H. destruct H as [Hc H].
    apply negb_true_iff in Hc.
    cbn [app Path.dirnameScan List.length]. rewrite Hc, IH by exact H.
    f_equal. lia.
Qed.

Lemma dirnameScan_free name :
  forallb (fun c => negb (Ascii.eqb c Path.slash)) name = true ->
  forall i m, Path.dirnameScan name i m = None.
Proof.
  induction name as [|c name IH]; intros H i m; [reflexivity|].
  cbn [forallb] in H. apply andb_true_iff in H. destruct H as [Hc H].
  apply negb_true_iff in Hc. cbn [Path.dirnameScan]. rewrite Hc.
  now apply IH.
Qed.

Lemma basenameScan_name name :
  forallb (fun c => negb (Ascii.eqb c Path.slash)) name = true ->
  forall before i e,
    Path.basenameScan (name ++ Path.slash :: before) i false (Some e) =
    (i - List.length name + 1, Some e).
Proof.
  induction name as [|c name IH]; intros H before i e.
  - cbn. now rewrite Nat.sub_0_r.
  - cbn [forallb] in H. apply andb_true_iff in H. destruct H as [Hc H].
    apply negb_true_iff in Hc.
    cbn [app Path.basenameScan List.length]. rewrite Hc, IH by exact H.
    f_equal. lia.
Qed.

Lemma basenameScan_free name :
  forallb (fun c => negb (Ascii.eqb c Path.slash)) name = true ->
  forall i e, Path.basenameScan name i false (Some e) = (0, Some e).
Proof.
  induction name as [|c name IH]; intros H i e; [reflexivity|].
  cbn [forallb] in H. apply andb_true_iff in H. destruct H as [Hc H].
  apply negb_true_iff in Hc. cbn [Path.basenameScan]. rewrite Hc.
  now apply IH.
Qed.

Lemma rev_nonempty name :
  name <> "" ->
  exists c cs, rev (list_ascii_of_string name) = c :: cs.
Proof.
  intros Hne. destruct (rev (list_ascii_of_string name)) as [|c cs] eqn:E.
  - apply (f_equal (@rev ascii)) in E. rewrite rev_involutive in E.
    destruct name; [congruence | discriminate].
  - eauto.
Qed.

Lemma rev_chars_path dir name :
  rev (list_ascii_of_string (dir +++ "/" +++ name)) =
  rev (list_ascii_of_string name)
  ++ Path.slash :: rev (list_ascii_of_string dir).
Proof.
  rewrite chars_append.
  change (list_ascii_of_string ("/" +++ name))
    with (Path.slash :: list_ascii_of_string name).
  rewrite rev_app_distr. cbn [rev]. now rewrite <- app_assoc.
Qed.

(** The base name of a path that ends with a slash and a name. *)
Lemma basename_of_path dir name :
  slashFree name = true -> name <> "" ->
  Path.basename (dir +++ "/" +++ name) = name.
Proof.
  intros Hs Hne. unfold Path.basename.
  rewrite rev_chars_path.
  pose proof (slashFree_rev name Hs) as Hrev.
  destruct (rev_nonempty name Hne) as (c & cs & E).
  pose proof (f_equal (@List.length ascii) E) as L.
  rewrite length_rev, chars_length in L. cbn [List.length] in L.
  rewrite E in *. cbn [forallb] in Hrev.
  apply andb_true_iff in Hrev. destruct Hrev as [Hc Hcs].
  apply negb_true_iff in Hc.
  cbn [app Path.basenameScan]. rewrite Hc.
  fold Path.slash. rewrite basenameScan_name by exact Hcs.
  rewrite !length_append. cbn [String.length].
  match goal with
  | |- substring ?start ?len _ = _ =>
      replace len with (String.length name) by lia;
      replace start with (String.length (dir +++ String Path.slash ""))
        by (rewrite length_append; cbn [String.length]; lia)
  end.
  rewrite <- append_assoc, substring_skip. apply substring_all.
Qed.

(** The directory of a path that ends with a slash and a name. *)
Lemma dirname_of_path dir name :
  slashFree name = true -> name <> "" -> 1 < String.length dir ->
  Path.dirname (dir +++ "/" +++ name) = dir.
Proof.
  intros Hs Hne Hdir. unfold Path.dirname.
  destruct dir as [|d dir]; [simpl in Hdir; lia|].
  change ((String d dir) +++ "/" +++ name)
    with (String d (dir +++ "/" +++ name)).
  cbn [String.eqb list_ascii_of_string tl].
  rewrite rev_chars_path.
  pose proof (slashFree_rev name Hs) as Hrev.
  destruct (rev_nonempty name Hne) as (c & cs & E).
  pose proof (f_equal (@List.length ascii) E) as L.
  rewrite length_rev, chars_length in L. cbn [List.length] in L.
  rewrite E in *. cbn [forallb] in Hrev.
  apply andb_true_iff in Hrev. destruct Hrev as [Hc Hcs].
  apply negb_true_iff in Hc.
  cbn [app Path.dirnameScan]. rewrite Hc.
  fold Path.slash. rewrite dirnameScan_name by exact Hcs.
  cbn [String.length] in *. rewrite !length_append. cbn [String.length].
  replace (S (String.length dir + (1 + String.length name)) - 1 - 1
           - List.length cs) with (S (String.length dir)) by lia.
  destruct (Nat.eqb_spec (S (String.length dir)) 1) as [H1|_]; [lia|].
  rewrite andb_false_r.
  apply (substring_prefix (String d dir)).
Qed.

(** X20.  On POSIX paths the name of a frame of the standalone plugin is
    made of the last directory of the path and of its base name only, and
    the name of a frame of the in-pipeline plugin of its base name only:
    whatever comes before the last directory plays no part, so that two
    images of the same name in directories of the same name have the same
    frame name.  A path without any directory gets a dot for directory. *)
Theorem fileName_posix cwd name :
  slashFree name = true -> name <> "" ->
  Plugin.fileName (Path.posix_api cwd) name = "._" +++ name /\
  forall before dir,
    slashFree dir = true -> dir <> "" ->
    Plugin.fileName (Path.posix_api cwd)
                    (before +++ "/" +++ dir +++ "/" +++ name) =
    dir +++ "_" +++ name /\
    Path.api_basename (Path.posix_api cwd)
                      (before +++ "/" +++ dir +++ "/" +++ name) = name.
Proof.
  intros Hs Hne. unfold Plugin.fileName.
  cbn [Path.posix_api Path.api_sep Path.api_dirname Path.api_basename].
  split.
  - assert (Hdir : Path.dirname name = ".").
    { unfold Path.dirname.
      destruct name as [|c name]; [congruence|].
      cbn [String.eqb list_ascii_of_string tl].
      unfold slashFree in Hs. cbn [list_ascii_of_string forallb] in Hs.
      apply andb_true_iff in Hs. destruct Hs as [Hc Hrest].
      rewrite dirnameScan_free.
      - cbn [Path.isAbsolute]. apply negb_true_iff in Hc.
        fold Path.slash. now rewrite Hc.
      - rewrite forallb_forall in *. intros x Hx. apply Hrest.
        now apply in_rev. }
    assert (Hbase : Path.basename name = name).
    { unfold Path.basename.
      pose proof (slashFree_rev name Hs) as Hrev.
      destruct (rev_nonempty name Hne) as (c & cs & E).
      rewrite E in *. cbn [forallb] in Hrev.
      apply andb_true_iff in Hrev. destruct Hrev as [Hc Hcs].
      apply negb_true_iff in Hc.
      cbn [Path.basenameScan]. rewrite Hc.
      rewrite basenameScan_free by exact Hcs.
      replace (String.length name - 1 + 1 - 0) with (String.length name).
      - apply substring_all.
      - destruct name; [congruence | cbn; lia]. }
    rewrite Hdir, Hbase. reflexivity.
  - intros before dir Hd Hdne.
    assert (E : before +++ "/" +++ dir +++ "/" +++ name =
                (before +++ "/" +++ dir) +++ "/" +++ name)
      by now rewrite !append_assoc.
    rewrite E.
    rewrite basename_of_path by assumption.
    rewrite dirname_of_path; [|assumption|assumption|].
    + destruct (split_last before dir Hd) as (pieces & Hsplit & _).
      rewrite Hsplit. unfold JS.pop.
      rewrite last_last. auto.
    + rewrite !length_append. cbn [String.length].
      destruct dir; [congruence | cbn; lia].
Qed.

Lemma fileName_posix_witness :
  slashFree "x.png" = true /\ "x.png" <> "" /\
  Plugin.fileName exPath "/w/src/one/icons/x.png" = "icons_x.png" /\
  Plugin.fileName exPath "/w/src/two/icons/x.png" = "icons_x.png" /\
  Plugin.fileName exPath "x.png" = "._x.png".
Proof.
  destruct (fileName_posix "/w" "x.png" eq_refl ltac:(discriminate))
    as (Hbare & Hdeep).
  split; [reflexivity|]. split; [discriminate|].
  split; [|split; [|exact Hbare]].
  - apply (Hdeep "/w/src/one" "icons" eq_refl ltac:(discriminate)).
  - apply (Hdeep "/w/src/two" "icons" eq_refl ltac:(discriminate)).
Defined.

(** ** The further properties at work *)

Lemma sourceImages_picks_images_witness :
  Plugin.sourceImages exPath ["/w/src/a.png"; "/w/src/r.md"]
                      (exPlugin JS.VUndefined) =
  (Ok ["/w/src/a.png"], exPlugin JS.VUndefined) /\
  Plugin.isPng "/w/src/a.png" = true /\
  List.length ["/w/src/a.png"] <= 2.
Proof.
  destruct (sourceImages_picks_images
              exPath ["/w/src/a.png"; "/w/src/r.md"]
              (exPlugin JS.VUndefined) ["/w/src/a.png"]
              (exPlugin JS.VUndefined) eq_refl)
    as (Hpng & _ & Hlen & _).
  split; [reflexivity|]. split; [|exact Hlen].
  apply Hpng. now left.
Defined.

Lemma exAssets_NoDup :
  NoDup (keys (Index.assets (exIndex JS.VUndefined exAssets))).
Proof.
  simpl. repeat (constructor; [simpl; intuition discriminate|]).
  constructor.
Defined.

Lemma imagesPath_picks_images_witness :
  Index.imagesPath (exIndex JS.VUndefined exAssets) =
  (Ok ["x.png"; "y.png"; "z.png"], exIndex JS.VUndefined exAssets) /\
  NoDup (keys (Index.assets (exIndex JS.VUndefined exAssets))) /\
  NoDup ["x.png"; "y.png"; "z.png"] /\
  Index.isPng "z.png" = true.
Proof.
  destruct (imagesPath_picks_images
              (exIndex JS.VUndefined exAssets) ["x.png"; "y.png"; "z.png"]
              (exIndex JS.VUndefined exAssets) eq_refl exAssets_NoDup)
    as (Hpng & Hnd & _).
  split; [reflexivity|]. split; [exact exAssets_NoDup|].
  split; [exact Hnd|].
  apply Hpng. simpl. auto.
Defined.

Example pack_attempt_events :
  let handler := Index.processAssets exPath "/w/coordinate.json" exDisk in
  let st := exIndex JS.VUndefined exAssets in
  Index.log (snd (handler st)) =
  [Index.Packed (Index.imagesData exPath st ["x.png"; "y.png"; "z.png"])] /\
  Index.log (snd (attempt exIndexPacker handler st)) =
  [Index.Packed (Index.imagesData exPath st ["x.png"; "y.png"; "z.png"]);
   Index.WriteFileSync "/w/coordinate.json"
     (Index.coordinateMeta exPath exResult);
   Index.Callback].
Proof. split; reflexivity. Qed.

Lemma processAssets_packer_failure_witness :
  Index.imagesPath (exIndex JS.VUndefined exAssets) =
  (Ok ["x.png"; "y.png"; "z.png"], exIndex JS.VUndefined exAssets) /\
  ["x.png"; "y.png"; "z.png"] <> [] /\
  exFailingPacker
    (Index.imagesData exPath (exIndex JS.VUndefined exAssets)
                      ["x.png"; "y.png"; "z.png"]) = inl "corrupt image" /\
  let handler := Index.processAssets exPath "/w/coordinate.json" exDisk in
  let run :=
    attempt exFailingPacker handler (exIndex JS.VUndefined exAssets) in
  (exists c, fst (handler (exIndex JS.VUndefined exAssets)) = Ok [c]) /\
  fst run = Throw (PackerFailure "corrupt image") /\
  Index.assets (snd run) = exAssets.
Proof.
  split; [reflexivity|]. split; [discriminate|]. split; [reflexivity|].
  destruct (processAssets_packer_failure
              exPath exFailingPacker "/w/coordinate.json" exDisk
              (exIndex JS.VUndefined exAssets) ["x.png"; "y.png"; "z.png"]
              (exIndex JS.VUndefined exAssets) "corrupt image"
              eq_refl ltac:(discriminate) eq_refl)
    as (Hreturns & _ & Hthrow & _ & _ & Hassets & _).
  split; [exact Hreturns|]. split; [exact Hthrow | exact Hassets].
Defined.

Lemma processAssets_wrong_rules_witness :
  wrongShape (Index._includes (exIndex (JS.VString "x") exAssets)) = true /\
  Index.assets (exIndex (JS.VString "x") exAssets) <> [] /\
  Index.processAssets exPath "/w/coordinate.json" exDisk
    (exIndex (JS.VString "x") exAssets) =
  (Throw (BadRules "includes" "string"), exIndex (JS.VString "x") exAssets) /\
  fst (attempt exIndexPacker
         (Index.processAssets exPath "/w/coordinate.json" exDisk)
         (exIndex (JS.VString "x") [])) = Ok tt.
Proof.
  destruct (processAssets_wrong_rules
              exPath "/w/coordinate.json" exDisk
              (exIndex (JS.VString "x") exAssets) eq_refl) as (_ & Hthrow).
  destruct (processAssets_wrong_rules
              exPath "/w/coordinate.json" exDisk
              (exIndex (JS.VString "x") []) eq_refl) as (Hcall & _).
  split; [reflexivity|]. split; [discriminate|]. split.
  - apply Hthrow. discriminate.
  - destruct (Hcall eq_refl) as (_ & Hattempt).
    rewrite (Hattempt exIndexPacker). reflexivity.
Defined.

Lemma processAssets_keeps_order_witness :
  NoDup (keys (Index.assets (exIndex JS.VUndefined exAssets))) /\
  packs exPath exIndexPacker (exIndex JS.VUndefined exAssets)
        ["x.png"; "y.png"; "z.png"] exResult /\
  keys (Index.assets
          (snd (attempt exIndexPacker
                  (Index.processAssets exPath "/w/coordinate.json" exDisk)
                  (exIndex JS.VUndefined exAssets)))) =
  ["x.png"; "main.js"].
Proof.
  split; [exact exAssets_NoDup|]. split; [exact exAssets_packs|].
  destruct (processAssets_keeps_order
              exPath exIndexPacker "/w/coordinate.json" exDisk
              (exIndex JS.VUndefined exAssets)
              "x.png" ["y.png"; "z.png"] exResult
              exAssets_NoDup exAssets_packs) as (Hkeys & _).
  rewrite Hkeys. reflexivity.
Defined.

Lemma coordinateMeta_shape_witness :
  NoDup (keys (coordinates exCollision)) /\
  exists frames,
    Index.coordinateMeta exPath exCollision =
    JObject [("width", JNumber 6); ("height", JNumber 4);
             ("frames", JObject frames)] /\
    get_prop "x.png" frames = Some (rect_object (mkRect 4 0 2 2)) /\
    List.length frames <= 2.
Proof.
  assert (N : NoDup (keys (coordinates exCollision))).
  { simpl. repeat (constructor; [simpl; intuition discriminate|]).
    constructor. }
  split; [exact N|].
  destruct (coordinateMeta_shape exPath exCollision)
    as (frames & E & _ & Hlen & _ & Hframe).
  exists frames. split; [exact E|]. split; [|exact Hlen].
  apply (Hframe N [("one/x.png", mkRect 0 0 4 4)]
                "two/x.png" (mkRect 4 0 2 2) []).
  - reflexivity.
  - intros other [].
Defined.

Lemma first_pack_writes_witness :
  Index._coordinateMeta (exIndex JS.VUndefined exAssets) = JNull /\
  packs exPath exIndexPacker (exIndex JS.VUndefined exAssets)
        ["x.png"; "y.png"; "z.png"] exResult /\
  metadataWrites
    (Index.log
       (snd (attempt exIndexPacker
               (Index.processAssets exPath "/w/coordinate.json" exDisk)
               (exIndex JS.VUndefined exAssets)))) =
  [Index.coordinateMeta exPath exResult].
Proof.
  split; [reflexivity|]. split; [exact exAssets_packs|].
  destruct (first_pack_writes
              exPath exIndexPacker "/w/coordinate.json" exDisk
              (exIndex JS.VUndefined exAssets)
              ["x.png"; "y.png"; "z.png"] exResult eq_refl exAssets_packs)
    as (data & Hlog & _).
  rewrite Hlog. reflexivity.
Defined.

Lemma repeated_pack_second_packs :
  packs exPath exIndexPacker
        (Index.set_assets exAssets
           (snd (attempt exIndexPacker
                   (Index.processAssets exPath "/w/coordinate.json" exDisk)
                   (exIndex JS.VUndefined exAssets))))
        ["x.png"; "y.png"; "z.png"] exResult.
Proof.
  eexists. split; [reflexivity|]. split; [discriminate | reflexivity].
Defined.

Lemma repeated_pack_writes_nothing_witness :
  packs exPath exIndexPacker (exIndex JS.VUndefined exAssets)
        ["x.png"; "y.png"; "z.png"] exResult /\
  packs exPath exIndexPacker
        (Index.set_assets exAssets
           (snd (attempt exIndexPacker
                   (Index.processAssets exPath "/w/coordinate.json" exDisk)
                   (exIndex JS.VUndefined exAssets))))
        ["x.png"; "y.png"; "z.png"] exResult /\
  fst (attempt exIndexPacker
         (Index.processAssets exPath "/w/coordinate.json" exDisk)
         (Index.set_assets exAssets
            (snd (attempt exIndexPacker
                    (Index.processAssets exPath "/w/coordinate.json"
                                         exDisk)
                    (exIndex JS.VUndefined exAssets))))) = Ok tt.
Proof.
  split; [exact exAssets_packs|]. split; [exact repeated_pack_second_packs|].
  destruct (repeated_pack_writes_nothing
              exPath exIndexPacker "/w/coordinate.json" exDisk
              (exIndex JS.VUndefined exAssets)
              ["x.png"; "y.png"; "z.png"] exResult exAssets
              ["x.png"; "y.png"; "z.png"]
              exAssets_packs repeated_pack_second_packs)
    as (data & Hok & _).
  exact Hok.
Defined.

(** ** Watch mode *)

Lemma flatSourceImages_frame path folders st :
  sameButExcludes st (snd (Plugin.flatSourceImages path folders st)).
Proof.
  revert st. induction folders as [|v folders IH]; intros st.
  - apply sameButExcludes_refl.
  - cbn [Plugin.flatSourceImages]. unfold bind.
    pose proof (sourceImages_frame path v st) as F.
    destruct (Plugin.sourceImages path v st) as [[here|e] s1];
      cbn [snd] in *; [|exact F].
    specialize (IH s1).
    destruct (Plugin.flatSourceImages path folders s1) as [[there|e] s2];
      cbn [snd] in *; eapply sameButExcludes_trans; eassumption.
Qed.

(** X21.  [#spriteProcess] fails when there is no watcher, and does
    nothing when the watcher watches no image that the rules let through.
    When there are images it calls the packer with them all, whichever
    file changed, and returns, with no write started.  When the packer
    answers with a failure, the failure is thrown to nobody and no write is
    started; when it answers with a result the two writes are started.  In
    every case no promise is left behind and the host is not called. *)
Theorem spriteProcess_cases path spritesmith watched st images st1 :
  Plugin.spriteProcess path None st = (Throw WatcherNotInitialed, st) /\
  (Plugin.flatSourceImages path (map snd watched) st = (Ok images, st1) ->
   let handler := Plugin.spriteProcess path (Some watched) in
   let run := attempt spritesmith handler st in
   Plugin.pending (snd run) = Plugin.pending st /\
   pluginCallbacks (Plugin.log (snd run)) = pluginCallbacks (Plugin.log st) /\
   match images with
   | [] =>
       fst (handler st) = Ok [] /\
       fst run = Ok tt /\ Plugin.log (snd run) = Plugin.log st
   | _ :: _ =>
       (exists c, fst (handler st) = Ok [c] /\ call_src c = images) /\
       Plugin.log (snd (handler st)) =
       Plugin.log st ++ [Plugin.Packed images] /\
       Plugin.writes (snd (handler st)) = Plugin.writes st /\
       match spritesmith images with
       | inl err =>
           fst run = Throw (PackerFailure err) /\
           snd run = snd (handler st)
       | inr res =>
           fst run = Ok tt /\
           Plugin.log (snd run) =
           Plugin.log st
           ++ [Plugin.Packed images;
               Plugin.WriteFile (Plugin.writes st) (Plugin.manifestPath st)
                 (Plugin.Utf8 (Plugin.metadata path (coordinates res)));
               Plugin.WriteFile (S (Plugin.writes st))
                 (Plugin.spriteImagePath st) (Plugin.Binary (image res))] /\
           Plugin.writes (snd run) = S (S (Plugin.writes st))
       end
   end).
Proof.
  split; [reflexivity|].
  intros Himg handler run. subst run handler.
  pose proof (flatSourceImages_frame path (map snd watched) st) as F.
  rewrite Himg in F. cbn [snd] in F.
  destruct F as (_ & _ & Fs & Fm & Fw & Fp & Fh & Fl).
  destruct images as [|first rest].
  - assert (E : Plugin.spriteProcess path (Some watched) st = (Ok [], st1)).
    { unfold Plugin.spriteProcess. now rewrite (bind_Ok _ _ _ _ _ Himg). }
    rewrite (attempt_none _ _ _ _ E), E. cbn [fst snd].
    rewrite Fp, Fl. auto.
  - destruct (generateSpriteSheet_calls path (first :: rest) false st1)
      as (c & Hrun & Hsrc & _).
    assert (E : Plugin.spriteProcess path (Some watched) st =
                (Ok [c],
                 snd (Plugin.emit (Plugin.Packed (first :: rest)) st1))).
    { unfold Plugin.spriteProcess. rewrite (bind_Ok _ _ _ _ _ Himg).
      exact Hrun. }
    assert (Ea : attempt spritesmith
                   (Plugin.spriteProcess path (Some watched)) st =
                 attempt spritesmith
                   (Plugin.generateSpriteSheet path (first :: rest) false)
                   st1).
    { unfold Plugin.spriteProcess.
      now rewrite (attempt_step _ _ _ _ _ _ Himg). }
    rewrite E, Ea. cbn [fst snd].
    destruct (spritesmith (first :: rest)) as [err|res] eqn:Hpack.
    + rewrite (generateSpriteSheet_fails _ _ _ _ _ _ Hpack).
      cbn [fst snd Plugin.emit modify Plugin.log Plugin.pending
           Plugin.writes].
      rewrite Fl, Fw, Fp, pluginCallbacks_app.
      split; [reflexivity|]. split; [cbn; lia|].
      split; [eauto|]. auto.
    + rewrite (generateSpriteSheet_run _ _ _ _ _ _ Hpack).
      cbn [fst snd Plugin.emit modify Plugin.log Plugin.pending
           Plugin.writes].
      rewrite Fl, Fw, Fp, Fs, Fm, pluginCallbacks_app.
      split; [reflexivity|]. split; [cbn; lia|].
      split; [eauto|]. auto.
Qed.

Lemma spriteProcess_cases_witness :
  Plugin.flatSourceImages exPath
    [["/w/src/icons/a.png"; "/w/src/icons/b.png"]] (exPlugin JS.VUndefined) =
  (Ok ["/w/src/icons/a.png"; "/w/src/icons/b.png"],
   exPlugin JS.VUndefined) /\
  Plugin.pending
    (snd (attempt exPacker (Plugin.spriteProcess exPath exWatched)
            (exPlugin JS.VUndefined))) = [].
Proof.
  split; [reflexivity|].
  destruct (spriteProcess_cases
              exPath exPacker
              [("/w/src/icons/", ["/w/src/icons/a.png"; "/w/src/icons/b.png"])]
              (exPlugin JS.VUndefined)
              ["/w/src/icons/a.png"; "/w/src/icons/b.png"]
              (exPlugin JS.VUndefined)) as (_ & H).
  destruct (H eq_refl) as (Hp & _). exact Hp.
Defined.

(** X22.  Nothing in the picking of the images knows the files the plugin
    writes: when the sprite image of the plugin is among the files, ends
    with the extension and is let through by the rules, it is picked as a
    source image like any other file. *)
Theorem sprite_is_a_source path files st :
  validRules (Plugin._excludes st) = true ->
  flaglessRules (Plugin._excludes st) = true ->
  In (Plugin.spriteImagePath st) files ->
  Plugin.isPng (Plugin.spriteImagePath st) = true ->
  passes path st (Plugin.spriteImagePath st) = true ->
  exists kept,
    Plugin.sourceImages path files st = (Ok kept, st) /\
    In (Plugin.spriteImagePath st) kept.
Proof.
  intros V F Hin Hpng Hpass.
  eexists. split; [apply sourceImages_filter; assumption|].
  apply filter_In. split; [exact Hin|]. now rewrite Hpass, Hpng.
Qed.

Lemma sprite_is_a_source_witness :
  let st := Plugin.init exPath "/w/src" JS.VUndefined (Some (inl "src")) in
  Plugin.spriteImagePath st = "/w/src/sprite.png" /\
  validRules (Plugin._excludes st) = true /\
  flaglessRules (Plugin._excludes st) = true /\
  Plugin.isPng (Plugin.spriteImagePath st) = true /\
  passes exPath st (Plugin.spriteImagePath st) = true /\
  exists kept,
    Plugin.sourceImages exPath ["/w/src/a.png"; "/w/src/sprite.png"] st =
    (Ok kept, st) /\
    In "/w/src/sprite.png" kept.
Proof.
  intros st.
  split; [reflexivity|]. split; [reflexivity|]. split; [reflexivity|].
  split; [reflexivity|]. split; [reflexivity|].
  apply (sprite_is_a_source exPath ["/w/src/a.png"; "/w/src/sprite.png"] st
           eq_refl eq_refl).
  - simpl. auto.
  - reflexivity.
  - reflexivity.
Defined.
